(** * gitkit: smart-HTTP request dispatch, authentication gate,
      repository lifecycle and subprocess bridging

    A shallow embedding of [http.go] and [credential.go].  Go strings are
    [string]; a Go [error] is [option string] ([None] is [nil]); the
    response writer, the log, the file system seen through [os.Stat] and
    [os.ReadDir], the subprocess group and the stack of deferred calls are
    the fields of an explicit [World] threaded by a small monad whose
    [go_return] is Go's early [return]. *)

From Stdlib Require Import String Ascii List Bool Arith Lia.
Import ListNotations.
Open Scope string_scope.

(* ================================================================= *)
(** ** The Go library functions the source calls *)

Module GoStrings.

Fixpoint string_drop (n : nat) (s : string) : string :=
  match n, s with
  | S k, String _ s' => string_drop k s'
  | _, _ => s
  end.

(** [strings.HasPrefix(s, prefix)] *)
Definition HasPrefix (s pre : string) : bool := String.prefix pre s.

(** [strings.HasSuffix(s, suffix)]:
    [len(s) >= len(suffix) && s[len(s)-len(suffix):] == suffix] *)
Definition HasSuffix (s suffix : string) : bool :=
  Nat.leb (String.length suffix) (String.length s) &&
  String.eqb (string_drop (String.length s - String.length suffix) s) suffix.

(** [strings.TrimSuffix(s, suffix)] *)
Definition TrimSuffix (s suffix : string) : string :=
  if HasSuffix s suffix
  then String.substring 0 (String.length s - String.length suffix) s
  else s.

(** [strings.Replace(s, old, new, 1)]: the leftmost occurrence of [old]
    is replaced (an empty [old] matches at the beginning of [s]). *)
Fixpoint Replace1 (s old new : string) : string :=
  if String.prefix old s then new ++ string_drop (String.length old) s
  else match s with
       | EmptyString => EmptyString
       | String c s' => String c (Replace1 s' old new)
       end.

Definition slash : ascii := "/"%char.

(** [strings.Split(s, "/")] *)
Fixpoint Split_slash (s : string) : list string :=
  match s with
  | EmptyString => [EmptyString]
  | String c s' =>
      if Ascii.eqb c slash then EmptyString :: Split_slash s'
      else match Split_slash s' with
           | x :: xs => String c x :: xs
           | [] => [String c EmptyString]
           end
  end.

(** [strings.Join(l, "/")] *)
Fixpoint Join_slash (l : list string) : string :=
  match l with
  | [] => EmptyString
  | x :: xs =>
      match xs with
      | [] => x
      | _ :: _ => x ++ String slash (Join_slash xs)
      end
  end.

End GoStrings.

Module GoPath.
Import GoStrings.

(** One path element processed by [path.Clean]; [out] is the stack of
    elements kept so far, innermost first.  An empty element and [.] are
    dropped; [..] removes the element before it when there is one that is
    not itself [..], is dropped at the root of a rooted path, and is kept
    otherwise. *)
Definition clean_step (rooted : bool) (out : list string) (c : string)
  : list string :=
  if String.eqb c "" || String.eqb c "." then out
  else if String.eqb c ".." then
    match out with
    | top :: rest => if String.eqb top ".." then c :: out else rest
    | [] => if rooted then out else [c]
    end
  else c :: out.

Definition clean_elems (rooted : bool) (elems : list string) (out : list string)
  : list string :=
  fold_left (clean_step rooted) elems out.

(** [path.Clean] *)
Definition Clean (p : string) : string :=
  if String.eqb p "" then "."
  else
    let rooted := HasPrefix p "/" in
    let out := rev (clean_elems rooted (Split_slash p) []) in
    if rooted then String slash (Join_slash out)
    else match out with
         | [] => "."
         | _ :: _ => Join_slash out
         end.

(** [path.Join]: leading empty elements are ignored, the rest is joined
    with slashes and cleaned; all elements empty gives the empty string. *)
Fixpoint Join (elem : list string) : string :=
  match elem with
  | [] => ""
  | e :: rest =>
      if String.eqb e "" then Join rest else Clean (Join_slash elem)
  end.

End GoPath.

(* ================================================================= *)
(** ** Data model *)

Definition error := option string.

Definition is_err (e : error) : bool :=
  match e with Some _ => true | None => false end.

(** [credential.go]: [type Credential struct] *)
Record Credential := mkCredential {
  Username : string;
  Password : string;
  Token : string
}.

(** The parts of [net/http]'s [*http.Request] the package reads. *)
Record URL := mkURL {
  Path : string;
  Query : list (string * string);
  URL_String : string
}.

Record http_Request := mkHttpRequest {
  Method : string;
  Host : string;
  Url : URL;
  RequestURI : string;
  Header : list (string * string);
  Body : string
}.

Fixpoint assoc_get (k : string) (l : list (string * string)) : string :=
  match l with
  | [] => ""
  | (k', v) :: rest => if String.eqb k k' then v else assoc_get k rest
  end.

(** [r.Header.Get(k)] and [r.URL.Query().Get(k)]: the first value, or the
    empty string. *)
Definition Header_Get (r : http_Request) (k : string) : string :=
  assoc_get k (Header r).

Definition Query_Get (r : http_Request) (k : string) : string :=
  assoc_get k (Query (Url r)).

(** [http.go]: [type Request struct] *)
Record Request := mkRequest {
  httpReq : http_Request;
  RepoName : string;
  RepoPath : string
}.

Inductive KitData :=
| KitRepoResponse (repoPath : string)
| KitListRepoResponse (repoPaths : list string).

Record KitResponse := mkKitResponse {
  Code : nat;
  Data : KitData
}.

(** Modelled from the spec: the declaration of [Config], which is in
    another file of the package; these are the fields [http.go] uses (root
    directory, path of the executable, whether authentication is required,
    auto-create, automatic hook installation and the hook installer, [None]
    for [nil]). *)
Record Config := mkConfig {
  Dir : string;
  GitPath : string;
  Auth : bool;
  AutoCreate : bool;
  AutoHooks : bool;
  Hooks : option unit
}.

(** The handler of a service is one of the five methods of [Server]. *)
Inductive Handler :=
| h_getInfoRefs | h_postRPC | h_listRepo | h_createRepo | h_deleteRepo.

Record service := mkService {
  method : string;
  suffix : string;
  handler : Handler;
  rpc : string
}.

Record Server := mkServer {
  config : Config;
  services : list service;
  AuthFunc : option (Credential -> Request -> bool * error);
  FilterRepoFunc : option (list string -> Request -> list string)
}.

(* ================================================================= *)
(** ** The world a request runs in *)

(** The file system as [os.Stat] and [os.ReadDir] see it: every entry is
    listed under its absolute path, given by its elements from the root.
    There are no symbolic links.  The order of the list is the order in
    which [os.ReadDir] reports the entries of a directory. *)
Inductive Kind := KFile | KDir.

Definition FS := list (list string * Kind).

Fixpoint elems_eqb (a b : list string) : bool :=
  match a, b with
  | [], [] => true
  | x :: a', y :: b' => String.eqb x y && elems_eqb a' b'
  | _, _ => false
  end.

Fixpoint fs_find (fs : FS) (p : list string) : option Kind :=
  match fs with
  | [] => None
  | (q, k) :: rest => if elems_eqb q p then Some k else fs_find rest p
  end.

(** The root directory always exists. *)
Definition fs_lookup (fs : FS) (p : list string) : option Kind :=
  match p with
  | [] => Some KDir
  | _ :: _ => fs_find fs p
  end.

Definition fs_put (p : list string) (k : Kind) (fs : FS) : FS :=
  match fs_lookup fs p with
  | Some _ => fs
  | None => (fs ++ [(p, k)])%list
  end.

(** The entries of directory [d], with their kind. *)
Definition fs_children (fs : FS) (d : list string) : list (string * Kind) :=
  flat_map (fun e : list string * Kind =>
              match fst e with
              | [] => []
              | _ :: _ =>
                  if elems_eqb (removelast (fst e)) d
                  then [(last (fst e) "", snd e)] else []
              end) fs.

Fixpoint is_prefix (d p : list string) : bool :=
  match d, p with
  | [], _ => true
  | x :: d', y :: p' => String.eqb x y && is_prefix d' p'
  | _ :: _, [] => false
  end.

(** How the operating system resolves a path name: a rooted name from the
    root, any other from the working directory, element by element, [.]
    staying in place and [..] going to the parent (the root is its own
    parent).  The empty name does not resolve. *)
Definition resolve (cwd : list string) (p : string) : option (list string) :=
  if String.eqb p "" then None
  else Some (rev (GoPath.clean_elems true (GoStrings.Split_slash p)
                    (if GoStrings.HasPrefix p "/" then [] else rev cwd))).

(** The response writer: the header map, the status line once written and
    the bytes of the body; [rw_envelope] is the value handed to the JSON
    encoder by [formatResponse]. *)
Record ResponseWriter := mkResponseWriter {
  rw_header : list (string * list string);
  rw_status : option nat;
  rw_body : string;
  rw_envelope : option KitResponse
}.

Definition rw_empty : ResponseWriter := mkResponseWriter [] None "" None.

Inductive GroupState := NoGroup | GroupAlive | GroupTerminated.

Inductive Deferred := d_cleanUpProcessGroup | d_pipe_Close | d_stdin_Close.

Inductive Event :=
| EvHandler (h : Handler) (rpc_arg : string) (req : Request)
| EvHandlerReturn (h : Handler)
| EvRepoExists (p : string) (found : bool)
| EvInitRepo (name : string)
| EvExecRun (argv : list string) (e : error)
| EvStart (argv : list string) (e : error)
| EvCleanUpProcessGroup
| EvClose (d : Deferred)
| EvWait (e : error).

Record LogEntry := mkLog {
  log_level : string;
  log_context : string;
  log_message : string
}.

Record World := mkWorld {
  fs : FS;
  cwd : list string;
  resp : ResponseWriter;
  logs : list LogEntry;          (* oldest first *)
  group : GroupState;
  proc_stdin : string;
  events : list Event;           (* oldest first *)
  deferred : list Deferred       (* innermost first *)
}.

Definition set_fs (f : FS) (w : World) : World :=
  mkWorld f (cwd w) (resp w) (logs w) (group w) (proc_stdin w) (events w) (deferred w).
Definition set_resp (r : ResponseWriter) (w : World) : World :=
  mkWorld (fs w) (cwd w) r (logs w) (group w) (proc_stdin w) (events w) (deferred w).
Definition set_logs (l : list LogEntry) (w : World) : World :=
  mkWorld (fs w) (cwd w) (resp w) l (group w) (proc_stdin w) (events w) (deferred w).
Definition set_group (g : GroupState) (w : World) : World :=
  mkWorld (fs w) (cwd w) (resp w) (logs w) g (proc_stdin w) (events w) (deferred w).
Definition set_proc_stdin (i : string) (w : World) : World :=
  mkWorld (fs w) (cwd w) (resp w) (logs w) (group w) i (events w) (deferred w).
Definition set_events (e : list Event) (w : World) : World :=
  mkWorld (fs w) (cwd w) (resp w) (logs w) (group w) (proc_stdin w) e (deferred w).
Definition set_deferred (d : list Deferred) (w : World) : World :=
  mkWorld (fs w) (cwd w) (resp w) (logs w) (group w) (proc_stdin w) (events w) d.

(** A fresh request on file system [f] with working directory [c]. *)
Definition initial_world (f : FS) (c : list string) : World :=
  mkWorld f c rw_empty [] NoGroup "" [] [].

(** What the environment answers to the operations the handlers cannot
    decide themselves: starting and waiting for the subprocess, the pipes,
    the client connection, the [git init] run and the hook installer. *)
Record Env := mkEnv {
  start_err : error;                 (* cmd.Start() *)
  stdin_pipe_err : error;            (* cmd.StdinPipe() *)
  gzip_err : error;                  (* gzip.NewReader(r.Body) *)
  gunzip : string -> string;         (* what the gzip reader yields *)
  copy_in_err : error;               (* io.Copy(stdin, body) *)
  packLine_err : error;              (* the write of the announcement *)
  packFlush_err : error;             (* the write of the flush marker *)
  proc_stdout : string;              (* what the subprocess prints *)
  copy_out_err : option (nat * string); (* io.Copy(w, pipe) fails after n bytes *)
  wait_err : error;                  (* cmd.Wait() *)
  git_init_err : error;              (* exec.Command(git, init, --bare, p).Run() *)
  hooks_err : error;                 (* config.Hooks.setupInDir(p) *)
  removeAll_err : error              (* os.RemoveAll(p) *)
}.

(* ================================================================= *)
(** ** Control flow: early return, panic, deferred calls *)

Inductive Flow (A : Type) :=
| Next (a : A)
| Returned
| Panicked (msg : string).
Arguments Next {A} a.
Arguments Returned {A}.
Arguments Panicked {A} msg.

Definition M (A : Type) := World -> Flow A * World.

Definition ret {A} (a : A) : M A := fun w => (Next a, w).

Definition bind {A B} (m : M A) (k : A -> M B) : M B :=
  fun w =>
    match m w with
    | (Next a, w') => k a w'
    | (Returned, w') => (Returned, w')
    | (Panicked msg, w') => (Panicked msg, w')
    end.

Declare Scope go_scope.
Delimit Scope go_scope with go.
Notation "x <- c ;; k" := (bind c (fun x => k))
  (at level 61, c at next level, right associativity) : go_scope.
Notation "c ;; k" := (bind c (fun _ => k))
  (at level 61, right associativity) : go_scope.
Open Scope go_scope.

(** Go's [return] in a function without results. *)
Definition go_return {A} : M A := fun w => (Returned, w).

Definition go_panic {A} (msg : string) : M A := fun w => (Panicked msg, w).

Definition when (b : bool) (m : M unit) : M unit := if b then m else ret tt.

Definition modify (f : World -> World) : M unit := fun w => (Next tt, f w).

Definition gets {A} (f : World -> A) : M A := fun w => (Next (f w), w).

Definition emit (e : Event) : M unit :=
  modify (fun w => set_events (events w ++ [e])%list w).

(** [defer f()]: the call is pushed on the stack of the running function. *)
Definition defer (d : Deferred) : M unit :=
  modify (fun w => set_deferred (d :: deferred w) w).

(** Modelled from the spec: [cleanUpProcessGroup], which is in another
    file of the package; the entire process group of the command is
    terminated (a command that was never started has no group). *)
Definition cleanUpProcessGroup (w : World) : World :=
  set_group (match group w with GroupAlive => GroupTerminated | g => g end)
            (set_events (events w ++ [EvCleanUpProcessGroup])%list w).

Definition run_deferred (w : World) (d : Deferred) : World :=
  match d with
  | d_cleanUpProcessGroup => cleanUpProcessGroup w
  | d_pipe_Close | d_stdin_Close => set_events (events w ++ [EvClose d])%list w
  end.

(** A call of a handler: the deferred calls of the handler run, last
    pushed first, when its body is left, by reaching the end, by [return]
    or by a panic; only then does the caller continue. *)
Definition call (h : Handler) (body : M unit) : M unit :=
  fun w =>
    let saved := deferred w in
    let '(fl, w1) := body (set_deferred [] w) in
    let w2 := fold_left run_deferred (deferred w1) w1 in
    let w3 := set_deferred saved
                (set_events (events w2 ++ [EvHandlerReturn h])%list w2) in
    match fl with
    | Panicked msg => (Panicked msg, w3)
    | _ => (Next tt, w3)
    end.

(* ================================================================= *)
(** ** The response writer and the logger *)

Definition nl : string := String (ascii_of_nat 10) EmptyString.

Definition dquote : string := String (ascii_of_nat 34) EmptyString.

(** The Go raw string [Basic realm=] followed by two double quotes. *)
Definition basic_realm_challenge : string := "Basic realm=" ++ dquote ++ dquote.

Fixpoint header_set (k v : string) (h : list (string * list string))
  : list (string * list string) :=
  match h with
  | [] => [(k, [v])]
  | (k', vs) :: rest =>
      if String.eqb k k' then (k, [v]) :: rest else (k', vs) :: header_set k v rest
  end.

Fixpoint header_add (k v : string) (h : list (string * list string))
  : list (string * list string) :=
  match h with
  | [] => [(k, [v])]
  | (k', vs) :: rest =>
      if String.eqb k k' then (k, (vs ++ [v])%list) :: rest
      else (k', vs) :: header_add k v rest
  end.

Definition upd_resp (f : ResponseWriter -> ResponseWriter) : M unit :=
  modify (fun w => set_resp (f (resp w)) w).

(** [w.Header()[k] = []string{v}] *)
Definition w_Header_Set (k v : string) : M unit :=
  upd_resp (fun r => mkResponseWriter (header_set k v (rw_header r))
                       (rw_status r) (rw_body r) (rw_envelope r)).

(** [w.Header().Add(k, v)] *)
Definition w_Header_Add (k v : string) : M unit :=
  upd_resp (fun r => mkResponseWriter (header_add k v (rw_header r))
                       (rw_status r) (rw_body r) (rw_envelope r)).

(** [w.WriteHeader(code)]: the first call fixes the status. *)
Definition w_WriteHeader (code : nat) : M unit :=
  upd_resp (fun r => mkResponseWriter (rw_header r)
                       (match rw_status r with Some c => Some c | None => Some code end)
                       (rw_body r) (rw_envelope r)).

(** A write that reaches the client; it sends status 200 first when no
    status was written. *)
Definition w_Write (data : string) : M unit :=
  upd_resp (fun r => mkResponseWriter (rw_header r)
                       (match rw_status r with Some c => Some c | None => Some 200 end)
                       (rw_body r ++ data) (rw_envelope r)).

(** [http.Error(w, msg, code)] *)
Definition http_Error (msg : string) (code : nat) : M unit :=
  w_Header_Set "Content-Type" "text/plain; charset=utf-8" ;;
  w_Header_Set "X-Content-Type-Options" "nosniff" ;;
  w_WriteHeader code ;;
  w_Write (msg ++ nl).

(** [http.NotFound(w, r)] *)
Definition http_NotFound : M unit := http_Error "404 page not found" 404.

(** Modelled from the spec: [logInfo] and [logError], which are in
    another file of the package; the logger is a sink of (context tag,
    message or error). *)
Definition logInfo (context msg : string) : M unit :=
  modify (fun w => set_logs (logs w ++ [mkLog "info" context msg])%list w).

Definition logError (context msg : string) : M unit :=
  modify (fun w => set_logs (logs w ++ [mkLog "error" context msg])%list w).

(** Modelled from the spec: [fail500], which is in another file of the
    package; an internal-server-level failure, the error logged with its
    context tag and a generic message sent to the client. *)
Definition fail500 (context err : string) : M unit :=
  http_Error "Internal server error" 500 ;;
  logError context err.

(** Modelled from the spec: [formatResponse], which is in another file of
    the package; the envelope goes to the JSON encoder and the HTTP status
    is the one given. *)
Definition formatResponse (body : KitResponse) (status : nat) : M unit :=
  w_Header_Add "Content-Type" "application/json" ;;
  w_WriteHeader status ;;
  upd_resp (fun r => mkResponseWriter (rw_header r) (rw_status r) (rw_body r)
                       (Some body)).

(* ================================================================= *)
(** ** The protocol framer *)

Definition hex_digit (n : nat) : ascii :=
  match n with
  | 0 => "0" | 1 => "1" | 2 => "2" | 3 => "3" | 4 => "4" | 5 => "5"
  | 6 => "6" | 7 => "7" | 8 => "8" | 9 => "9" | 10 => "a" | 11 => "b"
  | 12 => "c" | 13 => "d" | 14 => "e" | _ => "f"
  end%char.

Fixpoint hex_of_nat_aux (fuel n : nat) (acc : string) : string :=
  match fuel with
  | 0 => acc
  | S f =>
      let acc' := String (hex_digit (n mod 16)) acc in
      if Nat.eqb (n / 16) 0 then acc' else hex_of_nat_aux f (n / 16) acc'
  end.

Fixpoint zeros (n : nat) : string :=
  match n with
  | 0 => EmptyString
  | S k => String "0"%char (zeros k)
  end.

(** [fmt.Sprintf("%04x", n)]: lowercase hexadecimal, padded with zeros to
    at least four characters. *)
Definition hex04 (n : nat) : string :=
  let d := hex_of_nat_aux (S n) n EmptyString in
  zeros (4 - String.length d) ++ d.

(** Modelled from the spec: the framing of [packLine], which is in
    another file of the package.  A line is a 4-character
    lowercase-hexadecimal, zero-padded length prefix, counting its own 4
    bytes plus the payload length, followed immediately by the payload
    bytes. *)
Definition pkt_line (payload : string) : string :=
  hex04 (String.length payload + 4) ++ payload.

(** Modelled from the spec: the flush marker of [packFlush], which is in
    another file of the package; the literal 4-byte sequence [0000] with no
    payload. *)
Definition pkt_flush : string := "0000".

(* ================================================================= *)
(** ** The operating system *)

Record DirEntry := mkDirEntry {
  Name : string;
  IsDir : bool
}.

Definition kind_is_dir (k : Kind) : bool :=
  match k with KDir => true | KFile => false end.

Definition stat_ok (f : FS) (c : list string) (p : string) : bool :=
  match resolve c p with
  | Some q => match fs_lookup f q with Some _ => true | None => false end
  | None => false
  end.

Definition read_dir (f : FS) (c : list string) (p : string)
  : list DirEntry + string :=
  match resolve c p with
  | Some q =>
      match fs_lookup f q with
      | Some KDir =>
          inl (map (fun e => mkDirEntry (fst e) (kind_is_dir (snd e)))
                   (fs_children f q))
      | Some KFile => inr ("open " ++ p ++ ": not a directory")
      | None => inr ("open " ++ p ++ ": no such file or directory")
      end
  | None => inr ("open " ++ p ++ ": no such file or directory")
  end.

(** [os.Stat(p)] and [os.Lstat(p)], [nil] when the entry exists. *)
Definition os_Stat (p : string) : M error :=
  gets (fun w => if stat_ok (fs w) (cwd w) p then None
                 else Some ("stat " ++ p ++ ": no such file or directory")).

(** [os.ReadDir(p)] *)
Definition os_ReadDir (p : string) : M (list DirEntry + string) :=
  gets (fun w => read_dir (fs w) (cwd w) p).

Fixpoint mkdir_all (pre rest : list string) (f : FS) : FS :=
  match rest with
  | [] => f
  | x :: rest' => mkdir_all (pre ++ [x]) rest' (fs_put (pre ++ [x]) KDir f)
  end%list.

(** What a successful [git init --bare p] leaves on disk: the directory
    [p], created with its parents, holding among others the [objects] and
    [refs] directories and the [HEAD] and [config] files. *)
Definition git_init_bare (f : FS) (c : list string) (p : string) : FS :=
  match resolve c p with
  | Some q =>
      fs_put (q ++ ["config"]) KFile
        (fs_put (q ++ ["HEAD"]) KFile
           (fs_put (q ++ ["refs"]) KDir
              (fs_put (q ++ ["objects"]) KDir (mkdir_all [] q f))))
  | None => f
  end%list.

(** What [os.RemoveAll(p)] leaves: no entry at or below [p]. *)
Definition remove_all (f : FS) (c : list string) (p : string) : FS :=
  match resolve c p with
  | Some q => filter (fun e => negb (is_prefix q (fst e))) f
  | None => f
  end.

(* ================================================================= *)
(** ** The package *)

Section Gitkit.

(** [getNamespaceAndRepo] and [subCommand] are functions of another file
    of the package, and [parseBasicAuth] is the parser of [net/http] behind
    the [BasicAuth] method of a request; the handlers are defined for any
    such functions and any answers of the environment. *)
Variable getNamespaceAndRepo : string -> string * string.
Variable subCommand : string -> string.
Variable parseBasicAuth : string -> option (string * string).
Variable env : Env.

(** *** credential.go *)

(** [req.BasicAuth()]: no credential when the header is absent. *)
Definition BasicAuth (req : http_Request) : option (string * string) :=
  let auth := Header_Get req "Authorization" in
  if String.eqb auth "" then None else parseBasicAuth auth.

Definition tokenAuth (req : http_Request) : string * bool :=
  let token := Header_Get req "Authorization" in
  if negb (String.eqb token "") then (token, true) else ("", false).

Definition getCredential (req : http_Request) : Credential * error :=
  let cred := mkCredential "" "" "" in
  match BasicAuth req with
  | None =>
      let '(token, ok) := tokenAuth req in
      if ok then (mkCredential (Username cred) (Password cred) token, None)
      else (cred, Some "authentication failed")
  | Some (user, pass) => (mkCredential user pass (Token cred), None)
  end.

(** *** http.go *)

Definition default_services : list service :=
  [ mkService "GET" "/info/refs" h_getInfoRefs "";
    mkService "POST" "/git-upload-pack" h_postRPC "git-upload-pack";
    mkService "POST" "/git-receive-pack" h_postRPC "git-receive-pack";
    mkService "GET" "/repos" h_listRepo "";
    mkService "POST" "/repo" h_createRepo "";
    mkService "DELETE" "/repo" h_deleteRepo "" ].

Definition New (cfg : Config) : Server :=
  mkServer
    (mkConfig (Dir cfg)
       (if String.eqb (GitPath cfg) "" then "git" else GitPath cfg)
       (Auth cfg) (AutoCreate cfg) (AutoHooks cfg) (Hooks cfg))
    default_services None None.

Fixpoint findService_loop (svcs : list service) (req : http_Request)
  : option (service * string) :=
  match svcs with
  | [] => None
  | svc :: rest =>
      if String.eqb (method svc) (Method req)
         && GoStrings.HasSuffix (Path (Url req)) (suffix svc)
      then Some (svc, GoStrings.Replace1 (Path (Url req)) (suffix svc) "")
      else findService_loop rest req
  end.

Definition findService (s : Server) (req : http_Request)
  : option (service * string) :=
  findService_loop (services s) req.

Definition repoExists (p : string) : M bool :=
  err <- os_Stat (GoPath.Join [p; "objects"]) ;;
  emit (EvRepoExists p (negb (is_err err))) ;;
  ret (negb (is_err err)).

(** [exec.Command(git, "init", "--bare", fullPath).Run()] *)
Definition run_git_init (git fullPath : string) : M error :=
  emit (EvExecRun [git; "init"; "--bare"; fullPath] (git_init_err env)) ;;
  match git_init_err env with
  | Some e => ret (Some e)
  | None =>
      modify (fun w => set_fs (git_init_bare (fs w) (cwd w) fullPath) w) ;;
      ret None
  end.

(** Modelled from the spec: [setupInDir] of the hook installer, which is
    in another file of the package; it installs hooks into the new
    repository directory and its failure is the failure of the creation. *)
Definition Hooks_setupInDir (fullPath : string) : M error :=
  ret (hooks_err env).

Definition initRepo (name : string) (cfg : Config) : M error :=
  emit (EvInitRepo name) ;;
  let fullPath := GoPath.Join [Dir cfg; name] in
  err <- run_git_init (GitPath cfg) fullPath ;;
  match err with
  | Some e => ret (Some e)
  | None =>
      match AutoHooks cfg, Hooks cfg with
      | true, Some _ => Hooks_setupInDir fullPath
      | _, _ => ret None
      end
  end.

(** The command built by [gitCommand]: the arguments and the request for a
    process group of its own ([Setpgid]); its output pipe is the source of
    [proc_stdout]. *)
Record Cmd := mkCmd {
  argv : list string;
  Setpgid : bool
}.

Definition gitCommand (name : string) (args : list string) : Cmd :=
  mkCmd (name :: args) true.

(** [cmd.Start()]: a started command with [Setpgid] runs in a group of
    its own. *)
Definition cmd_Start (cmd : Cmd) : M error :=
  emit (EvStart (argv cmd) (start_err env)) ;;
  match start_err env with
  | Some e => ret (Some e)
  | None => modify (set_group GroupAlive) ;; ret None
  end.

Definition cmd_Wait : M error :=
  emit (EvWait (wait_err env)) ;; ret (wait_err env).

(** Modelled from the spec: [packLine(w, s)] and [packFlush(w)], which are
    in another file of the package; each is one write to the response, of a
    framed line and of the flush marker, and returns the error of the
    write. *)
Definition packLine (s : string) : M error :=
  match packLine_err env with
  | Some e => ret (Some e)
  | None => w_Write (pkt_line s) ;; ret None
  end.

Definition packFlush : M error :=
  match packFlush_err env with
  | Some e => ret (Some e)
  | None => w_Write pkt_flush ;; ret None
  end.

(** [io.Copy(w, pipe)]: the output of the subprocess goes to the response
    until it ends or a write or read fails. *)
Definition io_Copy_out : M error :=
  match copy_out_err env with
  | None => w_Write (proc_stdout env) ;; ret None
  | Some (n, e) => w_Write (String.substring 0 n (proc_stdout env)) ;; ret (Some e)
  end.

(** [io.Copy(stdin, body)] *)
Definition io_Copy_in (body : string) : M error :=
  match copy_in_err env with
  | Some e => ret (Some e)
  | None => modify (set_proc_stdin body) ;; ret None
  end.

Definition getInfoRefs (s : Server) (_ : string) (r : Request) : M unit :=
  let context := "get-info-refs" in
  let rpc := Query_Get (httpReq r) "service" in
  when (negb (String.eqb rpc "git-upload-pack" || String.eqb rpc "git-receive-pack"))
       (http_Error "Not Found" 404 ;; go_return) ;;
  let cmd := gitCommand (GitPath (config s))
               [subCommand rpc; "--stateless-rpc"; "--advertise-refs"; RepoPath r] in
  err <- cmd_Start cmd ;;
  match err with Some e => fail500 context e ;; go_return | None => ret tt end ;;
  defer d_cleanUpProcessGroup ;;
  w_Header_Add "Content-Type" ("application/x-" ++ rpc ++ "-advertisement") ;;
  w_Header_Add "Cache-Control" "no-cache" ;;
  w_WriteHeader 200 ;;
  err <- packLine ("# service=" ++ rpc ++ nl) ;;
  match err with Some e => logError context e ;; go_return | None => ret tt end ;;
  err <- packFlush ;;
  match err with Some e => logError context e ;; go_return | None => ret tt end ;;
  err <- io_Copy_out ;;
  match err with Some e => logError context e ;; go_return | None => ret tt end ;;
  err <- cmd_Wait ;;
  match err with Some e => logError context e ;; go_return | None => ret tt end.

Definition postRPC (s : Server) (rpc : string) (r : Request) : M unit :=
  let context := "post-rpc" in
  body <- (if String.eqb (Header_Get (httpReq r) "Content-Encoding") "gzip"
           then match gzip_err env with
                | Some e => fail500 context e ;; go_return
                | None => ret (gunzip env (Body (httpReq r)))
                end
           else ret (Body (httpReq r))) ;;
  let cmd := gitCommand (GitPath (config s))
               [subCommand rpc; "--stateless-rpc"; RepoPath r] in
  defer d_pipe_Close ;;
  match stdin_pipe_err env with
  | Some e => fail500 context e ;; go_return
  | None => ret tt
  end ;;
  defer d_stdin_Close ;;
  err <- cmd_Start cmd ;;
  match err with Some e => fail500 context e ;; go_return | None => ret tt end ;;
  defer d_cleanUpProcessGroup ;;
  err <- io_Copy_in body ;;
  match err with Some e => fail500 context e ;; go_return | None => ret tt end ;;
  emit (EvClose d_stdin_Close) ;;
  w_Header_Add "Content-Type" ("application/x-" ++ rpc ++ "-result") ;;
  w_Header_Add "Cache-Control" "no-cache" ;;
  w_WriteHeader 200 ;;
  err <- io_Copy_out ;;
  match err with Some e => logError context e ;; go_return | None => ret tt end ;;
  err <- cmd_Wait ;;
  match err with Some e => logError context e ;; go_return | None => ret tt end.

Definition createRepo (s : Server) (_ : string) (req : Request) : M unit :=
  found <- repoExists (RepoPath req) ;;
  (if negb found then
     err <- initRepo (RepoName req) (config s) ;;
     match err with
     | Some e => fail500 "repo-init" e ;; go_return
     | None => ret tt
     end ;;
     formatResponse (mkKitResponse 201 (KitRepoResponse (RepoName req))) 201 ;;
     go_return
   else ret tt) ;;
  formatResponse (mkKitResponse 409 (KitRepoResponse (RepoName req))) 409.

(** The inner loop of [listRepo] over the entries of one namespace. *)
Fixpoint listRepo_subDirs (repoDir : DirEntry) (subDirs : list DirEntry)
  (repos : list string) : list string :=
  match subDirs with
  | [] => repos
  | d :: rest =>
      listRepo_subDirs repoDir rest
        (if IsDir d && GoStrings.HasSuffix (Name d) ".git"
         then (repos ++ [GoPath.Join [Name repoDir; Name d]])%list
         else repos)
  end.

(** The outer loop of [listRepo] over the entries of the root. *)
Fixpoint listRepo_dirs (dirs : list DirEntry) (repos : list string)
  : M (list string) :=
  match dirs with
  | [] => ret repos
  | repoDir :: rest =>
      if IsDir repoDir then
        subDirs <- os_ReadDir (Name repoDir) ;;
        match subDirs with
        | inr e => fail500 "list repo" e ;; go_return
        | inl subDirs => listRepo_dirs rest (listRepo_subDirs repoDir subDirs repos)
        end
      else listRepo_dirs rest repos
  end.

Definition listRepo (s : Server) (_ : string) (r : Request) : M unit :=
  let fullPath := Dir (config s) in
  dirs <- os_ReadDir fullPath ;;
  match dirs with
  | inr e => fail500 "list repo" e ;; go_return
  | inl dirs =>
      repos <- listRepo_dirs dirs [] ;;
      match FilterRepoFunc s with
      | None => go_panic "invalid memory address or nil pointer dereference"
      | Some filter =>
          let repos := filter repos r in
          formatResponse (mkKitResponse 200 (KitListRepoResponse repos)) 200
      end
  end.

Definition deleteRepo (s : Server) (_ : string) (r : Request) : M unit :=
  when (String.eqb (RepoName r) "")
       (formatResponse (mkKitResponse 400 (KitRepoResponse (RepoName r))) 400 ;;
        go_return) ;;
  let fullPath := GoPath.Join [Dir (config s); RepoName r] in
  err <- os_Stat fullPath ;;
  match err with Some e => fail500 "find repo" e ;; go_return | None => ret tt end ;;
  match removeAll_err env with
  | Some e => fail500 "find repo" e ;; go_return
  | None => modify (fun w => set_fs (remove_all (fs w) (cwd w) fullPath) w)
  end ;;
  formatResponse (mkKitResponse 202 (KitRepoResponse (RepoName r))) 202.

(** [svc.handler(svc.rpc, w, req)] *)
Definition handler_body (s : Server) (h : Handler) : string -> Request -> M unit :=
  match h with
  | h_getInfoRefs => getInfoRefs s
  | h_postRPC => postRPC s
  | h_listRepo => listRepo s
  | h_createRepo => createRepo s
  | h_deleteRepo => deleteRepo s
  end.

Definition invoke (s : Server) (svc : service) (req : Request) : M unit :=
  emit (EvHandler (handler svc) (rpc svc) req) ;;
  call (handler svc) (handler_body s (handler svc) (rpc svc) req).

Definition ServeHTTP (s : Server) (r : http_Request) : M unit :=
  logInfo "request" (Method r ++ " " ++ Host r ++ URL_String (Url r)) ;;
  (* Find the git subservice to handle the request *)
  found <- match findService s r with
           | None => http_Error "Forbidden" 403 ;; go_return
           | Some found => ret found
           end ;;
  let '(svc, repoUrlPath) := found in
  (* Determine namespace and repo name from request path *)
  let '(repoNamespace, repoName) := getNamespaceAndRepo repoUrlPath in
  (if String.eqb (Method r) "GET" && GoStrings.HasSuffix (RequestURI r) "/repos"
   then ret tt (* skip list repos *)
   else if String.eqb repoName ""
   then logError "auth" "no repo name provided" ;; w_WriteHeader 400 ;; go_return
   else ret tt) ;;
  let req := mkRequest r (GoPath.Join [repoNamespace; repoName])
               (GoPath.Join [Dir (config s); repoNamespace; repoName]) in
  (if Auth (config s) then
     authFunc <- match AuthFunc s with
                 | None => logError "auth" "no auth backend provided" ;;
                           w_WriteHeader 401 ;; go_return
                 | Some f => ret f
                 end ;;
     let authHeader := Header_Get r "Authorization" in
     when (String.eqb authHeader "")
          (w_Header_Set "WWW-Authenticate" basic_realm_challenge ;;
           w_WriteHeader 401 ;; go_return) ;;
     let '(cred, err) := getCredential r in
     match err with
     | Some e => logError "auth" e ;; w_WriteHeader 401 ;; go_return
     | None => ret tt
     end ;;
     let '(allow, err) := authFunc cred req in
     when (negb allow || is_err err)
          (match err with Some e => logError "auth" e | None => ret tt end ;;
           logError "auth" ("rejected user " ++ Username cred) ;;
           w_WriteHeader 401 ;; go_return)
   else ret tt) ;;
  when (String.eqb (Method r) "POST" && GoStrings.HasSuffix (RequestURI r) "/repo"
        || String.eqb (Method r) "GET" && GoStrings.HasSuffix (RequestURI r) "/repos")
       (* skip create repo *)
       (invoke s svc req ;; go_return) ;;
  found <- repoExists (RepoPath req) ;;
  when (negb found && AutoCreate (config s))
       (err <- initRepo (RepoName req) (config s) ;;
        match err with Some e => logError "repo-init" e | None => ret tt end) ;;
  found <- repoExists (RepoPath req) ;;
  when (negb found)
       (logError "repo-init" (RepoPath req ++ " does not exist") ;;
        http_NotFound ;; go_return) ;;
  invoke s svc req.

(** *** Vocabulary for the properties of the dispatcher *)

(** The request context built by [ServeHTTP] for the remainder
    [repoUrlPath] of the path. *)
Definition request_context (s : Server) (r : http_Request)
  (repoUrlPath : string) : Request :=
  let '(repoNamespace, repoName) := getNamespaceAndRepo repoUrlPath in
  mkRequest r (GoPath.Join [repoNamespace; repoName])
    (GoPath.Join [Dir (config s); repoNamespace; repoName]).

(** The test that skips name derivation for the listing endpoint. *)
Definition is_list_request (r : http_Request) : bool :=
  String.eqb (Method r) "GET" && GoStrings.HasSuffix (RequestURI r) "/repos".

(** The test of the create and list carve-out. *)
Definition is_lifecycle_request (r : http_Request) : bool :=
  String.eqb (Method r) "POST" && GoStrings.HasSuffix (RequestURI r) "/repo"
  || String.eqb (Method r) "GET" && GoStrings.HasSuffix (RequestURI r) "/repos".

(** The request passes name derivation: it is a listing request or its
    derived repository name is not empty. *)
Definition name_derived (r : http_Request) (repoUrlPath : string) : bool :=
  is_list_request r
  || negb (String.eqb (snd (getNamespaceAndRepo repoUrlPath)) "").

(** The request passes the authentication gate: authentication is not
    required, or a capability is installed, the request carries an
    [Authorization] header and the capability allows it without error. *)
Definition auth_passes (s : Server) (r : http_Request) (req : Request) : Prop :=
  Auth (config s) = false
  \/ exists f, AuthFunc s = Some f
             /\ Header_Get r "Authorization" <> ""
             /\ f (fst (getCredential r)) req = (true, None).

End Gitkit.

(* ================================================================= *)
(** ** Vocabulary for the properties of the handlers *)

(** What a handler guarantees about its subprocess: the events of the
    call extend the trace, the deferred calls of the caller are left alone,
    and if the subprocess was started then its group is terminated when the
    handler returns, the clean-up lying between the start and the return. *)
Definition cleans_up (h : Handler) (w w' : World) : Prop :=
  exists new,
    events w' = (events w ++ new)%list
    /\ deferred w' = deferred w
    /\ forall argv,
         In (EvStart argv None) new ->
         group w' = GroupTerminated
         /\ exists pre mid post,
              new = (pre ++ EvStart argv None :: mid
                         ++ EvCleanUpProcessGroup :: post
                         ++ [EvHandlerReturn h])%list.

(** The first error of a sequence of steps, [None] when all succeed. *)
Definition first_error (l : list error) : error :=
  fold_right (fun e rest => match e with Some x => Some x | None => rest end)
             None l.

(** The failures of [postRPC] before any output: the gzip reader, when
    the body is encoded, the standard input of the command, its start, and
    the copy of the body. *)
Definition pre_stream_error (v : Env) (gzipped : bool) : error :=
  first_error [ if gzipped then gzip_err v else None;
                stdin_pipe_err v; start_err v; copy_in_err v ].

(** The header of an error answer of [http.Error]. *)
Definition plain_text_header : list (string * list string) :=
  [("Content-Type", ["text/plain; charset=utf-8"]);
   ("X-Content-Type-Options", ["nosniff"])].

(** The header of a protocol answer of the given media type. *)
Definition protocol_header (media : string) : list (string * list string) :=
  [("Content-Type", [media]); ("Cache-Control", ["no-cache"])].


(** A handler either started its subprocess and cleaned its group up, or
    started nothing, signalled nothing and left the group state alone. *)
Definition started_or_untouched (w w' : World) : Prop :=
  exists new,
    events w' = (events w ++ new)%list
    /\ ((exists argv, In (EvStart argv None) new)
        /\ In EvCleanUpProcessGroup new
        \/ group w' = group w
           /\ ~ In EvCleanUpProcessGroup new
           /\ forall argv, ~ In (EvStart argv None) new).


(** The repositories of one namespace: its subdirectories whose name ends
    in [.git], as namespace/leaf pairs. *)
Definition git_leaves (ns : string) (subDirs : list DirEntry) : list string :=
  map (fun d => GoPath.Join [ns; Name d])
      (filter (fun d => IsDir d && GoStrings.HasSuffix (Name d) ".git") subDirs).

(** The listing in the words of the specification: the immediate
    subdirectories of the root and, within each, read from under the root,
    the subdirectories whose name ends in [.git]. *)
Fixpoint list_namespaces (f : FS) (c : list string) (root : string)
  (dirs : list DirEntry) : option (list string) :=
  match dirs with
  | [] => Some []
  | d :: rest =>
      if IsDir d then
        match read_dir f c (GoPath.Join [root; Name d]) with
        | inl subDirs =>
            option_map (app (git_leaves (Name d) subDirs))
                       (list_namespaces f c root rest)
        | inr _ => None
        end
      else list_namespaces f c root rest
  end.

Definition list_under_root (f : FS) (c : list string) (root : string)
  : option (list string) :=
  match read_dir f c root with
  | inl dirs => list_namespaces f c root dirs
  | inr _ => None
  end.

(** The repositories in the envelope of a listing response. *)
Definition listed (w : World) : option (list string) :=
  match rw_envelope (resp w) with
  | Some (mkKitResponse _ (KitListRepoResponse repos)) => Some repos
  | _ => None
  end.

(** An entry of the listing that [listRepo] collects from the entries
    [dirs] of the root: a directory of [dirs], read by its bare name, and
    one of its subdirectories whose name ends in [.git], joined. *)
Definition listing_entry (f : FS) (c : list string) (dirs : list DirEntry)
  (x : string) : Prop :=
  exists d e subDirs,
    In d dirs /\ IsDir d = true
    /\ read_dir f c (Name d) = inl subDirs
    /\ In e subDirs /\ IsDir e = true
    /\ GoStrings.HasSuffix (Name e) ".git" = true
    /\ x = GoPath.Join [Name d; Name e].


(** A path element holds no slash. *)
Fixpoint no_slash (s : string) : bool :=
  match s with
  | EmptyString => true
  | String c s' => negb (Ascii.eqb c GoStrings.slash) && no_slash s'
  end.

(** An element that names an entry, and an element that [path.Clean]
    may keep: a name or [..]. *)
Definition real_elem (e : string) : Prop := e <> "" /\ e <> "." /\ e <> "..".

Definition kept_elem (e : string) : Prop := e <> "" /\ e <> ".".

(** A well-formed file system: every element of the path of every entry
    is a name without slash. *)
Definition entry_name (e : string) : Prop := real_elem e /\ no_slash e = true.

Definition fs_wf (f : FS) : Prop :=
  Forall (fun e => Forall entry_name (fst e)) f.

(* ================================================================= *)
(** ** Instances of the functions the package is given *)

(** Modelled from the spec: [getNamespaceAndRepo], which is in another
    file of the package; the remainder of the path is parsed into a
    namespace prefix and a leaf name, the leaf being what follows the last
    slash. *)
Definition getNamespaceAndRepo_model (input : string) : string * string :=
  let input := if GoStrings.HasPrefix input "/"
               then GoStrings.string_drop 1 input else input in
  match rev (GoStrings.Split_slash input) with
  | [] => ("", "")
  | leaf :: ns => (GoStrings.Join_slash (rev ns), leaf)
  end.

(** Modelled from the spec: [subCommand], which is in another file of the
    package; the sub-command of the executable that serves a protocol RPC:
    [upload-pack] for [git-upload-pack], [receive-pack] for
    [git-receive-pack]. *)
Definition subCommand_model (rpc : string) : string :=
  if GoStrings.HasPrefix rpc "git-" then GoStrings.string_drop 4 rpc else rpc.

Module Base64.

Definition value (c : ascii) : option nat :=
  let n := nat_of_ascii c in
  if Nat.leb 65 n && Nat.leb n 90 then Some (n - 65)
  else if Nat.leb 97 n && Nat.leb n 122 then Some (n - 71)
  else if Nat.leb 48 n && Nat.leb n 57 then Some (n + 4)
  else if Nat.eqb n 43 then Some 62
  else if Nat.eqb n 47 then Some 63
  else None.

Definition is_pad (c : ascii) : bool := Ascii.eqb c "="%char.

(** The three bytes held by four 6-bit values. *)
Definition quantum (a b c d : nat) : list ascii :=
  [ascii_of_nat (a * 4 + b / 16);
   ascii_of_nat ((b mod 16) * 16 + c / 4);
   ascii_of_nat ((c mod 4) * 64 + d)].

(** Four characters give three bytes; padding may only end the input. *)
Fixpoint decode (l : list ascii) : option (list ascii) :=
  match l with
  | [] => Some []
  | a :: b :: c :: d :: rest =>
      match value a, value b with
      | Some va, Some vb =>
          match value c, value d, rest with
          | Some vc, Some vd, _ =>
              match decode rest with
              | Some bytes => Some (quantum va vb vc vd ++ bytes)%list
              | None => None
              end
          | Some vc, None, [] =>
              if is_pad d then Some (firstn 2 (quantum va vb vc 0)) else None
          | None, None, [] =>
              if is_pad c && is_pad d then Some (firstn 1 (quantum va vb 0 0))
              else None
          | _, _, _ => None
          end
      | _, _ => None
      end
  | _ => None
  end.

(** [base64.StdEncoding.DecodeString]: line breaks are skipped. *)
Definition DecodeString (s : string) : option string :=
  let chars := filter (fun c => negb (Ascii.eqb c (ascii_of_nat 10)
                                      || Ascii.eqb c (ascii_of_nat 13)))
                      (list_ascii_of_string s) in
  option_map string_of_list_ascii (decode chars).

End Base64.

Definition ascii_lower (c : ascii) : ascii :=
  let n := nat_of_ascii c in
  if Nat.leb 65 n && Nat.leb n 90 then ascii_of_nat (n + 32) else c.

Fixpoint string_lower (s : string) : string :=
  match s with
  | EmptyString => EmptyString
  | String c s' => String (ascii_lower c) (string_lower s')
  end.

(** [strings.Cut(s, ":")] *)
Fixpoint Cut_colon (s : string) : option (string * string) :=
  match s with
  | EmptyString => None
  | String c s' =>
      if Ascii.eqb c ":"%char then Some (EmptyString, s')
      else match Cut_colon s' with
           | Some (before, after) => Some (String c before, after)
           | None => None
           end
  end.

(** [parseBasicAuth] of [net/http]: the scheme [Basic], matched without
    regard to case, a space, and the base64 of [user:password]. *)
Definition http_parseBasicAuth (auth : string) : option (string * string) :=
  if Nat.ltb (String.length auth) 6
     || negb (String.eqb (string_lower (String.substring 0 6 auth)) "basic ")
  then None
  else match Base64.DecodeString (GoStrings.string_drop 6 auth) with
       | None => None
       | Some cs => Cut_colon cs
       end.

(* ================================================================= *)
(** ** Example data *)

(** An environment in which nothing fails; the subprocess prints one
    flush marker. *)
Definition env_ok : Env :=
  mkEnv None None None (fun b => b) None None None "0000" None None None None None.

Definition with_start_err (e : error) (v : Env) : Env :=
  mkEnv e (stdin_pipe_err v) (gzip_err v) (gunzip v) (copy_in_err v)
    (packLine_err v) (packFlush_err v) (proc_stdout v) (copy_out_err v)
    (wait_err v) (git_init_err v) (hooks_err v) (removeAll_err v).

Definition with_git_init_err (e : error) (v : Env) : Env :=
  mkEnv (start_err v) (stdin_pipe_err v) (gzip_err v) (gunzip v) (copy_in_err v)
    (packLine_err v) (packFlush_err v) (proc_stdout v) (copy_out_err v)
    (wait_err v) e (hooks_err v) (removeAll_err v).

Definition with_hooks_err (e : error) (v : Env) : Env :=
  mkEnv (start_err v) (stdin_pipe_err v) (gzip_err v) (gunzip v) (copy_in_err v)
    (packLine_err v) (packFlush_err v) (proc_stdout v) (copy_out_err v)
    (wait_err v) (git_init_err v) e (removeAll_err v).

Definition with_copy_out_err (e : option (nat * string)) (v : Env) : Env :=
  mkEnv (start_err v) (stdin_pipe_err v) (gzip_err v) (gunzip v) (copy_in_err v)
    (packLine_err v) (packFlush_err v) (proc_stdout v) e
    (wait_err v) (git_init_err v) (hooks_err v) (removeAll_err v).

(** A root directory [/srv/git] with one namespace [team] holding the
    repository [app.git] and a plain directory [notes]. *)
Definition fs_example : FS :=
  [ (["srv"], KDir);
    (["srv"; "git"], KDir);
    (["srv"; "git"; "team"], KDir);
    (["srv"; "git"; "team"; "app.git"], KDir);
    (["srv"; "git"; "team"; "app.git"; "objects"], KDir);
    (["srv"; "git"; "team"; "notes"], KDir);
    (["srv"; "git"; "README"], KFile) ].

(** The same, with a directory [/team] outside the root that holds a
    directory [ghost.git]. *)
Definition fs_outside : FS :=
  (fs_example ++ [ (["team"], KDir); (["team"; "ghost.git"], KDir) ])%list.

Definition cfg_example (auth autoCreate : bool) : Config :=
  mkConfig "/srv/git" "" auth autoCreate false None.

Definition deny_all : Credential -> Request -> bool * error :=
  fun _ _ => (false, None).

Definition allow_all : Credential -> Request -> bool * error :=
  fun _ _ => (true, None).

Definition failing_backend : Credential -> Request -> bool * error :=
  fun _ _ => (true, Some "backend down").

Definition server_example (auth autoCreate : bool)
  (authFunc : option (Credential -> Request -> bool * error)) : Server :=
  mkServer (config (New (cfg_example auth autoCreate))) default_services
    authFunc (Some (fun repos _ => repos)).

(** A request for [path] on the host [localhost], with request URI
    [uri]. *)
Definition request_example (meth path uri : string)
  (query header : list (string * string)) : http_Request :=
  mkHttpRequest meth "localhost" (mkURL path query uri) uri header "".

Definition svc_info_refs : service := mkService "GET" "/info/refs" h_getInfoRefs "".

Definition svc_create : service := mkService "POST" "/repo" h_createRepo "".

(** [GET /team/app.git/info/refs?service=git-upload-pack] *)
Definition get_info_refs (repo : string) (header : list (string * string))
  : http_Request :=
  request_example "GET" (repo ++ "/info/refs")
    (repo ++ "/info/refs?service=git-upload-pack")
    [("service", "git-upload-pack")] header.

(** [POST /team/new.git/repo] *)
Definition post_repo (repo : string) : http_Request :=
  request_example "POST" (repo ++ "/repo") (repo ++ "/repo") [] [].

(** The credentials [user:pass] in the basic scheme, and a bearer token. *)
Definition basic_header : list (string * string) :=
  [("Authorization", "Basic dXNlcjpwYXNz")].

Definition bearer_header : list (string * string) :=
  [("Authorization", "Bearer abc")].

(** The request context of [team/app.git] and of [team/new.git]. *)
Definition context_of (r : http_Request) (name : string) : Request :=
  mkRequest r name ("/srv/git/" ++ name).

Definition svc_delete : service := mkService "DELETE" "/repo" h_deleteRepo "".

(** [DELETE /team/app.git/repo] *)
Definition delete_repo (repo : string) : http_Request :=
  request_example "DELETE" (repo ++ "/repo") (repo ++ "/repo") [] [].

(** [PUT /team/app.git/repo], a method the service table does not know. *)
Definition put_repo (repo : string) : http_Request :=
  request_example "PUT" (repo ++ "/repo") (repo ++ "/repo") [] [].

(** A server as [New] leaves it: no capability and no filter installed. *)
Definition server_bare (auth autoCreate : bool) : Server :=
  New (cfg_example auth autoCreate).


(** [POST /team/new.git/repo?x=1]: a create request with a query. *)
Definition post_repo_query (repo : string) : http_Request :=
  request_example "POST" (repo ++ "/repo") (repo ++ "/repo?x=1") [("x", "1")] [].

(** [GET /repos?x=1]: a listing request with a query. *)
Definition get_repos_query : http_Request :=
  request_example "GET" "/repos" "/repos?x=1" [("x", "1")] [].

(** [GET /team/new.git/info/refs?service=git-upload-pack&x=/repos]: an
    info/refs request whose query ends in [/repos]. *)
Definition get_info_refs_tail (repo : string) : http_Request :=
  request_example "GET" (repo ++ "/info/refs")
    (repo ++ "/info/refs?service=git-upload-pack&x=/repos")
    [("service", "git-upload-pack"); ("x", "/repos")] [].

(** [POST /team/new.git/git-upload-pack?x=/repo]: a stateless-RPC request
    whose query ends in [/repo]. *)
Definition post_rpc_tail (repo : string) : http_Request :=
  request_example "POST" (repo ++ "/git-upload-pack")
    (repo ++ "/git-upload-pack?x=/repo") [("x", "/repo")] [].

(** The connection to the client breaks after two bytes of the output of
    the subprocess. *)
Definition env_disconnect : Env :=
  with_copy_out_err (Some (2, "write: broken pipe")) env_ok.

(** [git init] exits with an error. *)
Definition env_init_fails : Env :=
  with_git_init_err (Some "exit status 128") env_ok.

(* ================================================================= *)
(** ** Path names and the file system *)

Import GoStrings GoPath.

(** *** Splitting and joining at slashes *)

Lemma append_nil_r (s : string) : s ++ "" = s.
Proof. induction s as [|c s IH]; cbn; [reflexivity | rewrite IH; reflexivity]. Qed.

Lemma append_assoc (a b c : string) : (a ++ b) ++ c = a ++ (b ++ c).
Proof. induction a as [|x a IH]; cbn; [reflexivity | rewrite IH; reflexivity]. Qed.

Lemma Split_slash_nonempty (s : string) : Split_slash s <> [].
Proof.
  destruct s as [|c s]; cbn; [discriminate|].
  destruct (Ascii.eqb c slash); [discriminate|].
  destruct (Split_slash s); discriminate.
Qed.

Lemma Split_slash_app (a b : string) :
  Split_slash (a ++ String slash b) = (Split_slash a ++ Split_slash b)%list.
Proof.
  induction a as [|c a IH]; cbn.
  - reflexivity.
  - destruct (Ascii.eqb c slash).
    + rewrite IH. reflexivity.
    + rewrite IH. pose proof (Split_slash_nonempty a) as Hne.
      destruct (Split_slash a) as [|x xs]; [contradiction | reflexivity].
Qed.

Lemma Split_slash_no_slash (s : string) :
  no_slash s = true -> Split_slash s = [s].
Proof.
  induction s as [|c s IH]; cbn; [reflexivity|].
  destruct (Ascii.eqb c slash); cbn; [discriminate|].
  intros H. rewrite (IH H). reflexivity.
Qed.

Lemma Split_slash_elems (s : string) :
  Forall (fun e => no_slash e = true) (Split_slash s).
Proof.
  induction s as [|c s IH]; cbn.
  - constructor; [reflexivity | constructor].
  - destruct (Ascii.eqb c slash) eqn:Hc.
    + constructor; [reflexivity | exact IH].
    + destruct (Split_slash s) as [|x xs]; inversion IH; subst.
      * constructor; [cbn; rewrite Hc; reflexivity | constructor].
      * constructor; [cbn; rewrite Hc; cbn; assumption | assumption].
Qed.

Lemma Split_slash_Join_slash (l : list string) :
  l <> [] -> Forall (fun e => no_slash e = true) l ->
  Split_slash (Join_slash l) = l.
Proof.
  induction l as [|x l IH]; [contradiction|].
  intros _ Hall. inversion Hall as [|? ? Hx Hl]; subst.
  destruct l as [|y l].
  - cbn. apply Split_slash_no_slash. exact Hx.
  - change (Join_slash (x :: y :: l)) with (x ++ String slash (Join_slash (y :: l))).
    rewrite Split_slash_app, (Split_slash_no_slash x Hx), IH; [reflexivity | discriminate | exact Hl].
Qed.

(** *** clean_step *)

Lemma clean_step_skip (r : bool) (out : list string) (c : string) :
  c = "" \/ c = "." -> clean_step r out c = out.
Proof. intros [-> | ->]; reflexivity. Qed.

Lemma clean_step_real (r : bool) (out : list string) (c : string) :
  real_elem c -> clean_step r out c = c :: out.
Proof.
  intros (H1 & H2 & H3). unfold clean_step.
  destruct (String.eqb_spec c ""); [contradiction|].
  destruct (String.eqb_spec c "."); [contradiction|].
  destruct (String.eqb_spec c ".."); [contradiction|]. reflexivity.
Qed.

Lemma elem_cases (c : string) :
  (c = "" \/ c = ".") \/ c = ".." \/ real_elem c.
Proof.
  destruct (String.eqb_spec c ""); [left; left; assumption|].
  destruct (String.eqb_spec c "."); [left; right; assumption|].
  destruct (String.eqb_spec c ".."); [right; left; assumption|].
  right; right. repeat split; assumption.
Qed.

Lemma clean_step_kept (r : bool) (out : list string) (c : string) :
  Forall kept_elem out -> Forall kept_elem (clean_step r out c).
Proof.
  intros Hout.
  destruct (elem_cases c) as [Hs | [-> | Hr]].
  - rewrite clean_step_skip by exact Hs. exact Hout.
  - cbn. destruct out as [|top rest].
    + destruct r; [constructor|]. constructor; [split; discriminate | constructor].
    + inversion Hout; subst. destruct (String.eqb top "..").
      * constructor; [split; discriminate | exact Hout].
      * assumption.
  - rewrite clean_step_real by exact Hr. constructor; [|exact Hout].
    destruct Hr as (H1 & H2 & _). split; assumption.
Qed.

Lemma clean_elems_kept (r : bool) (cs out : list string) :
  Forall kept_elem out -> Forall kept_elem (clean_elems r cs out).
Proof.
  revert out. induction cs as [|c cs IH]; intros out Hout; cbn; [exact Hout|].
  apply IH. apply clean_step_kept. exact Hout.
Qed.

Lemma clean_step_no_slash (r : bool) (out : list string) (c : string) :
  no_slash c = true ->
  Forall (fun e => no_slash e = true) out ->
  Forall (fun e => no_slash e = true) (clean_step r out c).
Proof.
  intros Hc Hout. unfold clean_step.
  destruct (String.eqb c "" || String.eqb c "."); [exact Hout|].
  destruct (String.eqb c "..").
  - destruct out as [|top rest].
    + destruct r; [constructor | constructor; [exact Hc | constructor]].
    + inversion Hout; subst. destruct (String.eqb top "..");
        [constructor; assumption | assumption].
  - constructor; assumption.
Qed.

Lemma clean_elems_no_slash (r : bool) (cs out : list string) :
  Forall (fun e => no_slash e = true) cs ->
  Forall (fun e => no_slash e = true) out ->
  Forall (fun e => no_slash e = true) (clean_elems r cs out).
Proof.
  revert out. induction cs as [|c cs IH]; intros out Hcs Hout; cbn; [exact Hout|].
  inversion Hcs; subst. apply IH; [assumption|].
  apply clean_step_no_slash; assumption.
Qed.

(** In a rooted path no [..] is ever kept. *)
Lemma clean_step_rooted_real (out : list string) (c : string) :
  Forall real_elem out -> Forall real_elem (clean_step true out c).
Proof.
  intros Hout.
  destruct (elem_cases c) as [Hs | [-> | Hr]].
  - rewrite clean_step_skip by exact Hs. exact Hout.
  - cbn. destruct out as [|top rest]; [constructor|].
    inversion Hout as [|? ? Htop Hrest]; subst.
    destruct (String.eqb_spec top "..") as [->|_].
    + destruct Htop as (_ & _ & H). contradiction.
    + exact Hrest.
  - rewrite clean_step_real by exact Hr. constructor; assumption.
Qed.

Lemma clean_elems_rooted_real (cs out : list string) :
  Forall real_elem out -> Forall real_elem (clean_elems true cs out).
Proof.
  revert out. induction cs as [|c cs IH]; intros out Hout; cbn; [exact Hout|].
  apply IH. apply clean_step_rooted_real. exact Hout.
Qed.

Lemma clean_elems_app (r : bool) (a b out : list string) :
  clean_elems r (a ++ b) out = clean_elems r b (clean_elems r a out).
Proof. unfold clean_elems. apply fold_left_app. Qed.

Lemma clean_elems_real (r : bool) (l out : list string) :
  Forall real_elem l -> clean_elems r l out = (rev l ++ out)%list.
Proof.
  unfold clean_elems.
  revert out. induction l as [|x l IH]; intros out Hl; cbn [fold_left rev app];
    [reflexivity|].
  inversion Hl; subst. rewrite clean_step_real by assumption.
  rewrite IH by assumption. rewrite <- app_assoc. reflexivity.
Qed.

(** Cleaning the elements of a path that is already clean gives the same
    stack as cleaning the original elements, whatever was on the stack. *)
Lemma clean_elems_normal (r : bool) (cs out : list string) :
  clean_elems r (rev (clean_elems false cs [])) out = clean_elems r cs out.
Proof.
  induction cs as [|c cs IH] using rev_ind; [reflexivity|].
  rewrite !clean_elems_app. rewrite <- IH.
  pose proof (clean_elems_kept false cs [] (Forall_nil _)) as Hkept.
  set (N := clean_elems false cs []) in *.
  change (clean_elems false [c] N) with (clean_step false N c).
  change (clean_elems r [c] (clean_elems r (rev N) out))
    with (clean_step r (clean_elems r (rev N) out) c).
  destruct (elem_cases c) as [Hs | [-> | Hr]].
  - rewrite !clean_step_skip by exact Hs. reflexivity.
  - destruct N as [|top rest]; [reflexivity|].
    change (clean_step false (top :: rest) "..")
      with (if String.eqb top ".." then ".." :: top :: rest else rest).
    destruct (String.eqb_spec top "..") as [->|Hne].
    + cbn [rev]. rewrite (clean_elems_app r _ [".."]). reflexivity.
    + cbn [rev]. rewrite clean_elems_app.
      change (clean_elems r [top] (clean_elems r (rev rest) out))
        with (clean_step r (clean_elems r (rev rest) out) top).
      inversion Hkept as [|? ? (H1 & H2) _]; subst.
      rewrite (clean_step_real r _ top) by (repeat split; assumption).
      change (clean_step r (top :: clean_elems r (rev rest) out) "..")
        with (if String.eqb top ".." then ".." :: top :: clean_elems r (rev rest) out
              else clean_elems r (rev rest) out).
      destruct (String.eqb_spec top ".."); [contradiction | reflexivity].
  - rewrite (clean_step_real false) by exact Hr. cbn [rev].
    rewrite clean_elems_app. reflexivity.
Qed.

(** *** Rooted paths *)

Lemma HasPrefix_slash_cons (c : ascii) (s : string) :
  HasPrefix (String c s) "/" = Ascii.eqb c slash.
Proof.
  unfold HasPrefix. cbn [String.prefix].
  destruct (ascii_dec "/" c) as [<- | Hne].
  - destruct s; reflexivity.
  - symmetry. apply Ascii.eqb_neq. intros ->. apply Hne. reflexivity.
Qed.

Lemma HasPrefix_slash_app (p q : string) :
  p <> "" -> HasPrefix (p ++ q) "/" = HasPrefix p "/".
Proof.
  destruct p as [|c p]; [contradiction|]. intros _.
  cbn [append]. rewrite !HasPrefix_slash_cons. reflexivity.
Qed.

Lemma kept_not_rooted (e rest : string) :
  e <> "" -> no_slash e = true -> HasPrefix (e ++ rest) "/" = false.
Proof.
  intros Hne Hns. rewrite HasPrefix_slash_app by exact Hne.
  destruct e as [|c e]; [contradiction|].
  rewrite HasPrefix_slash_cons. cbn in Hns.
  destruct (Ascii.eqb c slash); [discriminate | reflexivity].
Qed.

Lemma Join_slash_not_rooted (l : list string) :
  Forall kept_elem l -> Forall (fun e => no_slash e = true) l ->
  HasPrefix (Join_slash l) "/" = false.
Proof.
  intros Hk Hn. destruct l as [|e l]; [reflexivity|].
  inversion Hk as [|? ? (He & _) _]; inversion Hn; subst.
  destruct l as [|y l].
  - cbn. rewrite <- (append_nil_r e). apply kept_not_rooted; assumption.
  - change (Join_slash (e :: y :: l)) with (e ++ String slash (Join_slash (y :: l))).
    apply kept_not_rooted; assumption.
Qed.

Lemma Join_slash_not_empty (l : list string) :
  l <> [] -> Forall kept_elem l -> Join_slash l <> "".
Proof.
  destruct l as [|e l]; [contradiction|]. intros _ Hk.
  inversion Hk as [|? ? (He & _) _]; subst.
  destruct l as [|y l]; [exact He|].
  change (Join_slash (e :: y :: l)) with (e ++ String slash (Join_slash (y :: l))).
  destruct e; [contradiction | discriminate].
Qed.

Lemma rev_not_nil {A} (l : list A) : l <> [] -> rev l <> [].
Proof.
  destruct l as [|x l]; [contradiction|]. intros _ H.
  apply (f_equal (@List.length A)) in H. cbn in H. rewrite length_app in H.
  cbn in H. lia.
Qed.

Lemma Clean_not_empty (p : string) : Clean p <> "".
Proof.
  unfold Clean. destruct (String.eqb p ""); [discriminate|].
  destruct (HasPrefix p "/"); [discriminate|].
  pose proof (clean_elems_kept false (Split_slash p) [] (Forall_nil _)) as Hk.
  destruct (rev (clean_elems false (Split_slash p) [])) as [|e l] eqn:Hr;
    [discriminate|].
  apply Join_slash_not_empty; [discriminate|].
  rewrite <- Hr. apply Forall_rev. exact Hk.
Qed.

Lemma clean_elems_empty_elem (r : bool) (l out : list string) :
  clean_elems r ("" :: l) out = clean_elems r l out.
Proof. reflexivity. Qed.

(** *** Resolution of cleaned paths *)

(** [path.Clean] does not change what a path name resolves to. *)
Lemma resolve_Clean (c : list string) (p : string) :
  p <> "" -> resolve c (Clean p) = resolve c p.
Proof.
  intros Hp. unfold resolve.
  destruct (String.eqb_spec (Clean p) "") as [He|_];
    [exfalso; exact (Clean_not_empty p He)|].
  destruct (String.eqb_spec p "") as [He|_]; [contradiction|].
  f_equal. f_equal. unfold Clean.
  destruct (String.eqb_spec p "") as [He|_]; [contradiction|].
  pose proof (Split_slash_elems p) as Hns.
  destruct (HasPrefix p "/") eqn:Hrooted.
  - set (N := clean_elems true (Split_slash p) []).
    assert (Hreal : Forall real_elem N)
      by (apply clean_elems_rooted_real; constructor).
    assert (Hslash : Forall (fun e => no_slash e = true) N)
      by (apply clean_elems_no_slash; [exact Hns | constructor]).
    rewrite HasPrefix_slash_cons. change (Ascii.eqb slash slash) with true.
    change (Split_slash (String slash (Join_slash (rev N))))
      with ("" :: Split_slash (Join_slash (rev N))).
    rewrite clean_elems_empty_elem.
    destruct N as [|top rest] eqn:HN; [reflexivity|].
    rewrite Split_slash_Join_slash;
      [ | apply rev_not_nil; discriminate | apply Forall_rev; exact Hslash ].
    rewrite clean_elems_real by (apply Forall_rev; exact Hreal).
    rewrite rev_involutive, app_nil_r. reflexivity.
  - set (N := clean_elems false (Split_slash p) []).
    assert (Hkept : Forall kept_elem N)
      by (apply clean_elems_kept; constructor).
    assert (Hslash : Forall (fun e => no_slash e = true) N)
      by (apply clean_elems_no_slash; [exact Hns | constructor]).
    rewrite <- (clean_elems_normal true (Split_slash p) (rev c)). fold N.
    destruct (rev N) as [|e l] eqn:Hr.
    + reflexivity.
    + rewrite <- Hr.
      rewrite Join_slash_not_rooted by (apply Forall_rev; assumption).
      rewrite Split_slash_Join_slash;
        [ reflexivity | rewrite Hr; discriminate | apply Forall_rev; exact Hslash ].
Qed.

(** A child of a directory: the name [p/name] resolves below what [p]
    resolves to. *)
Lemma resolve_child (c : list string) (p name : string) (q : list string) :
  p <> "" -> real_elem name -> no_slash name = true ->
  resolve c p = Some q ->
  resolve c (p ++ String slash name) = Some (q ++ [name])%list.
Proof.
  intros Hp Hreal Hns. unfold resolve.
  destruct (String.eqb_spec p "") as [He|_]; [contradiction|].
  destruct (String.eqb_spec (p ++ String slash name) "") as [He|_].
  { destruct p; [contradiction | discriminate]. }
  intros [= <-]. f_equal.
  rewrite HasPrefix_slash_app by exact Hp.
  rewrite Split_slash_app, clean_elems_app, (Split_slash_no_slash name Hns).
  change (clean_elems true [name] ?x) with (clean_step true x name).
  rewrite clean_step_real by exact Hreal. reflexivity.
Qed.

Lemma resolve_Join_child (c : list string) (p name : string) (q : list string) :
  p <> "" -> real_elem name -> no_slash name = true ->
  resolve c p = Some q ->
  resolve c (Join [p; name]) = Some (q ++ [name])%list.
Proof.
  intros Hp Hreal Hns Hq. unfold Join.
  destruct (String.eqb_spec p "") as [He|_]; [contradiction|].
  change (Join_slash [p; name]) with (p ++ String slash name).
  rewrite resolve_Clean by (destruct p; [contradiction | discriminate]).
  apply resolve_child; assumption.
Qed.

Lemma resolve_some (c : list string) (p : string) :
  p <> "" -> exists q, resolve c p = Some q.
Proof.
  intros Hp. unfold resolve.
  destruct (String.eqb_spec p "") as [He|_]; [contradiction|]. eexists. reflexivity.
Qed.

(** *** Suffixes *)

Lemma string_drop_nil (n : nat) : string_drop n "" = "".
Proof. destruct n; reflexivity. Qed.

Lemma string_drop_drop (m n : nat) (s : string) :
  string_drop m (string_drop n s) = string_drop (n + m) s.
Proof.
  revert s. induction n as [|n IH]; intros s; [reflexivity|].
  destruct s as [|c s]; [cbn; apply string_drop_nil|].
  cbn. apply IH.
Qed.

Lemma HasSuffix_spec (s suf : string) :
  HasSuffix s suf = true <->
  String.length suf <= String.length s
  /\ string_drop (String.length s - String.length suf) s = suf.
Proof.
  unfold HasSuffix. rewrite andb_true_iff, Nat.leb_le, String.eqb_eq. tauto.
Qed.

(** Of two suffixes of a string, the shorter is a suffix of the longer. *)
Lemma HasSuffix_chain (s a b : string) :
  HasSuffix s a = true -> HasSuffix s b = true ->
  String.length a <= String.length b ->
  HasSuffix b a = true.
Proof.
  rewrite !HasSuffix_spec. intros (Ha & Hda) (Hb & Hdb) Hab.
  split; [exact Hab|].
  assert (E : string_drop (String.length b - String.length a)
                (string_drop (String.length s - String.length b) s)
              = string_drop (String.length s - String.length a) s)
    by (rewrite string_drop_drop; f_equal; lia).
  rewrite Hdb, Hda in E. exact E.
Qed.

Lemma string_drop_length (s : string) : string_drop (String.length s) s = "".
Proof. induction s as [|c s IH]; [reflexivity | exact IH]. Qed.

Lemma prefix_refl (s : string) : String.prefix s s = true.
Proof.
  induction s as [|c s IH]; [reflexivity|].
  cbn. destruct (ascii_dec c c); [exact IH | contradiction].
Qed.

Lemma length_append (a b : string) :
  String.length (a ++ b) = String.length a + String.length b.
Proof. induction a as [|c a IH]; cbn; [reflexivity | rewrite IH; reflexivity]. Qed.

Lemma string_drop_app (a b : string) : string_drop (String.length a) (a ++ b) = b.
Proof. induction a as [|c a IH]; [reflexivity | exact IH]. Qed.

Lemma substring_app (a b : string) : String.substring 0 (String.length a) (a ++ b) = a.
Proof. induction a as [|c a IH]; cbn; [destruct b; reflexivity | rewrite IH; reflexivity]. Qed.

Lemma TrimSuffix_app (pre suf : string) : TrimSuffix (pre ++ suf) suf = pre.
Proof.
  unfold TrimSuffix.
  assert (H : HasSuffix (pre ++ suf) suf = true).
  { apply HasSuffix_spec. rewrite length_append. split; [lia|].
    replace (String.length pre + String.length suf - String.length suf)
      with (String.length pre) by lia.
    apply string_drop_app. }
  rewrite H, length_append.
  replace (String.length pre + String.length suf - String.length suf)
    with (String.length pre) by lia.
  apply substring_app.
Qed.

(** [Replace1] removes the trailing occurrence of the suffix exactly when
    the suffix does not occur earlier in the path. *)
Lemma Replace1_trailing (pre suf : string) :
  (forall k, k < String.length pre ->
             String.prefix suf (string_drop k (pre ++ suf)) = false) ->
  Replace1 (pre ++ suf) suf "" = TrimSuffix (pre ++ suf) suf.
Proof.
  rewrite TrimSuffix_app.
  induction pre as [|c pre IH]; intros Hocc.
  - cbn [append]. destruct suf as [|d suf]; [reflexivity|].
    unfold Replace1. rewrite prefix_refl.
    cbn [append]. apply string_drop_length.
  - cbn [append]. 
    assert (H0 : String.prefix suf (String c (pre ++ suf)) = false)
      by (apply (Hocc 0); cbn; lia).
    unfold Replace1; fold Replace1. rewrite H0. f_equal. apply IH.
    intros k Hk. apply (Hocc (S k)). cbn. lia.
Qed.

(** *** Routes of the service table *)

Lemma not_both_suffixes (p a b : string) :
  HasSuffix p a = true -> String.length a <= String.length b ->
  HasSuffix b a = false -> HasSuffix p b = false.
Proof.
  intros Ha Hlen Hba. destruct (HasSuffix p b) eqn:Hb; [|reflexivity].
  rewrite (HasSuffix_chain p a b Ha Hb Hlen) in Hba. discriminate.
Qed.

(** With the service table of [New], a POST whose path ends in [/repo]
    is routed to [createRepo] and a GET whose path ends in [/repos] to
    [listRepo]. *)
Lemma default_route_create (s : Server) (r : http_Request) :
  services s = default_services ->
  Method r = "POST" ->
  HasSuffix (Path (Url r)) "/repo" = true ->
  findService s r
  = Some (mkService "POST" "/repo" h_createRepo "",
          Replace1 (Path (Url r)) "/repo" "").
Proof.
  intros Hs Hm Hp. unfold findService. rewrite Hs.
  unfold default_services, findService_loop. cbn [method suffix].
  rewrite Hm, Hp.
  rewrite (not_both_suffixes _ "/repo" "/git-upload-pack" Hp);
    [ | cbn; lia | reflexivity ].
  rewrite (not_both_suffixes _ "/repo" "/git-receive-pack" Hp);
    [ | cbn; lia | reflexivity ].
  reflexivity.
Qed.

Lemma default_route_list (s : Server) (r : http_Request) :
  services s = default_services ->
  Method r = "GET" ->
  HasSuffix (Path (Url r)) "/repos" = true ->
  findService s r
  = Some (mkService "GET" "/repos" h_listRepo "",
          Replace1 (Path (Url r)) "/repos" "").
Proof.
  intros Hs Hm Hp. unfold findService. rewrite Hs.
  unfold default_services, findService_loop. cbn [method suffix].
  rewrite Hm, Hp.
  rewrite (not_both_suffixes _ "/repos" "/info/refs" Hp);
    [ | cbn; lia | reflexivity ].
  reflexivity.
Qed.

Lemma not_shorter_suffix (p a b : string) :
  HasSuffix p b = true -> String.length a <= String.length b ->
  HasSuffix b a = false -> HasSuffix p a = false.
Proof.
  intros Hb Hlen Hba. destruct (HasSuffix p a) eqn:Ha; [|reflexivity].
  rewrite (HasSuffix_chain p a b Ha Hb Hlen) in Hba. discriminate.
Qed.

(** X1: with the service table of [New], routing is unambiguous: a
    request that matches a service of the table, by method and by suffix
    of its path, is routed to that service, so no other service of the
    table matches it before. *)
Theorem default_route_unique (s : Server) (r : http_Request) (svc : service) :
  services s = default_services ->
  In svc default_services ->
  method svc = Method r ->
  HasSuffix (Path (Url r)) (suffix svc) = true ->
  findService s r = Some (svc, Replace1 (Path (Url r)) (suffix svc) "").
Proof.
  intros Hs Hin Hm Hp. unfold findService. rewrite Hs.
  unfold default_services in *. cbn [In] in Hin.
  destruct Hin as [<- | [<- | [<- | [<- | [<- | [<- | []]]]]]];
    cbn [method suffix] in Hm, Hp; unfold findService_loop; cbn [method suffix];
    rewrite <- Hm; cbn [String.eqb Ascii.eqb Bool.eqb andb]; rewrite ?Hp;
    try reflexivity.
  - rewrite (not_shorter_suffix _ "/git-upload-pack" "/git-receive-pack" Hp);
      [ reflexivity | cbn; lia | reflexivity ].
  - rewrite (not_both_suffixes _ "/repos" "/info/refs" Hp);
      [ reflexivity | cbn; lia | reflexivity ].
  - rewrite (not_both_suffixes _ "/repo" "/git-upload-pack" Hp);
      [ | cbn; lia | reflexivity ].
    rewrite (not_both_suffixes _ "/repo" "/git-receive-pack" Hp);
      [ reflexivity | cbn; lia | reflexivity ].
Qed.

(** *** What [findService] leaves of the path *)

Lemma prefix_length (a s : string) :
  String.prefix a s = true -> String.length a <= String.length s.
Proof.
  revert s. induction a as [|c a IH]; intros s; [cbn; lia|].
  destruct s as [|d s]; cbn [String.prefix]; [discriminate|].
  destruct (ascii_dec c d); [|discriminate].
  intros H. apply IH in H. cbn. lia.
Qed.

Lemma string_drop_length_minus (n : nat) (s : string) :
  String.length (string_drop n s) = String.length s - n.
Proof.
  revert s. induction n as [|n IH]; intros s; [cbn; lia|].
  destruct s as [|c s]; [reflexivity|]. cbn. apply IH.
Qed.

(** Removing the leftmost occurrence shortens the string by the length of
    what is removed, when it occurs at all. *)
Lemma Replace1_length (s old : string) (k : nat) :
  String.prefix old (string_drop k s) = true ->
  String.length (Replace1 s old "") + String.length old = String.length s.
Proof.
  revert k. induction s as [|c s IH]; intros k Hocc.
  - rewrite string_drop_nil in Hocc. unfold Replace1. rewrite Hocc.
    apply prefix_length in Hocc. cbn [append]. rewrite string_drop_nil.
    cbn [String.length] in *. lia.
  - unfold Replace1; fold Replace1.
    destruct (String.prefix old (String c s)) eqn:Hhere.
    + apply prefix_length in Hhere. cbn [append].
      rewrite string_drop_length_minus. lia.
    + destruct k as [|k]; [cbn [string_drop] in Hocc; congruence|].
      cbn [string_drop] in Hocc. cbn [String.length]. rewrite <- (IH k Hocc). lia.
Qed.

Lemma substring_drop (n : nat) (s : string) :
  s = String.substring 0 n s ++ string_drop n s.
Proof.
  revert n. induction s as [|c s IH]; intros n.
  - destruct n; reflexivity.
  - destruct n as [|n]; [reflexivity|]. cbn. f_equal. apply IH.
Qed.

Lemma HasSuffix_split (s suf : string) :
  HasSuffix s suf = true ->
  s = String.substring 0 (String.length s - String.length suf) s ++ suf.
Proof.
  rewrite HasSuffix_spec. intros (Hlen & Hdrop).
  pose proof (substring_drop (String.length s - String.length suf) s) as H.
  rewrite Hdrop in H. exact H.
Qed.

Lemma findService_loop_some (svcs : list service) (r : http_Request)
  (svc : service) (p : string) :
  findService_loop svcs r = Some (svc, p) ->
  In svc svcs
  /\ method svc = Method r
  /\ HasSuffix (Path (Url r)) (suffix svc) = true
  /\ p = Replace1 (Path (Url r)) (suffix svc) "".
Proof.
  induction svcs as [|x svcs IH]; cbn [findService_loop]; [discriminate|].
  destruct (String.eqb_spec (method x) (Method r)) as [Hm|Hm]; cbn [andb].
  - destruct (HasSuffix (Path (Url r)) (suffix x)) eqn:Hs.
    + intros [= <- <-]. repeat split; try assumption. left; reflexivity.
    + intros H. destruct (IH H) as (Hin & Hrest). split; [right; exact Hin | exact Hrest].
  - intros H. destruct (IH H) as (Hin & Hrest). split; [right; exact Hin | exact Hrest].
Qed.

(** X2: whatever the service table, a request that [findService] routes
    matches the returned service by method and by suffix of its path, and
    the remainder is the path shortened by exactly the length of the
    suffix: one occurrence of the suffix is removed, never more, never
    less. *)
Theorem findService_remainder_length (s : Server) (r : http_Request)
  (svc : service) (p : string) :
  findService s r = Some (svc, p) ->
  In svc (services s)
  /\ method svc = Method r
  /\ HasSuffix (Path (Url r)) (suffix svc) = true
  /\ String.length p + String.length (suffix svc) = String.length (Path (Url r)).
Proof.
  intros Hf. apply findService_loop_some in Hf.
  destruct Hf as (Hin & Hm & Hs & ->). repeat split; try assumption.
  apply (Replace1_length _ _
           (String.length (Path (Url r)) - String.length (suffix svc))).
  apply HasSuffix_spec in Hs. destruct Hs as (_ & ->). apply prefix_refl.
Qed.

(** X3: when the suffix of the matched service occurs in the path only
    at its end, the remainder returned by [findService] is the path
    without that suffix: the remainder followed by the suffix is the
    path. *)
Theorem findService_remainder_exact (s : Server) (r : http_Request)
  (svc : service) (p : string) :
  findService s r = Some (svc, p) ->
  (forall k, k < String.length (Path (Url r)) - String.length (suffix svc) ->
             String.prefix (suffix svc) (string_drop k (Path (Url r))) = false) ->
  p ++ suffix svc = Path (Url r)
  /\ p = TrimSuffix (Path (Url r)) (suffix svc).
Proof.
  intros Hf Honce. apply findService_loop_some in Hf.
  destruct Hf as (_ & _ & Hs & ->).
  pose proof (HasSuffix_split _ _ Hs) as Hsplit.
  set (pre := String.substring 0
                (String.length (Path (Url r)) - String.length (suffix svc))
                (Path (Url r))) in *.
  assert (Hlen : String.length pre
                 = String.length (Path (Url r)) - String.length (suffix svc)).
  { apply HasSuffix_spec in Hs. destruct Hs as (Hle & _).
    apply (f_equal String.length) in Hsplit. rewrite length_append in Hsplit. lia. }
  rewrite <- Hlen in Honce. rewrite Hsplit in Honce |- *.
  rewrite (Replace1_trailing pre (suffix svc) Honce), TrimSuffix_app.
  split; reflexivity.
Qed.


Lemma findService_loop_first (svcs : list service) (r : http_Request) :
  match findService_loop svcs r with
  | Some (svc, p) =>
      exists pre post,
        svcs = (pre ++ svc :: post)%list
        /\ (forall x, In x pre ->
              String.eqb (method x) (Method r)
              && HasSuffix (Path (Url r)) (suffix x) = false)
        /\ method svc = Method r
        /\ HasSuffix (Path (Url r)) (suffix svc) = true
        /\ p = Replace1 (Path (Url r)) (suffix svc) ""
  | None =>
      forall x, In x svcs ->
        String.eqb (method x) (Method r)
        && HasSuffix (Path (Url r)) (suffix x) = false
  end.
Proof.
  induction svcs as [|svc rest IH]; [intros x []|].
  cbn [findService_loop].
  destruct (String.eqb (method svc) (Method r)
            && HasSuffix (Path (Url r)) (suffix svc)) eqn:Hmatch.
  - apply andb_true_iff in Hmatch. destruct Hmatch as (Hm & Hs).
    apply String.eqb_eq in Hm.
    exists [], rest. repeat split; try assumption. intros x [].
  - destruct (findService_loop rest r) as [[svc' p]|].
    + destruct IH as (pre & post & Heq & Hpre & Hm & Hs & Hp).
      exists (svc :: pre), post. rewrite Heq. repeat split; try assumption.
      intros x [<-|Hin]; [exact Hmatch | apply Hpre; exact Hin].
    + intros x [<-|Hin]; [exact Hmatch | apply IH; exact Hin].
Qed.

(** X25: [findService] takes the first service of the table, in table
    order, whose method is the method of the request and whose suffix ends
    the path, and answers nothing exactly when no service of the table
    matches. *)
Theorem findService_first_match (s : Server) (r : http_Request) :
  match findService s r with
  | Some (svc, p) =>
      exists pre post,
        services s = (pre ++ svc :: post)%list
        /\ (forall x, In x pre ->
              String.eqb (method x) (Method r)
              && HasSuffix (Path (Url r)) (suffix x) = false)
        /\ method svc = Method r
        /\ HasSuffix (Path (Url r)) (suffix svc) = true
        /\ p = Replace1 (Path (Url r)) (suffix svc) ""
  | None =>
      forall x, In x (services s) ->
        String.eqb (method x) (Method r)
        && HasSuffix (Path (Url r)) (suffix x) = false
  end.
Proof.
  unfold findService. apply findService_loop_first.
Qed.

(** X26: the configuration of a server built by [New] never has an empty
    git path, so that the program of every git command is named; and
    building a server from the configuration of a built server changes
    nothing. *)
Theorem New_git_path (cfg : Config) :
  GitPath (config (New cfg)) <> ""
  /\ config (New (config (New cfg))) = config (New cfg).
Proof.
  unfold New. cbn [config GitPath Dir Auth AutoCreate AutoHooks Hooks].
  destruct (String.eqb_spec (GitPath cfg) "") as [He|He].
  - split; [discriminate | reflexivity].
  - split; [exact He|].
    destruct (String.eqb_spec (GitPath cfg) ""); [contradiction | reflexivity].
Qed.


(** *** Joining in two steps *)

Lemma Clean_ext (p p' : string) :
  p <> "" -> p' <> "" ->
  HasPrefix p "/" = HasPrefix p' "/" ->
  clean_elems (HasPrefix p "/") (Split_slash p) []
  = clean_elems (HasPrefix p "/") (Split_slash p') [] ->
  Clean p = Clean p'.
Proof.
  intros Hp Hp' Hr Hs. unfold Clean.
  destruct (String.eqb_spec p ""); [contradiction|].
  destruct (String.eqb_spec p' ""); [contradiction|].
  rewrite <- Hr, <- Hs. reflexivity.
Qed.

(** The elements of a cleaned relative path act on any stack as the
    elements of the path itself. *)
Lemma clean_elems_Clean (r : bool) (z : string) (out : list string) :
  z <> "" -> HasPrefix z "/" = false ->
  clean_elems r (Split_slash (Clean z)) out = clean_elems r (Split_slash z) out.
Proof.
  intros Hz Hrel. unfold Clean.
  destruct (String.eqb_spec z ""); [contradiction|]. rewrite Hrel.
  rewrite <- (clean_elems_normal r (Split_slash z) out).
  pose proof (clean_elems_no_slash false (Split_slash z) []
                (Split_slash_elems z) (Forall_nil _)) as Hslash.
  destruct (rev (clean_elems false (Split_slash z) [])) as [|e l] eqn:Hrev;
    [reflexivity|].
  rewrite <- Hrev. rewrite Split_slash_Join_slash;
    [ reflexivity | rewrite Hrev; discriminate | apply Forall_rev; exact Hslash ].
Qed.

Lemma Clean_relative (z : string) :
  z <> "" -> HasPrefix z "/" = false -> HasPrefix (Clean z) "/" = false.
Proof.
  intros Hz Hrel. unfold Clean.
  destruct (String.eqb_spec z ""); [contradiction|]. rewrite Hrel.
  pose proof (clean_elems_no_slash false (Split_slash z) []
                (Split_slash_elems z) (Forall_nil _)) as Hslash.
  pose proof (clean_elems_kept false (Split_slash z) [] (Forall_nil _)) as Hkept.
  destruct (rev (clean_elems false (Split_slash z) [])) as [|e l] eqn:Hrev;
    [reflexivity|].
  rewrite <- Hrev. apply Join_slash_not_rooted; apply Forall_rev; assumption.
Qed.

Lemma Clean_idempotent_relative (z : string) :
  z <> "" -> HasPrefix z "/" = false -> Clean (Clean z) = Clean z.
Proof.
  intros Hz Hrel. apply Clean_ext.
  - apply Clean_not_empty.
  - exact Hz.
  - rewrite Hrel. apply Clean_relative; assumption.
  - apply clean_elems_Clean; assumption.
Qed.

Lemma Clean_under (d z z' : string) :
  d <> "" ->
  (forall r out, clean_elems r (Split_slash z) out = clean_elems r (Split_slash z') out) ->
  Clean (d ++ String slash z) = Clean (d ++ String slash z').
Proof.
  intros Hd Hz. apply Clean_ext.
  - destruct d; [contradiction | discriminate].
  - destruct d; [contradiction | discriminate].
  - rewrite !HasPrefix_slash_app by exact Hd. reflexivity.
  - rewrite !Split_slash_app, !clean_elems_app. apply Hz.
Qed.

(** The path joined from the root and the name is the path joined from
    the root, the namespace and the leaf, when the name is relative. *)
Lemma Join_nested (d ns n : string) :
  HasPrefix (if String.eqb ns "" then n else ns) "/" = false ->
  Join [d; Join [ns; n]] = Join [d; ns; n].
Proof.
  intros Hrel.
  assert (Hinner : Join [ns; n] = "" /\ ns = "" /\ n = ""
                   \/ exists z, z <> "" /\ HasPrefix z "/" = false
                                /\ Join [ns; n] = Clean z
                                /\ forall r out,
                                     clean_elems r (Split_slash z) out
                                     = clean_elems r (Split_slash (ns ++ String slash n)) out).
  { revert Hrel. unfold Join.
    destruct (String.eqb_spec ns "") as [-> | Hns]; intros Hrel.
    - destruct (String.eqb_spec n "") as [-> | Hn].
      + left. repeat split; reflexivity.
      + right. exists n. split; [exact Hn|]. split; [exact Hrel|].
        split; reflexivity.
    - right. exists (ns ++ String slash n). split.
      + destruct ns; [contradiction | discriminate].
      + split; [rewrite HasPrefix_slash_app by exact Hns; exact Hrel|].
        split; reflexivity. }
  destruct (String.eqb_spec d "") as [-> | Hd].
  - change (Join [""; Join [ns; n]]) with (Join [Join [ns; n]]).
    change (Join [""; ns; n]) with (Join [ns; n]).
    destruct Hinner as [(H0 & _ & _) | (z & Hz & Hzr & HJ & _)].
    + rewrite H0. reflexivity.
    + rewrite HJ. unfold Join at 1.
      destruct (String.eqb_spec (Clean z) "") as [He | _];
        [exfalso; exact (Clean_not_empty z He)|].
      apply Clean_idempotent_relative; assumption.
  - unfold Join at 1 3.
    destruct (String.eqb_spec d ""); [contradiction|].
    change (Join_slash [d; Join [ns; n]]) with (d ++ String slash (Join [ns; n])).
    change (Join_slash [d; ns; n]) with (d ++ String slash (ns ++ String slash n)).
    apply Clean_under; [exact Hd|]. intros r out.
    destruct Hinner as [(H0 & -> & ->) | (z & Hz & Hzr & HJ & Hsame)].
    + rewrite H0. reflexivity.
    + rewrite HJ, clean_elems_Clean by assumption. apply Hsame.
Qed.

(** *** The file system *)

Lemma elems_eqb_refl (p : list string) : elems_eqb p p = true.
Proof.
  induction p as [|x p IH]; [reflexivity|].
  cbn [elems_eqb]. rewrite String.eqb_refl, IH. reflexivity.
Qed.

Lemma fs_find_app (f g : FS) (p : list string) :
  fs_find (f ++ g)%list p
  = match fs_find f p with Some k => Some k | None => fs_find g p end.
Proof.
  induction f as [|[q k] f IH]; [reflexivity|].
  cbn [app fs_find]. destruct (elems_eqb q p); [reflexivity | exact IH].
Qed.

Lemma fs_lookup_put_same (f : FS) (p : list string) (k : Kind) :
  fs_lookup (fs_put p k f) p <> None.
Proof.
  unfold fs_put. destruct (fs_lookup f p) eqn:Hl.
  - rewrite Hl. discriminate.
  - destruct p as [|x p]; [discriminate|].
    cbn [fs_lookup] in *. rewrite fs_find_app, Hl.
    cbn [fs_find]. rewrite elems_eqb_refl. discriminate.
Qed.

Lemma fs_lookup_put_mono (f : FS) (p q : list string) (k : Kind) :
  fs_lookup f q <> None -> fs_lookup (fs_put p k f) q <> None.
Proof.
  intros Hq. unfold fs_put. destruct (fs_lookup f p); [exact Hq|].
  destruct q as [|x q]; [discriminate|].
  cbn [fs_lookup] in *. rewrite fs_find_app.
  destruct (fs_find f (x :: q)); [discriminate | contradiction].
Qed.

(** After a successful [git init --bare p] the entry [p/objects] exists. *)
Lemma git_init_bare_objects (f : FS) (c : list string) (p : string) :
  p <> "" -> stat_ok (git_init_bare f c p) c (Join [p; "objects"]) = true.
Proof.
  intros Hp. destruct (resolve_some c p Hp) as [q Hq].
  unfold stat_ok, git_init_bare.
  rewrite (resolve_Join_child c p "objects" q Hp);
    [ | repeat split; discriminate | reflexivity | exact Hq ].
  rewrite Hq.
  match goal with
  | |- match ?l with _ => _ end = true =>
      assert (Hl : l <> None); [ | destruct l; [reflexivity | contradiction] ]
  end.
  do 3 apply fs_lookup_put_mono. apply fs_lookup_put_same.
Qed.

Lemma elems_eqb_eq (a b : list string) : elems_eqb a b = true -> a = b.
Proof.
  revert b. induction a as [|x a IH]; intros [|y b]; cbn [elems_eqb];
    try discriminate; [reflexivity|].
  intros H. apply andb_true_iff in H. destruct H as (Hx & Hab).
  apply String.eqb_eq in Hx. rewrite Hx, (IH b Hab). reflexivity.
Qed.

Lemma is_prefix_app (q l : list string) : is_prefix q (q ++ l) = true.
Proof.
  induction q as [|x q IH]; [reflexivity|].
  cbn [app is_prefix]. rewrite String.eqb_refl. exact IH.
Qed.

Lemma is_prefix_refl (q : list string) : is_prefix q q = true.
Proof. rewrite <- (app_nil_r q) at 2. apply is_prefix_app. Qed.

(** Nothing at or below the removed directory is left. *)
Lemma fs_find_removed (f : FS) (d q : list string) :
  is_prefix d q = true ->
  fs_find (filter (fun e => negb (is_prefix d (fst e))) f) q = None.
Proof.
  intros Hq. induction f as [|[k kind] f IH]; [reflexivity|].
  cbn [filter fst]. destruct (is_prefix d k) eqn:Hk; cbn [negb]; [exact IH|].
  cbn [fs_find]. destruct (elems_eqb k q) eqn:Hkq; [|exact IH].
  apply elems_eqb_eq in Hkq. subst k. congruence.
Qed.

(** Everything else is as before. *)
Lemma fs_find_kept (f : FS) (d q : list string) :
  is_prefix d q = false ->
  fs_find (filter (fun e => negb (is_prefix d (fst e))) f) q = fs_find f q.
Proof.
  intros Hq. induction f as [|[k kind] f IH]; [reflexivity|].
  cbn [filter fst]. destruct (is_prefix d k) eqn:Hk; cbn [negb fs_find].
  - destruct (elems_eqb k q) eqn:Hkq; [|exact IH].
    apply elems_eqb_eq in Hkq. subst k. congruence.
  - destruct (elems_eqb k q); [reflexivity | exact IH].
Qed.

Lemma mkdir_all_lookup (pre rest : list string) (f : FS) :
  fs_lookup f pre <> None ->
  fs_lookup (mkdir_all pre rest f) (pre ++ rest) <> None.
Proof.
  revert pre f. induction rest as [|x rest IH]; intros pre f Hpre.
  - rewrite app_nil_r. exact Hpre.
  - cbn [mkdir_all].
    replace (pre ++ x :: rest)%list with ((pre ++ [x]) ++ rest)%list
      by (rewrite <- app_assoc; reflexivity).
    apply IH. apply fs_lookup_put_same.
Qed.

(** After a successful [git init --bare p] the directory [p] exists. *)
Lemma git_init_bare_dir (f : FS) (c : list string) (p : string) :
  p <> "" -> stat_ok (git_init_bare f c p) c p = true.
Proof.
  intros Hp. destruct (resolve_some c p Hp) as [q Hq].
  unfold stat_ok, git_init_bare. rewrite Hq.
  match goal with
  | |- match ?l with _ => _ end = true =>
      assert (Hl : l <> None); [ | destruct l; [reflexivity | contradiction] ]
  end.
  do 4 apply fs_lookup_put_mono.
  apply (mkdir_all_lookup [] q f). discriminate.
Qed.

(** What is left after [os.RemoveAll(p)]: no [objects] entry under [p],
    and every name that resolves outside [p] is found as before. *)
Lemma remove_all_objects (f : FS) (c : list string) (p : string) :
  p <> "" -> stat_ok (remove_all f c p) c (Join [p; "objects"]) = false.
Proof.
  intros Hp. destruct (resolve_some c p Hp) as [q Hq].
  unfold stat_ok, remove_all.
  rewrite (resolve_Join_child c p "objects" q Hp);
    [ | repeat split; discriminate | reflexivity | exact Hq ].
  rewrite Hq. unfold fs_lookup.
  destruct (q ++ ["objects"])%list eqn:Hk; [destruct q; discriminate|].
  rewrite <- Hk, fs_find_removed by apply is_prefix_app. reflexivity.
Qed.

Lemma remove_all_outside (f : FS) (c : list string) (p p' : string)
  (q q' : list string) :
  resolve c p = Some q -> resolve c p' = Some q' ->
  is_prefix q q' = false ->
  stat_ok (remove_all f c p) c p' = stat_ok f c p'.
Proof.
  intros Hq Hq' Hout. unfold stat_ok, remove_all. rewrite Hq, Hq'.
  unfold fs_lookup. destruct q' as [|x q']; [reflexivity|].
  rewrite fs_find_kept by exact Hout. reflexivity.
Qed.

Lemma remove_all_target (f : FS) (c : list string) (p : string)
  (q : list string) :
  resolve c p = Some q -> q <> [] -> stat_ok (remove_all f c p) c p = false.
Proof.
  intros Hq Hne. unfold stat_ok, remove_all. rewrite Hq.
  unfold fs_lookup. destruct q as [|x q]; [contradiction|].
  rewrite fs_find_removed by apply is_prefix_refl. reflexivity.
Qed.


Lemma Join_not_empty (d name : string) : name <> "" -> Join [d; name] <> "".
Proof.
  intros Hn. unfold Join.
  destruct (String.eqb d ""); [|apply Clean_not_empty].
  destruct (String.eqb_spec name ""); [contradiction | apply Clean_not_empty].
Qed.

(* ================================================================= *)
(** ** Symbolic execution of the handlers *)

#[local] Arguments GoPath.Join : simpl never.
#[local] Arguments GoPath.Clean : simpl never.
#[local] Arguments GoStrings.HasSuffix : simpl never.
#[local] Arguments GoStrings.Replace1 : simpl never.
#[local] Arguments String.append : simpl never.
#[local] Arguments String.eqb : simpl never.

(** Runs the monadic steps whose outcome is decided. *)
Ltac run :=
  cbv beta iota zeta delta
    [bind ret when go_return go_panic modify gets emit defer
     logError logInfo w_WriteHeader w_Header_Set w_Header_Add w_Write upd_resp
     http_Error http_NotFound fail500 formatResponse
     set_fs set_resp set_logs set_group set_proc_stdin set_events set_deferred
     fs cwd resp logs group proc_stdin events deferred
     rw_header rw_status rw_body rw_envelope
     initial_world rw_empty negb orb andb is_err fst snd
     httpReq RepoName RepoPath];
  cbn [app header_set header_add].

(** Runs the deferred calls at the end of a handler. *)
Ltac run_deferred_calls :=
  cbv beta iota delta
    [fold_left run_deferred cleanUpProcessGroup set_group set_events
     events group deferred fs cwd resp logs proc_stdin];
  rewrite <- ?app_assoc; cbn [app].

Section Properties.

Variable getNamespaceAndRepo : string -> string * string.
Variable subCommand : string -> string.
Variable parseBasicAuth : string -> option (string * string).
Variable env : Env.

(** *** Credential extraction *)

Lemma getCredential_no_error (r : http_Request) :
  Header_Get r "Authorization" <> "" ->
  snd (getCredential parseBasicAuth r) = None.
Proof.
  intros Hne. unfold getCredential, tokenAuth.
  destruct (BasicAuth parseBasicAuth r) as [[user pass]|]; [reflexivity|].
  destruct (String.eqb_spec (Header_Get r "Authorization") "") as [He|He];
    [contradiction | reflexivity].
Qed.

(** C10: for a request whose [Authorization] header is not empty,
    [getCredential] returns no error; the credential is either the
    basic-auth pair with an empty token, or, when the header is not a
    well-formed basic credential, the whole header value as the token with
    empty user name and password. *)
Theorem getCredential_total (r : http_Request) :
  Header_Get r "Authorization" <> "" ->
  snd (getCredential parseBasicAuth r) = None
  /\ ((exists user pass,
         BasicAuth parseBasicAuth r = Some (user, pass)
         /\ fst (getCredential parseBasicAuth r) = mkCredential user pass "")
      \/ (BasicAuth parseBasicAuth r = None
          /\ fst (getCredential parseBasicAuth r)
             = mkCredential "" "" (Header_Get r "Authorization"))).
Proof.
  intros Hne. split; [apply getCredential_no_error; exact Hne|].
  unfold getCredential, tokenAuth.
  destruct (BasicAuth parseBasicAuth r) as [[user pass]|] eqn:Hb.
  - left. exists user, pass. split; reflexivity.
  - right. destruct (String.eqb_spec (Header_Get r "Authorization") "") as [He|He];
      [contradiction | split; reflexivity].
Qed.

(** *** The dispatcher up to the authentication gate *)

Lemma name_derived_pass (r : http_Request) (p : string) :
  name_derived getNamespaceAndRepo r p = true ->
  (if String.eqb (Method r) "GET" && GoStrings.HasSuffix (RequestURI r) "/repos"
   then ret tt
   else if String.eqb (snd (getNamespaceAndRepo p)) ""
   then logError "auth" "no repo name provided" ;; w_WriteHeader 400 ;; go_return
   else ret tt)%go = ret tt.
Proof.
  unfold name_derived, is_list_request.
  destruct (String.eqb (Method r) "GET" && GoStrings.HasSuffix (RequestURI r) "/repos");
    cbn [orb].
  - reflexivity.
  - destruct (String.eqb (snd (getNamespaceAndRepo p)) "");
      [discriminate | reflexivity].
Qed.

(** Route match and name derivation have succeeded. *)
Ltac enter_dispatch Hroute Hname :=
  unfold ServeHTTP, request_context in *; rewrite Hroute;
  unfold bind at 1; cbn [logInfo modify];
  unfold bind at 1; cbn [ret];
  let ns := fresh "ns" in
  let n := fresh "n" in
  let Hg := fresh "Hg" in
  let Hp := fresh "Hp" in
  match goal with
  | |- context [getNamespaceAndRepo ?p] =>
      pose proof (name_derived_pass _ p Hname) as Hp;
      destruct (getNamespaceAndRepo p) as [ns n] eqn:Hg;
      cbn [snd] in Hp; rewrite Hp; clear Hp
  end.

(** The authentication gate lets the request through. *)
Ltac pass_gate Hauth :=
  let f := fresh "f" in
  let Hoff := fresh "Hoff" in
  let Hfn := fresh "Hfn" in
  let Hhdr := fresh "Hhdr" in
  let Hallow := fresh "Hallow" in
  let Hcred := fresh "Hcred" in
  let cred := fresh "cred" in
  let err := fresh "err" in
  destruct Hauth as [Hoff | (f & Hfn & Hhdr & Hallow)];
  [ rewrite Hoff
  | destruct (Auth (config _));
    [ rewrite Hfn; cbv zeta;
      pose proof (getCredential_no_error _ Hhdr) as Hcred;
      match type of Hhdr with
      | ?h <> _ => destruct (String.eqb_spec h ""); [contradiction|]
      end;
      match goal with
      | |- context [getCredential parseBasicAuth ?r] =>
          destruct (getCredential parseBasicAuth r) as [cred err]
      end;
      cbn [fst snd] in *; subst err; run; rewrite Hallow
    | ] ]; run.

(** C5: when authentication is required and a capability is installed,
    a routed, name-bearing request with a non-empty [Authorization] header
    for which the capability answers "not allowed" or an error is answered
    401, with no header and no body and without any handler being called,
    whatever the credential; an error of the capability goes to the log
    and nowhere else. *)
Theorem auth_denied_401 (s : Server) (r : http_Request) (svc : service)
  (p : string) (f : Credential -> Request -> bool * error)
  (allow : bool) (err : error) (fs0 : FS) (c : list string) :
  findService s r = Some (svc, p) ->
  name_derived getNamespaceAndRepo r p = true ->
  Auth (config s) = true ->
  AuthFunc s = Some f ->
  Header_Get r "Authorization" <> "" ->
  f (fst (getCredential parseBasicAuth r))
    (request_context getNamespaceAndRepo s r p) = (allow, err) ->
  allow = false \/ err <> None ->
  ServeHTTP getNamespaceAndRepo subCommand parseBasicAuth env s r
    (initial_world fs0 c)
  = (Returned,
     mkWorld fs0 c (mkResponseWriter [] (Some 401) "" None)
       ([mkLog "info" "request" (Method r ++ " " ++ Host r ++ URL_String (Url r))]
        ++ match err with Some e => [mkLog "error" "auth" e] | None => [] end
        ++ [mkLog "error" "auth"
              ("rejected user "
               ++ Username (fst (getCredential parseBasicAuth r)))])%list
       NoGroup "" [] []).
Proof.
  intros Hroute Hname Hauth Hfn Hhdr Hf Hdeny.
  pose proof (getCredential_no_error r Hhdr) as Hcred.
  enter_dispatch Hroute Hname.
  rewrite Hauth, Hfn; cbv zeta.
  destruct (String.eqb_spec (Header_Get r "Authorization") "") as [He|_];
    [contradiction|].
  destruct (getCredential parseBasicAuth r) as [cred cerr]; cbn [fst snd] in *.
  subst cerr. run. rewrite Hf.
  destruct allow, err as [e|]; try reflexivity.
  destruct Hdeny as [Hd | Hd]; [discriminate | contradiction].
Qed.

(** C6 (amended): when authentication is required, a routed, name-bearing
    request without [Authorization] header is answered 401 and no handler
    is called; the challenge header is set when an authentication
    capability is installed, and without one the 401 carries no header and
    the missing backend is logged. *)
Theorem missing_header_401 (s : Server) (r : http_Request) (svc : service)
  (p : string) (fs0 : FS) (c : list string) :
  findService s r = Some (svc, p) ->
  name_derived getNamespaceAndRepo r p = true ->
  Auth (config s) = true ->
  Header_Get r "Authorization" = "" ->
  ServeHTTP getNamespaceAndRepo subCommand parseBasicAuth env s r
    (initial_world fs0 c)
  = (Returned,
     mkWorld fs0 c
       (mkResponseWriter
          match AuthFunc s with
          | Some _ => [("WWW-Authenticate", [basic_realm_challenge])]
          | None => []
          end
          (Some 401) "" None)
       (mkLog "info" "request" (Method r ++ " " ++ Host r ++ URL_String (Url r))
        :: match AuthFunc s with
           | Some _ => []
           | None => [mkLog "error" "auth" "no auth backend provided"]
           end)
       NoGroup "" [] []).
Proof.
  intros Hroute Hname Hauth Hhdr.
  enter_dispatch Hroute Hname. rewrite Hauth, Hhdr.
  destruct (AuthFunc s); reflexivity.
Qed.

(** X28: a request that passes routing, name derivation and
    authentication and meets the test of the carve-out as lines 137-138
    have it (POST with a request URI ending in [/repo], GET with a request
    URI ending in [/repos]) goes from the request log straight to the
    handler of its service, called with the RPC name of the service and
    the request context: the dispatcher performs no existence check and no
    creation of its own, and nothing is written before the handler runs. *)
Theorem lifecycle_requests_dispatch_directly (s : Server) (r : http_Request)
  (svc : service) (p : string) (fs0 : FS) (c : list string) :
  findService s r = Some (svc, p) ->
  name_derived getNamespaceAndRepo r p = true ->
  auth_passes parseBasicAuth s r (request_context getNamespaceAndRepo s r p) ->
  is_lifecycle_request r = true ->
  let req := request_context getNamespaceAndRepo s r p in
  let out :=
    call (handler svc)
      (handler_body subCommand env s (handler svc) (rpc svc) req)
      (mkWorld fs0 c rw_empty
         [mkLog "info" "request" (Method r ++ " " ++ Host r ++ URL_String (Url r))]
         NoGroup "" [EvHandler (handler svc) (rpc svc) req] []) in
  ServeHTTP getNamespaceAndRepo subCommand parseBasicAuth env s r
    (initial_world fs0 c)
  = (match fst out with Panicked msg => Panicked msg | _ => Returned end,
     snd out).
Proof.
  intros Hroute Hname Hauth Hlife. cbv zeta.
  enter_dispatch Hroute Hname.
  unfold is_lifecycle_request in Hlife.
  cbv beta iota delta [orb andb] in Hlife.
  pass_gate Hauth; rewrite Hlife; unfold invoke; run;
    match goal with
    | |- context [call ?h ?b ?w] => destruct (call h b w) as [[ | | ] w1]
    end; reflexivity.
Qed.

(** *** Listing from the root *)

Lemma last_entry_name (k : list string) :
  k <> [] -> Forall entry_name k -> entry_name (last k "").
Proof.
  induction k as [|x k IH]; [contradiction|]. intros _ Hall.
  inversion Hall; subst. destruct k as [|y k]; [assumption|].
  change (last (x :: y :: k) "") with (last (y :: k) "").
  apply IH; [discriminate | assumption].
Qed.

Lemma fs_children_names (f : FS) (q : list string) :
  fs_wf f -> Forall (fun e => entry_name (fst e)) (fs_children f q).
Proof.
  unfold fs_wf, fs_children. induction f as [|[k kind] f IH]; intros Hwf;
    [constructor|].
  inversion Hwf as [|? ? Hk Hf]; subst. cbn [flat_map fst snd].
  apply Forall_app. split; [|apply IH; exact Hf].
  destruct k as [|x k]; [constructor|].
  destruct (elems_eqb (removelast (x :: k)) q); [|constructor].
  constructor; [|constructor]. cbn [fst].
  apply last_entry_name; [discriminate | exact Hk].
Qed.

Lemma resolve_entry (c : list string) (name : string) :
  entry_name name -> resolve c name = Some (c ++ [name])%list.
Proof.
  intros ((Hne & Hdot & Hdd) & Hns). unfold resolve.
  destruct (String.eqb_spec name ""); [contradiction|].
  pose proof (kept_not_rooted name "" Hne Hns) as Hrel.
  rewrite append_nil_r in Hrel. rewrite Hrel.
  rewrite (Split_slash_no_slash name Hns).
  change (clean_elems true [name] (rev c)) with (clean_step true (rev c) name).
  rewrite clean_step_real by (repeat split; assumption).
  cbn [rev]. rewrite rev_involutive. reflexivity.
Qed.

(** When the root resolves to the working directory, an entry of the
    root is found under the same place by its bare name and by its name
    joined with the root. *)
Lemma resolve_in_root (c : list string) (root name : string) :
  resolve c root = Some c -> entry_name name ->
  resolve c name = resolve c (Join [root; name]).
Proof.
  intros Hroot Hname. rewrite (resolve_entry c name Hname).
  destruct Hname as (Hreal & Hns). symmetry.
  apply resolve_Join_child; try assumption.
  intros ->. discriminate Hroot.
Qed.

Lemma read_dir_in_root (f : FS) (c : list string) (root name : string) :
  resolve c root = Some c -> entry_name name ->
  match read_dir f c name, read_dir f c (Join [root; name]) with
  | inl l, inl l' => l = l'
  | inr _, inr _ => True
  | _, _ => False
  end.
Proof.
  intros Hroot Hname. unfold read_dir.
  rewrite <- (resolve_in_root c root name Hroot Hname).
  destruct (resolve c name) as [q|]; [|exact I].
  destruct (fs_lookup f q) as [[|]|]; [exact I | reflexivity | exact I].
Qed.

Lemma listRepo_subDirs_spec (repoDir : DirEntry) (subDirs : list DirEntry)
  (repos : list string) :
  listRepo_subDirs repoDir subDirs repos
  = (repos ++ git_leaves (Name repoDir) subDirs)%list.
Proof.
  revert repos. induction subDirs as [|d rest IH]; intros repos.
  - cbn. rewrite app_nil_r. reflexivity.
  - cbn [listRepo_subDirs]. rewrite IH. unfold git_leaves. cbn [filter].
    destruct (IsDir d && HasSuffix (Name d) ".git").
    + cbn [map]. rewrite <- app_assoc. reflexivity.
    + reflexivity.
Qed.


(** The loop of [listRepo], run with the working directory in the root,
    collects the listing under the root; it leaves the handler where the
    listing under the root fails. *)
Lemma listRepo_dirs_in_root (root : string) (dirs : list DirEntry)
  (repos : list string) (w : World) :
  resolve (cwd w) root = Some (cwd w) ->
  Forall (fun d => entry_name (Name d)) dirs ->
  match list_namespaces (fs w) (cwd w) root dirs with
  | Some l => listRepo_dirs dirs repos w = (Next (repos ++ l)%list, w)
  | None => exists e, listRepo_dirs dirs repos w
                      = (Returned, snd (fail500 "list repo" e w))
  end.
Proof.
  intros Hroot. revert repos. induction dirs as [|d rest IH]; intros repos Hnames.
  - cbn. rewrite app_nil_r. reflexivity.
  - inversion Hnames as [|? ? Hd Hrest]; subst.
    cbn [listRepo_dirs list_namespaces]. destruct (IsDir d); [|apply IH; exact Hrest].
    pose proof (read_dir_in_root (fs w) (cwd w) root (Name d) Hroot Hd) as Hread.
    unfold os_ReadDir.
    cbv beta iota delta [bind gets].
    destruct (read_dir (fs w) (cwd w) (Name d)) as [l|e],
             (read_dir (fs w) (cwd w) (Join [root; Name d])) as [l'|e'];
      try contradiction.
    + subst l'. specialize (IH (listRepo_subDirs d l repos) Hrest).
      destruct (list_namespaces (fs w) (cwd w) root rest) as [ls|]; cbn [option_map].
      * rewrite IH, listRepo_subDirs_spec, <- app_assoc. reflexivity.
      * exact IH.
    + exists e. destruct w as [f0 c0 [hd st bd en] lg g pin ev df]. reflexivity.
Qed.

(** X23: with the working directory of the server in the root, and a
    filter installed, [listRepo] answers the listing under the root,
    filtered. *)
Theorem listRepo_in_root (s : Server) (a : string) (r : Request)
  (filter : list string -> Request -> list string) (f : FS) (c : list string) :
  fs_wf f ->
  resolve c (Dir (config s)) = Some c ->
  FilterRepoFunc s = Some filter ->
  listed (snd (call h_listRepo (listRepo s a r) (initial_world f c)))
  = option_map (fun repos => filter repos r) (list_under_root f c (Dir (config s))).
Proof.
  intros Hwf Hroot Hfilter. unfold call, listRepo, list_under_root, os_ReadDir.
  rewrite Hfilter. run.
  assert (Hnames : forall l, read_dir f c (Dir (config s)) = inl l ->
                             Forall (fun d => entry_name (Name d)) l).
  { unfold read_dir. rewrite Hroot. intros l.
    destruct (fs_lookup f c) as [[|]|]; try discriminate. intros [= <-].
    apply Forall_map. cbn [Name]. apply fs_children_names. exact Hwf. }
  destruct (read_dir f c (Dir (config s))) as [dirs|e].
  - pose proof (listRepo_dirs_in_root (Dir (config s)) dirs []
                  (mkWorld f c (mkResponseWriter [] None "" None) [] NoGroup "" [] [])
                  Hroot (Hnames dirs eq_refl)) as Hloop.
    cbn [fs cwd] in Hloop.
    destruct (list_namespaces f c (Dir (config s)) dirs) as [l|].
    + rewrite Hloop. run. run_deferred_calls. reflexivity.
    + destruct Hloop as (e & He). rewrite He.
      run. run_deferred_calls. reflexivity.
  - run. run_deferred_calls. reflexivity.
Qed.

(** *** The subprocess never outlives the handler *)

(** Finds where the subprocess starts and where its group is cleaned up
    in an explicit list of events. *)
Ltac find_cleanup :=
  first
    [ exists []; first
        [ exists [], []; reflexivity
        | eexists [_], []; reflexivity
        | eexists [_; _], []; reflexivity
        | eexists [], [_; _]; reflexivity
        | eexists [_], [_; _]; reflexivity
        | eexists [_; _], [_; _]; reflexivity ]
    | eexists [_]; first
        [ exists [], []; reflexivity
        | eexists [_], []; reflexivity
        | eexists [_; _], []; reflexivity
        | eexists [], [_; _]; reflexivity
        | eexists [_], [_; _]; reflexivity
        | eexists [_; _], [_; _]; reflexivity ] ].

(** One exit path of a handler, run to the end. *)
Ltac close_path :=
  run; run_deferred_calls;
  (eexists; split; [reflexivity | split; [reflexivity|]]);
  let argv0 := fresh "argv0" in
  let Hin := fresh "Hin" in
  intros argv0 Hin; cbn [In] in Hin;
  repeat (destruct Hin as [Hin | Hin]; [try discriminate Hin|]);
  try contradiction;
  try (injection Hin as <-; split; [reflexivity | find_cleanup]);
  try (match type of Hin with
       | _ = EvStart _ None => injection Hin; intros; congruence
       end).

Ltac on_error x := destruct x as [?e|]; [solve [close_path] | ].

Lemma getInfoRefs_cleans_up (s : Server) (a : string) (req : Request) (w : World) :
  cleans_up h_getInfoRefs w
    (snd (call h_getInfoRefs (getInfoRefs subCommand env s a req) w)).
Proof.
  destruct w as [f0 c0 [hd st bd en] lg g pin ev df].
  unfold cleans_up, call, getInfoRefs, cmd_Start, cmd_Wait, packLine, packFlush,
    io_Copy_out, gitCommand.
  destruct (String.eqb (Query_Get (httpReq req) "service") "git-upload-pack");
    [ | destruct (String.eqb (Query_Get (httpReq req) "service") "git-receive-pack");
        [ | close_path ] ].
  all: on_error (start_err env).
  all: on_error (packLine_err env).
  all: on_error (packFlush_err env).
  all: destruct (copy_out_err env) as [[n0 e0]|]; [solve [close_path] | ].
  all: destruct (wait_err env); close_path.
Qed.

Lemma postRPC_cleans_up (s : Server) (a : string) (req : Request) (w : World) :
  cleans_up h_postRPC w
    (snd (call h_postRPC (postRPC subCommand env s a req) w)).
Proof.
  destruct w as [f0 c0 [hd st bd en] lg g pin ev df].
  unfold cleans_up, call, postRPC, cmd_Start, cmd_Wait, io_Copy_out, io_Copy_in,
    gitCommand.
  destruct (String.eqb (Header_Get (httpReq req) "Content-Encoding") "gzip");
    [ on_error (gzip_err env) | ].
  all: on_error (stdin_pipe_err env).
  all: on_error (start_err env).
  all: on_error (copy_in_err env).
  all: destruct (copy_out_err env) as [[n0 e0]|]; [solve [close_path] | ].
  all: destruct (wait_err env); close_path.
Qed.

(** C1: for the info/refs handler and the stateless-RPC handler, whatever
    the environment answers (normal completion, a failed write of the
    announcement or of the flush marker, a failed copy, a failed wait, a
    client gone away), a subprocess that was started has its process group
    terminated when the handler returns: in the trace of the call the
    clean-up comes after the start and before the return of the handler. *)
Theorem process_group_cleaned_up (s : Server) (svc : service) (req : Request)
  (w : World) (argv : list string) :
  handler svc = h_getInfoRefs \/ handler svc = h_postRPC ->
  let w' := snd (invoke subCommand env s svc req w) in
  forall new,
    events w' = (events w ++ new)%list ->
    In (EvStart argv None) new ->
    group w' = GroupTerminated
    /\ exists pre mid post,
         new = (pre ++ EvStart argv None :: mid
                    ++ EvCleanUpProcessGroup :: post
                    ++ [EvHandlerReturn (handler svc)])%list.
Proof.
  intros Hh w' new Hnew Hin. subst w'.
  assert (Hc : cleans_up (handler svc)
                 (snd (emit (EvHandler (handler svc) (rpc svc) req) w))
                 (snd (invoke subCommand env s svc req w))).
  { unfold invoke. unfold bind at 1. cbn [emit modify snd].
    match goal with
    | |- context [call ?h ?b ?w1] =>
        destruct (call h b w1) as [[ | | ] w2] eqn:Hcall
    end; cbn [snd];
      replace w2 with (snd (call (handler svc)
                              (handler_body subCommand env s (handler svc) (rpc svc) req)
                              (set_events
                                 (events w ++ [EvHandler (handler svc) (rpc svc) req]) w)))
        by (rewrite Hcall; reflexivity);
      destruct Hh as [Hh | Hh]; rewrite Hh; cbn [handler_body];
      first [apply getInfoRefs_cleans_up | apply postRPC_cleans_up]. }
  destruct Hc as (new' & Hev & _ & Hprop).
  cbn [emit modify snd] in Hev.
  destruct w as [f0 c0 rs lg g pin ev df]. cbn [events set_events] in *.
  rewrite Hev in Hnew. rewrite <- app_assoc in Hnew.
  apply app_inv_head in Hnew. subst new. cbn [app In] in Hin.
  destruct Hin as [Hin | Hin]; [discriminate Hin|].
  destruct (Hprop argv Hin) as (Hg & pre & mid & post & Heq).
  split; [exact Hg|].
  exists (EvHandler (handler svc) (rpc svc) req :: pre), mid, post.
  rewrite Heq. reflexivity.
Qed.

(** *** Auto-create *)


(** *** The handshake of info/refs *)

(** C4: in the info/refs handler for [git-upload-pack], once the
    subprocess is started and the two writes succeed, the bytes added to
    the response before the output of the subprocess are exactly
    [001e# service=git-upload-pack], a line feed, and [0000]: the prefix
    [001e] is 30, the 26 bytes of the payload plus its own 4, in four
    lowercase hexadecimal digits, and the flush marker has no payload. *)
Theorem info_refs_handshake (s : Server) (a : string) (req : Request)
  (w : World) :
  Query_Get (httpReq req) "service" = "git-upload-pack" ->
  start_err env = None ->
  packLine_err env = None ->
  packFlush_err env = None ->
  rw_body (resp (snd (call h_getInfoRefs
                        (getInfoRefs subCommand env s a req) w)))
  = ((rw_body (resp w) ++ "001e# service=git-upload-pack" ++ nl) ++ "0000")
    ++ match copy_out_err env with
       | None => proc_stdout env
       | Some (n, _) => String.substring 0 n (proc_stdout env)
       end
  /\ pkt_line ("# service=git-upload-pack" ++ nl)
     = hex04 (String.length ("# service=git-upload-pack" ++ nl) + 4)
       ++ "# service=git-upload-pack" ++ nl
  /\ String.length ("# service=git-upload-pack" ++ nl) + 4 = 30
  /\ hex04 30 = "001e"
  /\ pkt_flush = "0000".
Proof.
  intros Hsvc Hstart Hline Hflush.
  split; [| repeat split; reflexivity].
  destruct w as [f0 c0 [hd st bd en] lg g pin ev df].
  unfold call, getInfoRefs, cmd_Start, cmd_Wait, packLine, packFlush,
    io_Copy_out, gitCommand.
  rewrite Hsvc, Hstart, Hline, Hflush.
  change (pkt_line ("# service=" ++ "git-upload-pack" ++ nl))
    with ("001e# service=git-upload-pack" ++ nl).
  change pkt_flush with "0000".
  change (String.eqb "git-upload-pack" "git-upload-pack") with true.
  destruct (copy_out_err env) as [[n0 e0]|];
    [ | destruct (wait_err env) ];
    run; run_deferred_calls; reflexivity.
Qed.

(** *** Creating a repository *)

(** X24: the dispatcher derives the name and the path of the request
    context together: the path is the root joined with the name, for a
    namespace and leaf that do not begin with a slash. *)
Lemma request_context_coherent (s : Server) (r : http_Request) (p : string) :
  HasPrefix (if String.eqb (fst (getNamespaceAndRepo p)) ""
             then snd (getNamespaceAndRepo p)
             else fst (getNamespaceAndRepo p)) "/" = false ->
  RepoPath (request_context getNamespaceAndRepo s r p)
  = Join [Dir (config s); RepoName (request_context getNamespaceAndRepo s r p)].
Proof.
  unfold request_context. destruct (getNamespaceAndRepo p) as [ns n].
  cbn [fst snd RepoPath RepoName]. intros Hrel.
  symmetry. apply Join_nested. exact Hrel.
Qed.


(** C9 (amended): for a create request whose path is the root joined with
    its non-empty name, as the dispatcher builds it.  When an [objects]
    entry exists under the path the answer is 409, [initRepo] is not
    called and the file system is unchanged.  When none exists the
    repository is initialised: if [git init] fails, or the hook
    installation after it, the answer is 500 and the error is logged;
    otherwise the answer is 201 with the name.  Once [git init] has
    succeeded [repoExists] holds of the path. *)
Theorem createRepo_outcomes (s : Server) (a : string) (req : Request)
  (fs0 : FS) (c : list string) :
  RepoName req <> "" ->
  RepoPath req = Join [Dir (config s); RepoName req] ->
  let exists_before := stat_ok fs0 c (Join [RepoPath req; "objects"]) in
  let fs1 := git_init_bare fs0 c (RepoPath req) in
  let json code :=
    mkResponseWriter [("Content-Type", ["application/json"])] (Some code) ""
      (Some (mkKitResponse code (KitRepoResponse (RepoName req)))) in
  let failure :=
    mkResponseWriter
      [("Content-Type", ["text/plain; charset=utf-8"]);
       ("X-Content-Type-Options", ["nosniff"])]
      (Some 500) ("Internal server error" ++ nl) None in
  let init e :=
    [ EvRepoExists (RepoPath req) false;
      EvInitRepo (RepoName req);
      EvExecRun [GitPath (config s); "init"; "--bare"; RepoPath req] e;
      EvHandlerReturn h_createRepo ] in
  call h_createRepo (createRepo env s a req) (initial_world fs0 c)
  = (Next tt,
     if exists_before then
       mkWorld fs0 c (json 409) [] NoGroup ""
         [EvRepoExists (RepoPath req) true; EvHandlerReturn h_createRepo] []
     else
       match git_init_err env with
       | Some e =>
           mkWorld fs0 c failure [mkLog "error" "repo-init" e] NoGroup ""
             (init (Some e)) []
       | None =>
           match (if AutoHooks (config s)
                  then match Hooks (config s) with
                       | Some _ => hooks_err env
                       | None => None
                       end
                  else None) with
           | Some e =>
               mkWorld fs1 c failure [mkLog "error" "repo-init" e] NoGroup ""
                 (init None) []
           | None => mkWorld fs1 c (json 201) [] NoGroup "" (init None) []
           end
       end)
  /\ stat_ok fs1 c (Join [RepoPath req; "objects"]) = true.
Proof.
  destruct req as [hr name path]. cbn [RepoName RepoPath].
  intros Hname Hpath. subst path. cbv zeta. split.
  - unfold call, createRepo, repoExists, initRepo, run_git_init,
      Hooks_setupInDir, os_Stat.
    run.
    match goal with
    | |- context [stat_ok fs0 c ?p] => destruct (stat_ok fs0 c p)
    end; [run; run_deferred_calls; reflexivity|].
    run. destruct (git_init_err env) as [e|];
      [run; run_deferred_calls; reflexivity|].
    destruct (AutoHooks (config s)), (Hooks (config s)) as [[]|],
      (hooks_err env) as [e|]; run; run_deferred_calls; reflexivity.
  - apply git_init_bare_objects. apply Join_not_empty. exact Hname.
Qed.

(** *** The other answers of the dispatcher *)

Lemma default_services_methods (s : Server) (r : http_Request) :
  services s = default_services ->
  Method r <> "GET" -> Method r <> "POST" -> Method r <> "DELETE" ->
  findService s r = None.
Proof.
  intros Hs Hget Hpost Hdel. unfold findService. rewrite Hs.
  unfold default_services, findService_loop. cbn [method].
  destruct (String.eqb_spec "GET" (Method r)) as [E|_]; [symmetry in E; contradiction|].
  destruct (String.eqb_spec "POST" (Method r)) as [E|_]; [symmetry in E; contradiction|].
  destruct (String.eqb_spec "DELETE" (Method r)) as [E|_]; [symmetry in E; contradiction|].
  reflexivity.
Qed.

(** X4: with the service table of [New], a request whose method is none
    of GET, POST and DELETE is answered 403 [Forbidden], whatever its path,
    its headers and the configuration: nothing but the request is logged,
    no credential is read, the file system is not consulted and no handler
    is called. *)
Theorem other_methods_403 (s : Server) (r : http_Request)
  (fs0 : FS) (c : list string) :
  services s = default_services ->
  Method r <> "GET" -> Method r <> "POST" -> Method r <> "DELETE" ->
  ServeHTTP getNamespaceAndRepo subCommand parseBasicAuth env s r
    (initial_world fs0 c)
  = (Returned,
     mkWorld fs0 c
       (mkResponseWriter
          [("Content-Type", ["text/plain; charset=utf-8"]);
           ("X-Content-Type-Options", ["nosniff"])]
          (Some 403) ("Forbidden" ++ nl) None)
       [mkLog "info" "request" (Method r ++ " " ++ Host r ++ URL_String (Url r))]
       NoGroup "" [] []).
Proof.
  intros Hs Hget Hpost Hdel. unfold ServeHTTP.
  rewrite (default_services_methods s r Hs Hget Hpost Hdel). reflexivity.
Qed.

(** X5: a routed request whose derived repository name is empty, and
    which is not a listing request, is answered 400 before the
    authentication gate: even on a server that requires authentication the
    answer is 400 and not 401, no challenge is sent, the capability is not
    consulted and no handler is called. *)
Theorem empty_name_400 (s : Server) (r : http_Request) (svc : service)
  (p : string) (fs0 : FS) (c : list string) :
  findService s r = Some (svc, p) ->
  is_list_request r = false ->
  snd (getNamespaceAndRepo p) = "" ->
  ServeHTTP getNamespaceAndRepo subCommand parseBasicAuth env s r
    (initial_world fs0 c)
  = (Returned,
     mkWorld fs0 c (mkResponseWriter [] (Some 400) "" None)
       [ mkLog "info" "request" (Method r ++ " " ++ Host r ++ URL_String (Url r));
         mkLog "error" "auth" "no repo name provided" ]
       NoGroup "" [] []).
Proof.
  intros Hroute Hlist Hname. unfold ServeHTTP. rewrite Hroute.
  unfold is_list_request in Hlist.
  unfold bind at 1; cbn [logInfo modify]; unfold bind at 1; cbn [ret].
  destruct (getNamespaceAndRepo p) as [ns n]. cbn [snd] in Hname. subst n.
  rewrite Hlist. reflexivity.
Qed.

(** X6: on a server that requires authentication and has no capability
    installed, every routed, name-bearing request is answered 401, whatever
    its [Authorization] header: the header is not even read, the missing
    backend is logged and no handler is called. *)
Theorem no_backend_401 (s : Server) (r : http_Request) (svc : service)
  (p : string) (fs0 : FS) (c : list string) :
  findService s r = Some (svc, p) ->
  name_derived getNamespaceAndRepo r p = true ->
  Auth (config s) = true ->
  AuthFunc s = None ->
  ServeHTTP getNamespaceAndRepo subCommand parseBasicAuth env s r
    (initial_world fs0 c)
  = (Returned,
     mkWorld fs0 c (mkResponseWriter [] (Some 401) "" None)
       [ mkLog "info" "request" (Method r ++ " " ++ Host r ++ URL_String (Url r));
         mkLog "error" "auth" "no auth backend provided" ]
       NoGroup "" [] []).
Proof.
  intros Hroute Hname Hauth Hfn.
  enter_dispatch Hroute Hname. rewrite Hauth, Hfn. reflexivity.
Qed.

(** X7: for a routed, authenticated request outside the carve-out whose
    repository exists, the dispatcher checks existence twice and calls the
    handler; it never calls [initRepo], with auto-create or without, and
    leaves the file system as it found it. *)
Theorem existing_repository_dispatch (s : Server) (r : http_Request)
  (svc : service) (p : string) (fs0 : FS) (c : list string) :
  findService s r = Some (svc, p) ->
  name_derived getNamespaceAndRepo r p = true ->
  auth_passes parseBasicAuth s r (request_context getNamespaceAndRepo s r p) ->
  is_lifecycle_request r = false ->
  stat_ok fs0 c
    (Join [RepoPath (request_context getNamespaceAndRepo s r p); "objects"])
  = true ->
  let req := request_context getNamespaceAndRepo s r p in
  ServeHTTP getNamespaceAndRepo subCommand parseBasicAuth env s r
    (initial_world fs0 c)
  = invoke subCommand env s svc req
      (mkWorld fs0 c rw_empty
         [mkLog "info" "request" (Method r ++ " " ++ Host r ++ URL_String (Url r))]
         NoGroup ""
         [EvRepoExists (RepoPath req) true; EvRepoExists (RepoPath req) true] []).
Proof.
  intros Hroute Hname Hauth Hlife Hexists. cbv zeta.
  enter_dispatch Hroute Hname.
  unfold is_lifecycle_request in Hlife.
  cbv beta iota delta [orb andb] in Hlife.
  cbn [RepoPath RepoName] in *.
  pass_gate Hauth; rewrite Hlife; unfold repoExists, os_Stat;
    run; rewrite Hexists; run; rewrite Hexists; reflexivity.
Qed.

(** X8: for a routed, authenticated request outside the carve-out whose
    repository does not exist, on a server without auto-create, the answer
    is 404: nothing is created, the file system is unchanged and no handler
    is called. *)
Theorem missing_repository_404 (s : Server) (r : http_Request)
  (svc : service) (p : string) (fs0 : FS) (c : list string) :
  findService s r = Some (svc, p) ->
  name_derived getNamespaceAndRepo r p = true ->
  auth_passes parseBasicAuth s r (request_context getNamespaceAndRepo s r p) ->
  is_lifecycle_request r = false ->
  AutoCreate (config s) = false ->
  stat_ok fs0 c
    (Join [RepoPath (request_context getNamespaceAndRepo s r p); "objects"])
  = false ->
  let req := request_context getNamespaceAndRepo s r p in
  ServeHTTP getNamespaceAndRepo subCommand parseBasicAuth env s r
    (initial_world fs0 c)
  = (Returned,
     mkWorld fs0 c
       (mkResponseWriter
          [("Content-Type", ["text/plain; charset=utf-8"]);
           ("X-Content-Type-Options", ["nosniff"])]
          (Some 404) ("404 page not found" ++ nl) None)
       [ mkLog "info" "request" (Method r ++ " " ++ Host r ++ URL_String (Url r));
         mkLog "error" "repo-init" (RepoPath req ++ " does not exist") ]
       NoGroup ""
       [EvRepoExists (RepoPath req) false; EvRepoExists (RepoPath req) false] []).
Proof.
  intros Hroute Hname Hauth Hlife Hauto Hmissing. cbv zeta.
  enter_dispatch Hroute Hname.
  unfold is_lifecycle_request in Hlife.
  cbv beta iota delta [orb andb] in Hlife.
  cbn [RepoPath RepoName] in *.
  pass_gate Hauth; rewrite Hlife; unfold repoExists, os_Stat;
    run; rewrite Hmissing; run; rewrite Hauto; run; rewrite Hmissing; reflexivity.
Qed.


(** *** The answers of the protocol handlers *)

(** Reads the start events off an explicit trace. *)
Ltac start_events :=
  let argv0 := fresh "argv0" in
  let e0 := fresh "e0" in
  let Hin := fresh "Hin" in
  intros argv0 e0 Hin; cbn [In] in Hin;
  repeat (destruct Hin as [Hin | Hin]; [try discriminate Hin|]);
  try contradiction;
  injection Hin as <- <-; repeat split; reflexivity.

Ltac close_answer :=
  run; run_deferred_calls;
  repeat match goal with |- _ /\ _ => split end;
  first [reflexivity | start_events].

(** X9: the info/refs handler answers 404 when the [service] parameter
    of the query is neither [git-upload-pack] nor [git-receive-pack], and
    then starts nothing; 500 when the subprocess does not start; and 200
    with the advertisement media type of the service otherwise, whatever
    fails after the status is written.  The only command it ever starts is
    the configured executable with the sub-command of that service,
    [--stateless-rpc --advertise-refs] and the path of the repository; the
    RPC name of the service table is not used. *)
Theorem getInfoRefs_answers (s : Server) (a : string) (req : Request)
  (fs0 : FS) (c : list string) :
  let rpc := Query_Get (httpReq req) "service" in
  let valid := String.eqb rpc "git-upload-pack"
               || String.eqb rpc "git-receive-pack" in
  let w' := snd (call h_getInfoRefs (getInfoRefs subCommand env s a req)
                   (initial_world fs0 c)) in
  rw_status (resp w')
  = Some (if valid
          then match start_err env with None => 200 | Some _ => 500 end
          else 404)
  /\ rw_header (resp w')
     = (if valid
        then match start_err env with
             | None => protocol_header ("application/x-" ++ rpc ++ "-advertisement")
             | Some _ => plain_text_header
             end
        else plain_text_header)
  /\ forall argv e,
       In (EvStart argv e) (events w') ->
       valid = true
       /\ e = start_err env
       /\ argv = [ GitPath (config s); subCommand rpc; "--stateless-rpc";
                   "--advertise-refs"; RepoPath req ].
Proof.
  cbv zeta. destruct req as [hr name path].
  unfold call, getInfoRefs, cmd_Start, cmd_Wait, packLine, packFlush,
    io_Copy_out, gitCommand, protocol_header, plain_text_header.
  cbn [httpReq RepoPath].
  destruct (String.eqb (Query_Get hr "service") "git-upload-pack");
    [ | destruct (String.eqb (Query_Get hr "service") "git-receive-pack");
        [ | close_answer ] ].
  all: destruct (start_err env) as [e|]; [solve [close_answer] | ].
  all: destruct (packLine_err env) as [e|]; [solve [close_answer] | ].
  all: destruct (packFlush_err env) as [e|]; [solve [close_answer] | ].
  all: destruct (copy_out_err env) as [[n0 e0]|]; [solve [close_answer] | ].
  all: destruct (wait_err env); close_answer.
Qed.

(** X10: the stateless-RPC handler answers 500 exactly when something
    fails before output begins (the gzip reader of an encoded body, the
    standard input of the command, its start, the copy of the body), and
    that error is logged; otherwise it answers 200 with the result media
    type of the service, whatever fails during the copy of the output or
    the wait.  When nothing fails before the output, the subprocess has
    read the body of the request, decompressed exactly when the request
    says [Content-Encoding: gzip]; its command line is the configured
    executable, the sub-command of the service, [--stateless-rpc] and the
    path of the repository. *)
Theorem postRPC_answers (s : Server) (rpc : string) (req : Request)
  (fs0 : FS) (c : list string) :
  let gzipped := String.eqb (Header_Get (httpReq req) "Content-Encoding") "gzip" in
  let failed := pre_stream_error env gzipped in
  let w' := snd (call h_postRPC (postRPC subCommand env s rpc req)
                   (initial_world fs0 c)) in
  rw_status (resp w')
  = Some (match failed with None => 200 | Some _ => 500 end)
  /\ rw_header (resp w')
     = match failed with
       | None => protocol_header ("application/x-" ++ rpc ++ "-result")
       | Some _ => plain_text_header
       end
  /\ proc_stdin w'
     = match failed with
       | None => if gzipped then gunzip env (Body (httpReq req))
                 else Body (httpReq req)
       | Some _ => ""
       end
  /\ (forall e, failed = Some e -> logs w' = [mkLog "error" "post-rpc" e])
  /\ forall argv e,
       In (EvStart argv e) (events w') ->
       e = start_err env
       /\ argv = [ GitPath (config s); subCommand rpc; "--stateless-rpc";
                   RepoPath req ].
Proof.
  cbv zeta. destruct req as [hr name path].
  unfold call, postRPC, cmd_Start, cmd_Wait, io_Copy_out, io_Copy_in,
    gitCommand, protocol_header, plain_text_header, pre_stream_error,
    first_error.
  cbn [httpReq RepoPath fold_right].
  assert (Hlog : forall x y : string,
             Some x = Some y ->
             [mkLog "error" "post-rpc" x] = [mkLog "error" "post-rpc" y])
    by (intros x y [= ->]; reflexivity).
  destruct (String.eqb (Header_Get hr "Content-Encoding") "gzip");
    [ destruct (gzip_err env) as [e|] | ].
  all: try solve [ run; run_deferred_calls;
                   repeat match goal with |- _ /\ _ => split end;
                   first [ reflexivity | intros x Hx; apply Hlog; exact Hx
                         | start_events ] ].
  all: destruct (stdin_pipe_err env) as [e|];
    [ solve [ run; run_deferred_calls;
              repeat match goal with |- _ /\ _ => split end;
              first [ reflexivity | intros x Hx; apply Hlog; exact Hx
                    | start_events ] ] | ].
  all: destruct (start_err env) as [e|];
    [ solve [ run; run_deferred_calls;
              repeat match goal with |- _ /\ _ => split end;
              first [ reflexivity | intros x Hx; apply Hlog; exact Hx
                    | start_events ] ] | ].
  all: destruct (copy_in_err env) as [e|];
    [ solve [ run; run_deferred_calls;
              repeat match goal with |- _ /\ _ => split end;
              first [ reflexivity | intros x Hx; apply Hlog; exact Hx
                    | start_events ] ] | ].
  all: destruct (copy_out_err env) as [[n0 e0]|]; [ | destruct (wait_err env) ].
  all: run; run_deferred_calls;
    repeat match goal with |- _ /\ _ => split end;
    first [ reflexivity | intros x Hx; discriminate Hx | start_events ].
Qed.


(** One exit path: the subprocess was started and cleaned up, or nothing
    was started. *)
Ltac not_in_trace :=
  let H := fresh "H" in
  cbn [In]; intros H;
  repeat (destruct H as [H | H]; [discriminate H|]); exact H.

Ltac close_dichotomy :=
  run; run_deferred_calls;
  eexists; split; [reflexivity|];
  first
    [ left; split; [eexists; cbn [In]; solve [eauto 12] | cbn [In]; solve [auto 12]]
    | right; split; [reflexivity|]; split; [not_in_trace | intros ?; not_in_trace] ].

(** X11: the protocol handlers signal a process group only if they
    started it: each call either started the subprocess and then cleaned
    its group up, or started nothing, in which case no clean-up runs and
    the state of the group is the one before the call. *)
Theorem cleanup_only_after_start (s : Server) (a : string) (req : Request)
  (w : World) :
  started_or_untouched w
    (snd (call h_getInfoRefs (getInfoRefs subCommand env s a req) w))
  /\ started_or_untouched w
       (snd (call h_postRPC (postRPC subCommand env s a req) w)).
Proof.
  destruct w as [f0 c0 [hd st bd en] lg g pin ev df]. split.
  - unfold started_or_untouched, call, getInfoRefs, cmd_Start, cmd_Wait,
      packLine, packFlush, io_Copy_out, gitCommand.
    destruct (String.eqb (Query_Get (httpReq req) "service") "git-upload-pack");
      [ | destruct (String.eqb (Query_Get (httpReq req) "service") "git-receive-pack");
          [ | close_dichotomy ] ].
    all: destruct (start_err env) as [e|]; [solve [close_dichotomy] | ].
    all: destruct (packLine_err env) as [e|]; [solve [close_dichotomy] | ].
    all: destruct (packFlush_err env) as [e|]; [solve [close_dichotomy] | ].
    all: destruct (copy_out_err env) as [[n0 e0]|]; [solve [close_dichotomy] | ].
    all: destruct (wait_err env); close_dichotomy.
  - unfold started_or_untouched, call, postRPC, cmd_Start, cmd_Wait,
      io_Copy_out, io_Copy_in, gitCommand.
    destruct (String.eqb (Header_Get (httpReq req) "Content-Encoding") "gzip");
      [ destruct (gzip_err env) as [e|]; [solve [close_dichotomy] | ] | ].
    all: destruct (stdin_pipe_err env) as [e|]; [solve [close_dichotomy] | ].
    all: destruct (start_err env) as [e|]; [solve [close_dichotomy] | ].
    all: destruct (copy_in_err env) as [e|]; [solve [close_dichotomy] | ].
    all: destruct (copy_out_err env) as [[n0 e0]|]; [solve [close_dichotomy] | ].
    all: destruct (wait_err env); close_dichotomy.
Qed.

Ltac find_closes :=
  first
    [ eexists []; reflexivity
    | eexists [_]; reflexivity
    | eexists [_; _]; reflexivity
    | eexists [_; _; _]; reflexivity
    | eexists [_; _; _; _]; reflexivity
    | eexists [_; _; _; _; _]; reflexivity ].

Ltac close_pipes :=
  run; run_deferred_calls;
  eexists; split; [reflexivity|];
  let argv0 := fresh "argv0" in
  let e0 := fresh "e0" in
  let Hin := fresh "Hin" in
  intros argv0 e0 Hin; cbn [In] in Hin;
  repeat (destruct Hin as [Hin | Hin]; [try discriminate Hin|]);
  first [contradiction | find_closes].

(** X12: once the stateless-RPC handler has tried to start its command,
    whether the start succeeded or not and whatever fails later, the last
    things it does before it returns are to close the standard input of
    the command and then its output pipe. *)
Theorem postRPC_closes_pipes (s : Server) (rpc : string) (req : Request)
  (w : World) :
  exists new,
    events (snd (call h_postRPC (postRPC subCommand env s rpc req) w))
    = (events w ++ new)%list
    /\ forall argv e,
         In (EvStart argv e) new ->
         exists pre,
           new = (pre ++ [ EvClose d_stdin_Close; EvClose d_pipe_Close;
                           EvHandlerReturn h_postRPC ])%list.
Proof.
  destruct w as [f0 c0 [hd st bd en] lg g pin ev df].
  unfold call, postRPC, cmd_Start, cmd_Wait, io_Copy_out, io_Copy_in, gitCommand.
  destruct (String.eqb (Header_Get (httpReq req) "Content-Encoding") "gzip");
    [ destruct (gzip_err env) as [e|]; [solve [close_pipes] | ] | ].
  all: destruct (stdin_pipe_err env) as [e|]; [solve [close_pipes] | ].
  all: destruct (start_err env) as [e|]; [solve [close_pipes] | ].
  all: destruct (copy_in_err env) as [e|]; [solve [close_pipes] | ].
  all: destruct (copy_out_err env) as [[n0 e0]|]; [solve [close_pipes] | ].
  all: destruct (wait_err env); close_pipes.
Qed.


(** *** Deleting a repository *)

Lemma deleteRepo_absent (s : Server) (a : string) (req : Request)
  (fs0 : FS) (c : list string) :
  RepoName req <> "" ->
  stat_ok fs0 c (Join [Dir (config s); RepoName req]) = false ->
  exists e,
    call h_deleteRepo (deleteRepo env s a req) (initial_world fs0 c)
    = (Next tt,
       mkWorld fs0 c
         (mkResponseWriter plain_text_header (Some 500)
            ("Internal server error" ++ nl) None)
         [mkLog "error" "find repo" e] NoGroup ""
         [EvHandlerReturn h_deleteRepo] []).
Proof.
  destruct req as [hr name path]. cbn [RepoName]. intros Hname Habsent.
  unfold call, deleteRepo, os_Stat. cbn [RepoName].
  destruct (String.eqb_spec name ""); [contradiction|].
  run. rewrite Habsent. eexists. run_deferred_calls. reflexivity.
Qed.

Lemma deleteRepo_present (s : Server) (a : string) (req : Request)
  (fs0 : FS) (c : list string) :
  RepoName req <> "" ->
  stat_ok fs0 c (Join [Dir (config s); RepoName req]) = true ->
  removeAll_err env = None ->
  call h_deleteRepo (deleteRepo env s a req) (initial_world fs0 c)
  = (Next tt,
     mkWorld (remove_all fs0 c (Join [Dir (config s); RepoName req])) c
       (mkResponseWriter [("Content-Type", ["application/json"])] (Some 202) ""
          (Some (mkKitResponse 202 (KitRepoResponse (RepoName req)))))
       [] NoGroup "" [EvHandlerReturn h_deleteRepo] []).
Proof.
  destruct req as [hr name path]. cbn [RepoName]. intros Hname Hpresent Hrm.
  unfold call, deleteRepo, os_Stat. cbn [RepoName].
  destruct (String.eqb_spec name ""); [contradiction|].
  run. rewrite Hpresent, Hrm. run. run_deferred_calls. reflexivity.
Qed.

(** X13: [deleteRepo] refuses a request without name with 400 and a
    request whose target does not exist with 500: in both cases the file
    system is left as it was; the 400 carries the envelope, the 500
    none. *)
Theorem deleteRepo_refuses (s : Server) (a : string) (req : Request)
  (fs0 : FS) (c : list string) :
  RepoName req = ""
  \/ stat_ok fs0 c (Join [Dir (config s); RepoName req]) = false ->
  let w' := snd (call h_deleteRepo (deleteRepo env s a req)
                   (initial_world fs0 c)) in
  fs w' = fs0
  /\ rw_status (resp w')
     = Some (if String.eqb (RepoName req) "" then 400 else 500)
  /\ rw_envelope (resp w')
     = (if String.eqb (RepoName req) ""
        then Some (mkKitResponse 400 (KitRepoResponse (RepoName req)))
        else None)
  /\ events w' = [EvHandlerReturn h_deleteRepo].
Proof.
  intros Hrefuse. cbv zeta.
  destruct (String.eqb_spec (RepoName req) "") as [Hname | Hname].
  - destruct req as [hr name path]. cbn [RepoName] in *. subst name.
    unfold call, deleteRepo. cbn [RepoName]. run. run_deferred_calls.
    repeat split; reflexivity.
  - destruct Hrefuse as [Hempty | Habsent]; [contradiction|].
    destruct (deleteRepo_absent s a req fs0 c Hname Habsent) as [e He].
    rewrite He. repeat split; reflexivity.
Qed.

(** X14: [deleteRepo] on a named target that exists, when the removal
    succeeds, answers 202 with the name; afterwards [repoExists] fails on
    the target, and every path name that resolves outside the removed tree
    is found, or not found, as before. *)
Theorem deleteRepo_removes (s : Server) (a : string) (req : Request)
  (fs0 : FS) (c : list string) :
  RepoName req <> "" ->
  stat_ok fs0 c (Join [Dir (config s); RepoName req]) = true ->
  removeAll_err env = None ->
  let target := Join [Dir (config s); RepoName req] in
  let w' := snd (call h_deleteRepo (deleteRepo env s a req)
                   (initial_world fs0 c)) in
  rw_status (resp w') = Some 202
  /\ rw_envelope (resp w')
     = Some (mkKitResponse 202 (KitRepoResponse (RepoName req)))
  /\ stat_ok (fs w') (cwd w') (Join [target; "objects"]) = false
  /\ forall p q q',
       resolve c target = Some q -> resolve c p = Some q' ->
       is_prefix q q' = false ->
       stat_ok (fs w') (cwd w') p = stat_ok fs0 c p.
Proof.
  intros Hname Hpresent Hrm. cbv zeta.
  rewrite (deleteRepo_present s a req fs0 c Hname Hpresent Hrm).
  cbn [snd fs cwd resp rw_status rw_envelope].
  split; [reflexivity|]. split; [reflexivity|]. split.
  - apply remove_all_objects. apply Join_not_empty. exact Hname.
  - intros p q q' Hq Hq' Hout. apply (remove_all_outside fs0 c _ p q q'); assumption.
Qed.

(** X15: deleting is not idempotent: after a successful [deleteRepo] of a
    target other than the root of the file system, the same request is
    answered 500 and changes nothing. *)
Theorem deleteRepo_twice (s : Server) (a : string) (req : Request)
  (fs0 : FS) (c : list string) :
  RepoName req <> "" ->
  stat_ok fs0 c (Join [Dir (config s); RepoName req]) = true ->
  removeAll_err env = None ->
  resolve c (Join [Dir (config s); RepoName req]) <> Some [] ->
  let w1 := snd (call h_deleteRepo (deleteRepo env s a req)
                   (initial_world fs0 c)) in
  let w2 := snd (call h_deleteRepo (deleteRepo env s a req)
                   (initial_world (fs w1) (cwd w1))) in
  rw_status (resp w1) = Some 202
  /\ rw_status (resp w2) = Some 500
  /\ fs w2 = fs w1.
Proof.
  intros Hname Hpresent Hrm Hroot. cbv zeta.
  rewrite (deleteRepo_present s a req fs0 c Hname Hpresent Hrm).
  cbn [snd fs cwd resp rw_status].
  split; [reflexivity|].
  assert (Hne : Join [Dir (config s); RepoName req] <> "")
    by (apply Join_not_empty; exact Hname).
  destruct (resolve_some c _ Hne) as [q Hq].
  assert (Hgone : stat_ok (remove_all fs0 c (Join [Dir (config s); RepoName req])) c
                    (Join [Dir (config s); RepoName req]) = false).
  { apply (remove_all_target fs0 c _ q Hq). intros ->. apply Hroot. exact Hq. }
  destruct (deleteRepo_absent s a req _ c Hname Hgone) as [e He].
  rewrite He. split; reflexivity.
Qed.


(** *** Listing in any working directory *)

Lemma git_leaves_entries (f : FS) (c : list string) (d : DirEntry)
  (subDirs : list DirEntry) :
  IsDir d = true -> read_dir f c (Name d) = inl subDirs ->
  Forall (listing_entry f c [d]) (git_leaves (Name d) subDirs).
Proof.
  intros Hd Hread. unfold git_leaves. apply Forall_forall. intros x Hx.
  apply in_map_iff in Hx. destruct Hx as (e & <- & He).
  apply filter_In in He. destruct He as (He & Hkeep).
  apply andb_true_iff in Hkeep. destruct Hkeep as (Hdir & Hsuf).
  exists d, e, subDirs. repeat split; try assumption. left. reflexivity.
Qed.

Lemma listing_entry_mono (f : FS) (c : list string) (dirs dirs' : list DirEntry)
  (x : string) :
  incl dirs dirs' -> listing_entry f c dirs x -> listing_entry f c dirs' x.
Proof.
  intros Hincl (d & e & sub & Hd & H). exists d, e, sub.
  split; [apply Hincl; exact Hd | exact H].
Qed.

(** The loop of [listRepo] either runs to its end, leaving the world as
    it was and adding only entries of the listing, or leaves the handler
    through [fail500]. *)
Lemma listRepo_dirs_outcome (dirs : list DirEntry) (repos : list string)
  (w : World) :
  (exists l, listRepo_dirs dirs repos w = (Next (repos ++ l)%list, w)
             /\ Forall (listing_entry (fs w) (cwd w) dirs) l)
  \/ (exists e, listRepo_dirs dirs repos w
                = (Returned, snd (fail500 "list repo" e w))).
Proof.
  revert repos. induction dirs as [|d rest IH]; intros repos.
  - left. exists []. cbn. rewrite app_nil_r. split; [reflexivity | constructor].
  - cbn [listRepo_dirs]. destruct (IsDir d) eqn:Hd.
    + unfold os_ReadDir. cbv beta iota delta [bind gets].
      destruct (read_dir (fs w) (cwd w) (Name d)) as [sub|e] eqn:Hread.
      * destruct (IH (listRepo_subDirs d sub repos)) as [(l & Hl & Hall) | (e & He)].
        -- left. exists (git_leaves (Name d) sub ++ l)%list. split.
           ++ rewrite Hl, listRepo_subDirs_spec, <- app_assoc. reflexivity.
           ++ apply Forall_app. split.
              ** eapply Forall_impl; [|apply (git_leaves_entries _ _ d sub Hd Hread)].
                 intros x. apply listing_entry_mono.
                 intros y [<-|[]]. left. reflexivity.
              ** eapply Forall_impl; [|exact Hall].
                 intros x. apply listing_entry_mono. apply incl_tl, incl_refl.
        -- right. exists e. exact He.
      * right. exists e.
        destruct w as [f0 c0 [hd st bd en] lg g pin ev df]. reflexivity.
    + destruct (IH repos) as [(l & Hl & Hall) | (e & He)].
      * left. exists l. split; [exact Hl|].
        eapply Forall_impl; [|exact Hall].
        intros x. apply listing_entry_mono. apply incl_tl, incl_refl.
      * right. exists e. exact He.
Qed.

(** X16: with a filter installed, [listRepo] answers 500 without
    envelope, or 200 with the filtered listing: every entry handed to the
    filter joins a directory of the root, read by its bare name from the
    working directory, with one of its subdirectories whose name ends in
    [.git].  The file system is never changed. *)
Theorem listRepo_answers (s : Server) (a : string) (r : Request)
  (filter : list string -> Request -> list string) (f : FS) (c : list string) :
  FilterRepoFunc s = Some filter ->
  let out := call h_listRepo (listRepo s a r) (initial_world f c) in
  fst out = Next tt
  /\ fs (snd out) = f
  /\ ((rw_status (resp (snd out)) = Some 500
       /\ rw_envelope (resp (snd out)) = None)
      \/ exists dirs repos,
           read_dir f c (Dir (config s)) = inl dirs
           /\ Forall (listing_entry f c dirs) repos
           /\ rw_status (resp (snd out)) = Some 200
           /\ rw_envelope (resp (snd out))
              = Some (mkKitResponse 200 (KitListRepoResponse (filter repos r)))).
Proof.
  intros Hfilter. cbv zeta. unfold call, listRepo, os_ReadDir.
  rewrite Hfilter. run.
  destruct (read_dir f c (Dir (config s))) as [dirs|e] eqn:Hread.
  - destruct (listRepo_dirs_outcome dirs []
                (mkWorld f c (mkResponseWriter [] None "" None) [] NoGroup "" [] []))
      as [(l & Hl & Hall) | (e & He)].
    + cbn [fs cwd app] in Hl, Hall. rewrite Hl. run. run_deferred_calls.
      split; [reflexivity|]. split; [reflexivity|]. right.
      exists dirs, l. repeat split; try reflexivity. exact Hall.
    + rewrite He. run. run_deferred_calls.
      split; [reflexivity|]. split; [reflexivity|]. left. split; reflexivity.
  - run. run_deferred_calls.
    split; [reflexivity|]. split; [reflexivity|]. left. split; reflexivity.
Qed.

(** X17: a server without [FilterRepoFunc] never answers a listing:
    [listRepo] answers 500 when the scan fails and panics on the nil
    function, with nothing written, when the scan succeeds; no envelope is
    produced either way. *)
Theorem listRepo_without_filter (s : Server) (a : string) (r : Request)
  (f : FS) (c : list string) :
  FilterRepoFunc s = None ->
  let out := call h_listRepo (listRepo s a r) (initial_world f c) in
  rw_envelope (resp (snd out)) = None
  /\ ((fst out = Next tt /\ rw_status (resp (snd out)) = Some 500)
      \/ (exists msg, fst out = Panicked msg)
         /\ rw_status (resp (snd out)) = None
         /\ exists dirs, read_dir f c (Dir (config s)) = inl dirs).
Proof.
  intros Hfilter. cbv zeta. unfold call, listRepo, os_ReadDir.
  rewrite Hfilter. run.
  destruct (read_dir f c (Dir (config s))) as [dirs|e] eqn:Hread.
  - destruct (listRepo_dirs_outcome dirs []
                (mkWorld f c (mkResponseWriter [] None "" None) [] NoGroup "" [] []))
      as [(l & Hl & Hall) | (e & He)].
    + rewrite Hl. run. run_deferred_calls.
      split; [reflexivity|]. right.
      split; [eexists; reflexivity|]. split; [reflexivity|].
      exists dirs. reflexivity.
    + rewrite He. run. run_deferred_calls.
      split; [reflexivity|]. left. split; reflexivity.
  - run. run_deferred_calls.
    split; [reflexivity|]. left. split; reflexivity.
Qed.


(** *** Credentials, whatever the header *)

(** X18: [getCredential] fails exactly when the [Authorization] header is
    empty, whatever the parser of basic credentials; and a credential
    never carries both a token and a user name or password. *)
Theorem getCredential_error_iff_no_header (r : http_Request) :
  snd (getCredential parseBasicAuth r)
  = (if String.eqb (Header_Get r "Authorization") ""
     then Some "authentication failed" else None)
  /\ (Token (fst (getCredential parseBasicAuth r)) = ""
      \/ Username (fst (getCredential parseBasicAuth r)) = ""
         /\ Password (fst (getCredential parseBasicAuth r)) = "").
Proof.
  unfold getCredential, BasicAuth, tokenAuth.
  destruct (String.eqb (Header_Get r "Authorization") "").
  - split; [reflexivity | left; reflexivity].
  - destruct (parseBasicAuth (Header_Get r "Authorization")) as [[user pass]|].
    + split; [reflexivity | left; reflexivity].
    + split; [reflexivity | right; split; reflexivity].
Qed.

(** *** Creating and deleting in sequence *)

Lemma createRepo_existing (s : Server) (a : string) (req : Request)
  (fs0 : FS) (c : list string) :
  stat_ok fs0 c (Join [RepoPath req; "objects"]) = true ->
  call h_createRepo (createRepo env s a req) (initial_world fs0 c)
  = (Next tt,
     mkWorld fs0 c
       (mkResponseWriter [("Content-Type", ["application/json"])] (Some 409) ""
          (Some (mkKitResponse 409 (KitRepoResponse (RepoName req)))))
       [] NoGroup ""
       [EvRepoExists (RepoPath req) true; EvHandlerReturn h_createRepo] []).
Proof.
  destruct req as [hr name path]. cbn [RepoName RepoPath]. intros Hexists.
  unfold call, createRepo, repoExists, os_Stat. run. rewrite Hexists.
  run. run_deferred_calls. reflexivity.
Qed.

Lemma createRepo_fresh (s : Server) (a : string) (req : Request)
  (fs0 : FS) (c : list string) :
  stat_ok fs0 c (Join [RepoPath req; "objects"]) = false ->
  git_init_err env = None ->
  exists rw lg ev,
    call h_createRepo (createRepo env s a req) (initial_world fs0 c)
    = (Next tt,
       mkWorld (git_init_bare fs0 c (Join [Dir (config s); RepoName req])) c
         rw lg NoGroup "" ev [])
    /\ (rw_status rw = Some 201 \/ rw_status rw = Some 500).
Proof.
  destruct req as [hr name path]. cbn [RepoName RepoPath]. intros Hmissing Hinit.
  unfold call, createRepo, repoExists, initRepo, run_git_init,
    Hooks_setupInDir, os_Stat.
  run. rewrite Hmissing. run. rewrite Hinit.
  destruct (AutoHooks (config s)), (Hooks (config s)) as [[]|],
    (hooks_err env) as [e|]; run; run_deferred_calls;
    do 3 eexists; (split; [reflexivity|]); cbn [rw_status]; auto.
Qed.

(** X19: creating is not repeatable: when [git init] succeeds, after one
    [createRepo] for a path that is the root joined with the name, the same
    request is answered 409, [initRepo] is not called again and the file
    system stays as the first call left it. *)
Theorem createRepo_twice (s : Server) (a : string) (req : Request)
  (fs0 : FS) (c : list string) :
  RepoName req <> "" ->
  RepoPath req = Join [Dir (config s); RepoName req] ->
  git_init_err env = None ->
  let w1 := snd (call h_createRepo (createRepo env s a req)
                   (initial_world fs0 c)) in
  let w2 := snd (call h_createRepo (createRepo env s a req)
                   (initial_world (fs w1) (cwd w1))) in
  rw_status (resp w2) = Some 409
  /\ fs w2 = fs w1
  /\ events w2 = [EvRepoExists (RepoPath req) true; EvHandlerReturn h_createRepo].
Proof.
  intros Hname Hpath Hinit. cbv zeta.
  assert (Hafter : stat_ok
            (fs (snd (call h_createRepo (createRepo env s a req) (initial_world fs0 c))))
            (cwd (snd (call h_createRepo (createRepo env s a req) (initial_world fs0 c))))
            (Join [RepoPath req; "objects"]) = true).
  { destruct (stat_ok fs0 c (Join [RepoPath req; "objects"])) eqn:Hbefore.
    - rewrite (createRepo_existing s a req fs0 c Hbefore). exact Hbefore.
    - destruct (createRepo_fresh s a req fs0 c Hbefore Hinit)
        as (rw & lg & ev & Hrun & _).
      rewrite Hrun. cbn [snd fs cwd]. rewrite Hpath.
      apply git_init_bare_objects. apply Join_not_empty. exact Hname. }
  rewrite (createRepo_existing s a req _ _ Hafter).
  repeat split; reflexivity.
Qed.

(** X20: a repository created by [createRepo] can be deleted by
    [deleteRepo] with the same request, after which it does not exist and
    [createRepo] initialises it again instead of answering 409. *)
Theorem create_delete_create (s : Server) (a : string) (req : Request)
  (fs0 : FS) (c : list string) :
  RepoName req <> "" ->
  RepoPath req = Join [Dir (config s); RepoName req] ->
  stat_ok fs0 c (Join [RepoPath req; "objects"]) = false ->
  git_init_err env = None ->
  removeAll_err env = None ->
  let w1 := snd (call h_createRepo (createRepo env s a req)
                   (initial_world fs0 c)) in
  let w2 := snd (call h_deleteRepo (deleteRepo env s a req)
                   (initial_world (fs w1) (cwd w1))) in
  let w3 := snd (call h_createRepo (createRepo env s a req)
                   (initial_world (fs w2) (cwd w2))) in
  rw_status (resp w2) = Some 202
  /\ stat_ok (fs w2) (cwd w2) (Join [RepoPath req; "objects"]) = false
  /\ (rw_status (resp w3) = Some 201 \/ rw_status (resp w3) = Some 500)
  /\ stat_ok (fs w3) (cwd w3) (Join [RepoPath req; "objects"]) = true.
Proof.
  intros Hname Hpath Hmissing Hinit Hrm. cbv zeta.
  assert (Hne : Join [Dir (config s); RepoName req] <> "")
    by (apply Join_not_empty; exact Hname).
  destruct (createRepo_fresh s a req fs0 c Hmissing Hinit)
    as (rw & lg & ev & Hrun & _).
  rewrite Hrun. cbn [snd fs cwd].
  rewrite (deleteRepo_present s a req _ c Hname
             (git_init_bare_dir fs0 c _ Hne) Hrm).
  cbn [snd fs cwd resp rw_status].
  assert (Hgone : stat_ok
            (remove_all (git_init_bare fs0 c (Join [Dir (config s); RepoName req])) c
               (Join [Dir (config s); RepoName req]))
            c (Join [RepoPath req; "objects"]) = false).
  { rewrite Hpath. apply remove_all_objects. exact Hne. }
  split; [reflexivity|]. split; [exact Hgone|].
  destruct (createRepo_fresh s a req _ c Hgone Hinit)
    as (rw3 & lg3 & ev3 & Hrun3 & Hstatus).
  rewrite Hrun3. cbn [snd fs cwd resp]. split; [exact Hstatus|].
  rewrite Hpath. apply git_init_bare_objects. exact Hne.
Qed.


(** X21: a DELETE for a repository that does not exist, on a server with
    auto-create, creates the repository and deletes it again: the
    dispatcher runs [git init] before it calls [deleteRepo], the answer is
    202 and not an error, and the file system ends without the
    repository. *)
Theorem auto_create_then_delete (s : Server) (r : http_Request)
  (svc : service) (p : string) (fs0 : FS) (c : list string) :
  findService s r = Some (svc, p) ->
  handler svc = h_deleteRepo ->
  Method r = "DELETE" ->
  snd (getNamespaceAndRepo p) <> "" ->
  HasPrefix (if String.eqb (fst (getNamespaceAndRepo p)) ""
             then snd (getNamespaceAndRepo p)
             else fst (getNamespaceAndRepo p)) "/" = false ->
  auth_passes parseBasicAuth s r (request_context getNamespaceAndRepo s r p) ->
  AutoCreate (config s) = true ->
  stat_ok fs0 c
    (Join [RepoPath (request_context getNamespaceAndRepo s r p); "objects"])
  = false ->
  git_init_err env = None ->
  removeAll_err env = None ->
  let req := request_context getNamespaceAndRepo s r p in
  let fs1 := git_init_bare fs0 c (RepoPath req) in
  let hooks := match AutoHooks (config s), Hooks (config s) with
               | true, Some _ => hooks_err env
               | _, _ => None
               end in
  ServeHTTP getNamespaceAndRepo subCommand parseBasicAuth env s r
    (initial_world fs0 c)
  = (Next tt,
     mkWorld (remove_all fs1 c (RepoPath req)) c
       (mkResponseWriter [("Content-Type", ["application/json"])] (Some 202) ""
          (Some (mkKitResponse 202 (KitRepoResponse (RepoName req)))))
       (mkLog "info" "request" (Method r ++ " " ++ Host r ++ URL_String (Url r))
        :: match hooks with
           | Some e => [mkLog "error" "repo-init" e]
           | None => []
           end)
       NoGroup ""
       [ EvRepoExists (RepoPath req) false;
         EvInitRepo (RepoName req);
         EvExecRun [GitPath (config s); "init"; "--bare"; RepoPath req] None;
         EvRepoExists (RepoPath req) true;
         EvHandler h_deleteRepo (rpc svc) req;
         EvHandlerReturn h_deleteRepo ] [])
  /\ stat_ok (remove_all fs1 c (RepoPath req)) c
       (Join [RepoPath req; "objects"]) = false.
Proof.
  intros Hroute Hhandler Hmeth Hleaf Hrel Hauth Hauto Hmissing Hinit Hrm.
  assert (Hname : name_derived getNamespaceAndRepo r p = true).
  { unfold name_derived. destruct (String.eqb_spec (snd (getNamespaceAndRepo p)) "");
      [contradiction | apply orb_true_r]. }
  assert (Hlife : is_lifecycle_request r = false).
  { unfold is_lifecycle_request. rewrite Hmeth. reflexivity. }
  assert (Hpath : RepoPath (request_context getNamespaceAndRepo s r p)
                  = Join [Dir (config s);
                          RepoName (request_context getNamespaceAndRepo s r p)]).
  { unfold request_context. destruct (getNamespaceAndRepo p) as [ns n].
    cbn [fst snd RepoPath RepoName] in *. symmetry. apply Join_nested. exact Hrel. }
  assert (Hreq : RepoName (request_context getNamespaceAndRepo s r p) <> "").
  { unfold request_context. destruct (getNamespaceAndRepo p) as [ns n].
    cbn [RepoName snd] in *. apply Join_not_empty. exact Hleaf. }
  assert (Hne : RepoPath (request_context getNamespaceAndRepo s r p) <> "").
  { rewrite Hpath. apply Join_not_empty. exact Hreq. }
  pose proof (git_init_bare_objects fs0 c _ Hne) as Hcreated.
  pose proof (git_init_bare_dir fs0 c _ Hne) as Hdir.
  pose proof (remove_all_objects
                (git_init_bare fs0 c
                   (RepoPath (request_context getNamespaceAndRepo s r p)))
                c _ Hne) as Hgone.
  cbv zeta. split; [|exact Hgone]. clear Hgone.
  enter_dispatch Hroute Hname.
  unfold is_lifecycle_request in Hlife.
  cbv beta iota delta [orb andb] in Hlife.
  cbn [RepoPath RepoName fst snd] in *.
  pass_gate Hauth; rewrite Hlife;
    unfold repoExists, initRepo, run_git_init, Hooks_setupInDir, os_Stat;
    run; rewrite Hmissing; run; rewrite Hauto, Hinit; run;
    rewrite <- Hpath;
    (destruct (AutoHooks (config s)), (Hooks (config s)) as [[]|],
       (hooks_err env) as [e|]);
    run; rewrite Hcreated; run;
    unfold invoke, call, handler_body; rewrite Hhandler;
    unfold deleteRepo, os_Stat; cbn [RepoName];
    match goal with
    | |- context [String.eqb ?x ""] =>
        destruct (String.eqb_spec x ""); [contradiction|]
    end;
    run; rewrite <- Hpath, Hdir, Hrm; run; run_deferred_calls;
    reflexivity.
Qed.


(** *** The dispatcher answers itself or hands over *)

Ltac no_handler :=
  let Hin := fresh "Hin" in
  intros ? ? ? Hin; cbn in Hin;
  repeat (destruct Hin as [Hin|Hin]; [discriminate Hin|]); exact Hin.

(** The dispatcher has answered the request itself. *)
Ltac answers_itself :=
  intros [= <- <-]; left; split; [reflexivity|]; split;
  [eexists; split; [reflexivity | cbn; tauto] |];
  split; [reflexivity | no_handler].

(** The dispatcher has called the handler of [svc]. *)
Ltac hands_over svc p Hg :=
  let Hinv := fresh "Hinv" in
  match goal with
  | |- context [invoke ?a ?b ?c ?d ?e ?w] =>
      destruct (invoke a b c d e w) as [[ | | ] ?w1] eqn:Hinv; run;
      intros [= <- <-]; right; exists svc, p, w;
      (split; [reflexivity|]); (split; [reflexivity|]);
      (split; [no_handler|]);
      unfold request_context; rewrite Hg; cbv beta iota;
      rewrite Hinv; reflexivity
  end.

(** X22: on every request the dispatcher does one of two things.  Either
    it answers itself, with 400, 401, 403 or 404, without envelope and
    without calling any handler; or it calls the handler of the matched
    service, on the request context it built, having written nothing to the
    response and called no handler before: the response of a dispatched
    request is the handler's alone. *)
Theorem ServeHTTP_answers_or_hands_over (s : Server) (r : http_Request)
  (fs0 : FS) (c : list string) :
  let out := ServeHTTP getNamespaceAndRepo subCommand parseBasicAuth env s r
               (initial_world fs0 c) in
  (fst out = Returned
   /\ (exists code, rw_status (resp (snd out)) = Some code
                    /\ In code [400; 401; 403; 404])
   /\ rw_envelope (resp (snd out)) = None
   /\ forall h a q, ~ In (EvHandler h a q) (events (snd out)))
  \/ (exists svc p w,
        findService s r = Some (svc, p)
        /\ resp w = rw_empty
        /\ (forall h a q, ~ In (EvHandler h a q) (events w))
        /\ snd out
           = snd (invoke subCommand env s svc
                    (request_context getNamespaceAndRepo s r p) w)).
Proof.
  cbv zeta.
  destruct (ServeHTTP getNamespaceAndRepo subCommand parseBasicAuth env s r
              (initial_world fs0 c)) as [fl w] eqn:Hrun.
  revert Hrun. unfold ServeHTTP.
  destruct (findService s r) as [[svc p]|] eqn:Hroute; [|run; answers_itself].
  unfold bind at 1; cbn [logInfo modify]; unfold bind at 1; cbn [ret].
  destruct (getNamespaceAndRepo p) as [ns n] eqn:Hg.
  unfold repoExists, initRepo, run_git_init, Hooks_setupInDir, os_Stat.
  match goal with
  | |- context [if AutoHooks (config s) then ?X else ?Y] =>
      replace (if AutoHooks (config s) then X else Y)
        with (ret (match AutoHooks (config s), Hooks (config s) with
                   | true, Some _ => hooks_err env
                   | _, _ => None
                   end))
        by (destruct (AutoHooks (config s)), (Hooks (config s)) as [[]|];
            reflexivity)
  end.
  generalize (match AutoHooks (config s), Hooks (config s) with
              | true, Some _ => hooks_err env
              | _, _ => None
              end).
  intros hooks.
  generalize (String.eqb (Method r) "POST" && HasSuffix (RequestURI r) "/repo").
  generalize (String.eqb (Method r) "GET" && HasSuffix (RequestURI r) "/repos").
  intros lst post.
  destruct lst; [|destruct (String.eqb n ""); [run; answers_itself|]].
  all: (destruct (Auth (config s));
        [ destruct (AuthFunc s) as [f|]; [|run; answers_itself];
          destruct (String.eqb (Header_Get r "Authorization") "");
          [run; answers_itself|];
          destruct (getCredential parseBasicAuth r) as [cred [e|]];
          [run; answers_itself|];
          run;
          match goal with
          | |- context [f cred ?q] => destruct (f cred q) as [[|] [e|]]
          end; run; try solve [answers_itself]
        | run ]).
  all: destruct post; run; try solve [hands_over svc p Hg].
  all: match goal with
       | |- context [stat_ok ?a ?b ?c] => destruct (stat_ok a b c)
       end; run; try solve [hands_over svc p Hg].
  all: destruct (AutoCreate (config s)); run; try solve [answers_itself].
  all: destruct (git_init_err env) as [e1|]; run; try solve [answers_itself].
  all: destruct hooks as [e2|]; run.
  all: match goal with
       | |- context [stat_ok ?a ?b ?c] => destruct (stat_ok a b c)
       end; run; solve [answers_itself | hands_over svc p Hg].
Qed.


End Properties.

(* ================================================================= *)
(** ** Runs on the example data *)

(** [path.Clean] and [path.Join] on the cases of their documentation. *)
Example Clean_examples :
  map GoPath.Clean
    ["a/c"; "a//c"; "a/c/."; "a/c/b/.."; "/../a/c"; "/../a/b/../././/c"; "";
     "/"; "abc/def/../../.."; "/abc/def/../../.."; "../../abc"; "abc/./../def"]
  = ["a/c"; "a/c"; "a/c"; "a/c"; "/a/c"; "/a/c"; ".";
     "/"; ".."; "/"; "../../abc"; "def"].
Proof. vm_compute. reflexivity. Qed.

Example Join_examples :
  map GoPath.Join
    [["a"; "b"; "c"]; ["a"; "b/c"]; ["a/b"; "../../../xyz"]; [""; ""]; ["a"; ""];
     [""; "a"]; ["/srv/git"; "team"; "app.git"]; ["/srv/git"; ""; ""]]
  = ["a/b/c"; "a/b/c"; "../xyz"; ""; "a"; "a"; "/srv/git/team/app.git"; "/srv/git"].
Proof. vm_compute. reflexivity. Qed.

Example parseBasicAuth_examples :
  map http_parseBasicAuth
    ["Basic dXNlcjpwYXNz"; "basic YTpi"; "Basic Og=="; "Bearer abc"; "Basic !!!";
     "Basic dXNlcg=="]
  = [Some ("user", "pass"); Some ("a", "b"); Some ("", ""); None; None; None].
Proof. vm_compute. reflexivity. Qed.

(** The handshake of the other service of info/refs. *)
Example handshake_receive_pack :
  pkt_line ("# service=git-receive-pack" ++ nl) ++ pkt_flush
  = "001f# service=git-receive-pack" ++ nl ++ "0000".
Proof. vm_compute. reflexivity. Qed.

(** A subprocess that does not start: 500, no group, nothing to clean. *)
Example start_failure_run :
  let s := server_example false false None in
  let w' := snd (ServeHTTP getNamespaceAndRepo_model subCommand_model
                   http_parseBasicAuth
                   (with_start_err (Some "fork/exec git: no such file") env_ok)
                   s (get_info_refs "/team/app.git" [])
                   (initial_world fs_example [])) in
  rw_status (resp w') = Some 500
  /\ group w' = NoGroup
  /\ ~ In EvCleanUpProcessGroup (events w').
Proof.
  cbv zeta. repeat split; try (vm_compute; reflexivity).
  vm_compute. intros H. repeat (destruct H as [H | H]; [discriminate H|]). exact H.
Qed.

(** An allowed request reaches the handler: the announcement, the flush
    marker and the output of the subprocess make the body. *)
Example allowed_run :
  let s := server_example true false (Some allow_all) in
  let w' := snd (ServeHTTP getNamespaceAndRepo_model subCommand_model
                   http_parseBasicAuth env_ok s
                   (get_info_refs "/team/app.git" basic_header)
                   (initial_world fs_example [])) in
  rw_status (resp w') = Some 200
  /\ rw_body (resp w') = "001e# service=git-upload-pack" ++ nl ++ "0000" ++ "0000"
  /\ group w' = GroupTerminated.
Proof. cbv zeta. repeat split; vm_compute; reflexivity. Qed.

(** Auto-create with a hook installer that fails: the error is logged,
    the repository exists all the same and the handler runs. *)
Example auto_create_hooks_fail_run :
  let s := mkServer (mkConfig "/srv/git" "git" false true true (Some tt))
             default_services None None in
  let w' := snd (ServeHTTP getNamespaceAndRepo_model subCommand_model
                   http_parseBasicAuth
                   (with_hooks_err (Some "hooks: permission denied") env_ok)
                   s (get_info_refs "/team/new.git" [])
                   (initial_world fs_example [])) in
  In (mkLog "error" "repo-init" "hooks: permission denied") (logs w')
  /\ rw_status (resp w') = Some 200
  /\ stat_ok (fs w') (cwd w') "/srv/git/team/new.git/objects" = true.
Proof.
  cbv zeta. split; [vm_compute; right; left; reflexivity|].
  split; vm_compute; reflexivity.
Qed.


(** C7: the carve-out of the dispatcher tests the raw request URI, query
    included, where routing tests the path.  The request [GET
    /team/new.git/info/refs?service=git-upload-pack&x=/repos] is routed to
    the info/refs handler, a repository-targeting endpoint, and its
    repository does not exist.  On a server with auto-create the
    dispatcher neither creates the repository nor checks that it exists:
    it calls the handler, which starts git on the missing directory and
    answers 200, and does so too when [git init] would have failed.  The
    same holds of [POST /team/new.git/git-upload-pack?x=/repo].  The
    request without the second parameter has its repository created
    first, and is answered 404 without any handler when the creation
    fails. *)
Theorem auto_create_skipped_by_query_tail :
  let s := server_example false true None in
  let r := get_info_refs_tail "/team/new.git" in
  let rpc := post_rpc_tail "/team/new.git" in
  let plain := get_info_refs "/team/new.git" [] in
  let req q := mkRequest q "team/new.git" "/srv/git/team/new.git" in
  let run v q := snd (ServeHTTP getNamespaceAndRepo_model subCommand_model
                        http_parseBasicAuth v s q
                        (initial_world fs_example [])) in
  let served q :=
    [ EvHandler h_getInfoRefs "" (req q);
      EvStart ["git"; "upload-pack"; "--stateless-rpc"; "--advertise-refs";
               "/srv/git/team/new.git"] None;
      EvWait None; EvCleanUpProcessGroup; EvHandlerReturn h_getInfoRefs ] in
  let created e found :=
    [ EvRepoExists "/srv/git/team/new.git" false;
      EvInitRepo "team/new.git";
      EvExecRun ["git"; "init"; "--bare"; "/srv/git/team/new.git"] e;
      EvRepoExists "/srv/git/team/new.git" found ] in
  findService s r = Some (svc_info_refs, "/team/new.git")
  /\ AutoCreate (config s) = true
  /\ stat_ok fs_example [] "/srv/git/team/new.git/objects" = false
  /\ events (run env_ok r) = served r
  /\ rw_status (resp (run env_ok r)) = Some 200
  /\ fs (run env_ok r) = fs_example
  /\ events (run env_init_fails r) = served r
  /\ rw_status (resp (run env_init_fails r)) = Some 200
  /\ hd_error (events (run env_ok rpc))
     = Some (EvHandler h_postRPC "git-upload-pack" (req rpc))
  /\ rw_status (resp (run env_ok rpc)) = Some 200
  /\ fs (run env_ok rpc) = fs_example
  /\ events (run env_ok plain) = (created None true ++ served plain)%list
  /\ events (run env_init_fails plain)
     = created (Some "exit status 128") false
  /\ rw_status (resp (run env_init_fails plain)) = Some 404.
Proof.
  cbv zeta. repeat split; vm_compute; reflexivity.
Qed.

(** C8: the carve-out and the skipping of name derivation test the raw
    request URI, query included, where routing tests the path.  The
    request [POST /team/new.git/repo?x=1] passes routing, to [createRepo],
    and authentication, but is not dispatched directly: the dispatcher
    checks that the repository exists and answers 404 without calling the
    handler; on a server with auto-create the dispatcher creates the
    repository itself and [createRepo] then answers 409.  The request
    [GET /repos?x=1] is routed to [listRepo] and answered 400 for its
    missing repository name, without any handler.  [POST
    /team/new.git/repo] is dispatched directly and answered 201. *)
Theorem create_with_query_not_dispatched_directly :
  let s := server_example false false None in
  let s_auto := server_example false true None in
  let create := post_repo_query "/team/new.git" in
  let plain := post_repo "/team/new.git" in
  let req q := mkRequest q "team/new.git" "/srv/git/team/new.git" in
  let run srv q := snd (ServeHTTP getNamespaceAndRepo_model subCommand_model
                          http_parseBasicAuth env_ok srv q
                          (initial_world fs_example [])) in
  findService s create = Some (svc_create, "/team/new.git")
  /\ Auth (config s) = false
  /\ events (run s create)
     = [ EvRepoExists "/srv/git/team/new.git" false;
         EvRepoExists "/srv/git/team/new.git" false ]
  /\ rw_status (resp (run s create)) = Some 404
  /\ fs (run s create) = fs_example
  /\ events (run s_auto create)
     = [ EvRepoExists "/srv/git/team/new.git" false;
         EvInitRepo "team/new.git";
         EvExecRun ["git"; "init"; "--bare"; "/srv/git/team/new.git"] None;
         EvRepoExists "/srv/git/team/new.git" true;
         EvHandler h_createRepo "" (req create);
         EvRepoExists "/srv/git/team/new.git" true;
         EvHandlerReturn h_createRepo ]
  /\ rw_status (resp (run s_auto create)) = Some 409
  /\ findService s get_repos_query
     = Some (mkService "GET" "/repos" h_listRepo "", "")
  /\ events (run s get_repos_query) = []
  /\ rw_status (resp (run s get_repos_query)) = Some 400
  /\ events (run s plain)
     = [ EvHandler h_createRepo "" (req plain);
         EvRepoExists "/srv/git/team/new.git" false;
         EvInitRepo "team/new.git";
         EvExecRun ["git"; "init"; "--bare"; "/srv/git/team/new.git"] None;
         EvHandlerReturn h_createRepo ]
  /\ rw_status (resp (run s plain)) = Some 201.
Proof.
  cbv zeta. repeat split; vm_compute; reflexivity.
Qed.

(** C2: [listRepo] reads the entries of each namespace with
    [os.ReadDir(repoDir.Name())], a name relative to the working directory
    of the server, not to the root.  With the root [/srv/git] holding
    [team/app.git] and the server running in [/], the listing fails with
    500 where the listing under the root is [team/app.git]; and when [/]
    has a directory [team] of its own, what is listed is the repository
    found there, [team/ghost.git], which is not under the root. *)
Theorem listRepo_reads_working_directory :
  let s := server_example false false None in
  let r := request_example "GET" "/repos" "/repos" [] [] in
  let run f c := snd (ServeHTTP getNamespaceAndRepo_model subCommand_model
                        http_parseBasicAuth env_ok s r (initial_world f c)) in
  list_under_root fs_example [] (Dir (config s)) = Some ["team/app.git"]
  /\ rw_status (resp (run fs_example [])) = Some 500
  /\ listed (run fs_example []) = None
  /\ list_under_root fs_outside [] (Dir (config s)) = Some ["team/app.git"]
  /\ rw_status (resp (run fs_outside [])) = Some 200
  /\ listed (run fs_outside []) = Some ["team/ghost.git"]
  /\ listed (run fs_example ["srv"; "git"]) = Some ["team/app.git"].
Proof.
  cbv zeta. repeat split; vm_compute; reflexivity.
Qed.

(** C3: [findService] removes the leftmost occurrence of the suffix, not
    the trailing one.  For [POST /repo/app.git/repo], which creates the
    repository [app.git] of the namespace [repo], the service of the
    [/repo] suffix matches and the remainder is [/app.git/repo], where
    removing the suffix from the end of the path gives [/repo/app.git]. *)
Theorem findService_removes_leftmost :
  let s := server_example false false None in
  let r := post_repo "/repo/app.git" in
  findService s r = Some (svc_create, "/app.git/repo")
  /\ GoStrings.HasSuffix (Path (Url r)) "/repo" = true
  /\ GoStrings.TrimSuffix (Path (Url r)) "/repo" = "/repo/app.git".
Proof.
  cbv zeta. repeat split; vm_compute; reflexivity.
Qed.

(* ================================================================= *)
(** ** The theorems at work *)

Lemma process_group_cleaned_up_witness :
  let s := server_example false false None in
  let r := get_info_refs "/team/app.git" [] in
  let req := context_of r "team/app.git" in
  let w := initial_world fs_example [] in
  let argv := ["git"; "upload-pack"; "--stateless-rpc"; "--advertise-refs";
               "/srv/git/team/app.git"] in
  let new := [ EvHandler h_getInfoRefs "" req; EvStart argv None;
               EvCleanUpProcessGroup; EvHandlerReturn h_getInfoRefs ] in
  let w' := snd (invoke subCommand_model env_disconnect s svc_info_refs req w) in
  (handler svc_info_refs = h_getInfoRefs \/ handler svc_info_refs = h_postRPC)
  /\ events w' = (events w ++ new)%list
  /\ In (EvStart argv None) new
  /\ group w' = GroupTerminated
  /\ exists pre mid post,
       new = (pre ++ EvStart argv None :: mid
                  ++ EvCleanUpProcessGroup :: post
                  ++ [EvHandlerReturn (handler svc_info_refs)])%list.
Proof.
  cbv zeta.
  split; [left; reflexivity|].
  split; [vm_compute; reflexivity|].
  split; [right; left; reflexivity|].
  apply (process_group_cleaned_up subCommand_model env_disconnect
           (server_example false false None) svc_info_refs
           (context_of (get_info_refs "/team/app.git" []) "team/app.git")
           (initial_world fs_example [])).
  - left; reflexivity.
  - vm_compute; reflexivity.
  - right; left; reflexivity.
Defined.

Lemma info_refs_handshake_witness :
  let s := server_example false false None in
  let req := context_of (get_info_refs "/team/app.git" []) "team/app.git" in
  let w := initial_world fs_example [] in
  Query_Get (httpReq req) "service" = "git-upload-pack"
  /\ start_err env_ok = None
  /\ packLine_err env_ok = None
  /\ packFlush_err env_ok = None
  /\ rw_body (resp (snd (call h_getInfoRefs
                           (getInfoRefs subCommand_model env_ok s "" req) w)))
     = ((rw_body (resp w) ++ "001e# service=git-upload-pack" ++ nl) ++ "0000")
       ++ match copy_out_err env_ok with
          | None => proc_stdout env_ok
          | Some (n, _) => String.substring 0 n (proc_stdout env_ok)
          end.
Proof.
  cbv zeta. repeat (split; [reflexivity|]).
  apply (info_refs_handshake subCommand_model env_ok); reflexivity.
Defined.

Lemma auth_denied_401_witness :
  let s := server_example true false (Some failing_backend) in
  let r := get_info_refs "/team/app.git" basic_header in
  let p := "/team/app.git" in
  findService s r = Some (svc_info_refs, p)
  /\ name_derived getNamespaceAndRepo_model r p = true
  /\ Auth (config s) = true
  /\ AuthFunc s = Some failing_backend
  /\ Header_Get r "Authorization" <> ""
  /\ failing_backend (fst (getCredential http_parseBasicAuth r))
       (request_context getNamespaceAndRepo_model s r p)
     = (true, Some "backend down")
  /\ (true = false \/ Some "backend down" <> None)
  /\ ServeHTTP getNamespaceAndRepo_model subCommand_model http_parseBasicAuth
       env_ok s r (initial_world fs_example [])
     = (Returned,
        mkWorld fs_example [] (mkResponseWriter [] (Some 401) "" None)
          ([mkLog "info" "request"
              (Method r ++ " " ++ Host r ++ URL_String (Url r))]
           ++ [mkLog "error" "auth" "backend down"]
           ++ [mkLog "error" "auth"
                 ("rejected user "
                  ++ Username (fst (getCredential http_parseBasicAuth r)))])%list
          NoGroup "" [] []).
Proof.
  cbv zeta.
  split; [reflexivity|]. split; [reflexivity|]. split; [reflexivity|].
  split; [reflexivity|]. split; [vm_compute; discriminate|].
  split; [reflexivity|]. split; [right; discriminate|].
  apply (auth_denied_401 getNamespaceAndRepo_model subCommand_model
           http_parseBasicAuth env_ok
           (server_example true false (Some failing_backend))
           (get_info_refs "/team/app.git" basic_header) svc_info_refs
           "/team/app.git" failing_backend true (Some "backend down")
           fs_example []).
  - reflexivity.
  - reflexivity.
  - reflexivity.
  - reflexivity.
  - vm_compute; discriminate.
  - reflexivity.
  - right; discriminate.
Defined.

(** C6, as stated, fails: on a server that requires authentication and
    has no capability installed, which is what [New] returns, a request
    without [Authorization] header is answered 401 without the challenge
    header. *)
Lemma missing_header_without_backend :
  let s := server_example true false None in
  let r := get_info_refs "/team/app.git" [] in
  let w' := snd (ServeHTTP getNamespaceAndRepo_model subCommand_model
                   http_parseBasicAuth env_ok s r (initial_world fs_example [])) in
  findService s r = Some (svc_info_refs, "/team/app.git")
  /\ name_derived getNamespaceAndRepo_model r "/team/app.git" = true
  /\ Auth (config s) = true
  /\ AuthFunc s = AuthFunc (New (cfg_example true false))
  /\ Header_Get r "Authorization" = ""
  /\ rw_status (resp w') = Some 401
  /\ ~ In "WWW-Authenticate" (map fst (rw_header (resp w'))).
Proof.
  cbv zeta. repeat (split; [vm_compute; reflexivity|]).
  vm_compute. intros H; exact H.
Qed.

Lemma missing_header_401_witness :
  let s := server_example true false (Some deny_all) in
  let r := get_info_refs "/team/app.git" [] in
  let p := "/team/app.git" in
  findService s r = Some (svc_info_refs, p)
  /\ name_derived getNamespaceAndRepo_model r p = true
  /\ Auth (config s) = true
  /\ Header_Get r "Authorization" = ""
  /\ ServeHTTP getNamespaceAndRepo_model subCommand_model http_parseBasicAuth
       env_ok s r (initial_world fs_example [])
     = (Returned,
        mkWorld fs_example []
          (mkResponseWriter
             match AuthFunc s with
             | Some _ => [("WWW-Authenticate", [basic_realm_challenge])]
             | None => []
             end
             (Some 401) "" None)
          (mkLog "info" "request" (Method r ++ " " ++ Host r ++ URL_String (Url r))
           :: match AuthFunc s with
              | Some _ => []
              | None => [mkLog "error" "auth" "no auth backend provided"]
              end)
          NoGroup "" [] []).
Proof.
  cbv zeta. repeat (split; [reflexivity|]).
  apply (missing_header_401 getNamespaceAndRepo_model subCommand_model
           http_parseBasicAuth env_ok
           (server_example true false (Some deny_all))
           (get_info_refs "/team/app.git" []) svc_info_refs "/team/app.git"
           fs_example []); reflexivity.
Defined.


Lemma lifecycle_requests_dispatch_directly_witness :
  let s := server_example false false None in
  let r := post_repo "/team/new.git" in
  let p := "/team/new.git" in
  let req := request_context getNamespaceAndRepo_model s r p in
  let out :=
    call (handler svc_create)
      (handler_body subCommand_model env_ok s (handler svc_create)
         (rpc svc_create) req)
      (mkWorld fs_example [] rw_empty
         [mkLog "info" "request" (Method r ++ " " ++ Host r ++ URL_String (Url r))]
         NoGroup "" [EvHandler (handler svc_create) (rpc svc_create) req] []) in
  findService s r = Some (svc_create, p)
  /\ name_derived getNamespaceAndRepo_model r p = true
  /\ auth_passes http_parseBasicAuth s r req
  /\ is_lifecycle_request r = true
  /\ ServeHTTP getNamespaceAndRepo_model subCommand_model
       http_parseBasicAuth env_ok s r (initial_world fs_example [])
     = (match fst out with Panicked msg => Panicked msg | _ => Returned end,
        snd out).
Proof.
  cbv zeta.
  split; [reflexivity|]. split; [reflexivity|]. split; [left; reflexivity|].
  split; [reflexivity|].
  apply (lifecycle_requests_dispatch_directly getNamespaceAndRepo_model
           subCommand_model http_parseBasicAuth env_ok
           (server_example false false None) (post_repo "/team/new.git")
           svc_create "/team/new.git" fs_example []).
  - reflexivity.
  - reflexivity.
  - left; reflexivity.
  - reflexivity.
Defined.

(** C9, as stated, fails: no [objects] entry exists under the path, [git
    init] exits with an error, and the answer is 500, not 201; the
    repository does not exist afterwards. *)
Lemma createRepo_init_failure :
  let s := server_example false false None in
  let req := context_of (post_repo "/team/new.git") "team/new.git" in
  let w' := snd (call h_createRepo (createRepo env_init_fails s "" req)
                   (initial_world fs_example [])) in
  stat_ok fs_example [] (Join [RepoPath req; "objects"]) = false
  /\ rw_status (resp w') = Some 500
  /\ rw_status (resp w') <> Some 201
  /\ stat_ok (fs w') (cwd w') (Join [RepoPath req; "objects"]) = false.
Proof.
  cbv zeta. repeat split; vm_compute; try reflexivity; discriminate.
Qed.

Lemma createRepo_outcomes_witness :
  let s := server_example false false None in
  let req := context_of (post_repo "/team/new.git") "team/new.git" in
  let w' := snd (call h_createRepo (createRepo env_ok s "" req)
                   (initial_world fs_example [])) in
  RepoName req <> ""
  /\ RepoPath req = Join [Dir (config s); RepoName req]
  /\ rw_status (resp w') = Some 201
  /\ stat_ok (fs w') (cwd w') (Join [RepoPath req; "objects"]) = true.
Proof.
  cbv zeta.
  split; [discriminate|]. split; [vm_compute; reflexivity|].
  destruct (createRepo_outcomes env_ok (server_example false false None) ""
              (context_of (post_repo "/team/new.git") "team/new.git")
              fs_example [])
    as [Hcall Hexists].
  - discriminate.
  - vm_compute; reflexivity.
  - rewrite Hcall. split; [vm_compute; reflexivity|].
    vm_compute. reflexivity.
Defined.

Lemma getCredential_total_witness :
  let r := get_info_refs "/team/app.git" bearer_header in
  Header_Get r "Authorization" <> ""
  /\ snd (getCredential http_parseBasicAuth r) = None
  /\ ((exists user pass,
         BasicAuth http_parseBasicAuth r = Some (user, pass)
         /\ fst (getCredential http_parseBasicAuth r) = mkCredential user pass "")
      \/ (BasicAuth http_parseBasicAuth r = None
          /\ fst (getCredential http_parseBasicAuth r)
             = mkCredential "" "" (Header_Get r "Authorization"))).
Proof.
  cbv zeta. split; [vm_compute; discriminate|].
  apply (getCredential_total http_parseBasicAuth
           (get_info_refs "/team/app.git" bearer_header)).
  vm_compute; discriminate.
Defined.

(** *** Routing *)

Lemma default_route_unique_witness :
  let s := server_example false false None in
  let r := get_info_refs "/team/app.git" [] in
  services s = default_services
  /\ In svc_info_refs default_services
  /\ method svc_info_refs = Method r
  /\ HasSuffix (Path (Url r)) (suffix svc_info_refs) = true
  /\ findService s r
     = Some (svc_info_refs, Replace1 (Path (Url r)) (suffix svc_info_refs) "").
Proof.
  cbv zeta. split; [reflexivity|]. split; [left; reflexivity|].
  split; [reflexivity|]. split; [reflexivity|].
  apply default_route_unique;
    [reflexivity | left; reflexivity | reflexivity | reflexivity].
Defined.

Lemma findService_remainder_length_witness :
  let s := server_example false false None in
  let r := get_info_refs "/team/app.git" [] in
  findService s r = Some (svc_info_refs, "/team/app.git")
  /\ In svc_info_refs (services s)
  /\ method svc_info_refs = Method r
  /\ HasSuffix (Path (Url r)) (suffix svc_info_refs) = true
  /\ String.length "/team/app.git" + String.length (suffix svc_info_refs)
     = String.length (Path (Url r)).
Proof.
  cbv zeta. split; [reflexivity|].
  apply (findService_remainder_length (server_example false false None)
           (get_info_refs "/team/app.git" []) svc_info_refs "/team/app.git").
  reflexivity.
Defined.

Lemma findService_remainder_exact_witness :
  let s := server_example false false None in
  let r := post_repo "/a" in
  findService s r = Some (svc_create, "/a")
  /\ "/a" ++ suffix svc_create = Path (Url r)
  /\ "/a" = TrimSuffix (Path (Url r)) (suffix svc_create).
Proof.
  cbv zeta. split; [reflexivity|].
  apply (findService_remainder_exact (server_example false false None)
           (post_repo "/a") svc_create "/a").
  - reflexivity.
  - intros k Hk.
    destruct k as [|[|k]]; [reflexivity | reflexivity |].
    exfalso. apply Nat.succ_lt_mono, Nat.succ_lt_mono in Hk.
    exact (Nat.nlt_0_r k Hk).
Defined.

(** *** The answers of the dispatcher *)

Lemma other_methods_403_witness :
  let s := server_example true true None in
  let r := put_repo "/team/app.git" in
  services s = default_services
  /\ Method r <> "GET" /\ Method r <> "POST" /\ Method r <> "DELETE"
  /\ ServeHTTP getNamespaceAndRepo_model subCommand_model http_parseBasicAuth
       env_ok s r (initial_world fs_example [])
     = (Returned,
        mkWorld fs_example []
          (mkResponseWriter
             [("Content-Type", ["text/plain; charset=utf-8"]);
              ("X-Content-Type-Options", ["nosniff"])]
             (Some 403) ("Forbidden" ++ nl) None)
          [mkLog "info" "request" (Method r ++ " " ++ Host r ++ URL_String (Url r))]
          NoGroup "" [] []).
Proof.
  cbv zeta. split; [reflexivity|].
  split; [discriminate|]. split; [discriminate|]. split; [discriminate|].
  apply other_methods_403; [reflexivity | discriminate | discriminate | discriminate].
Defined.

Lemma empty_name_400_witness :
  let s := server_example true false (Some allow_all) in
  let r := post_repo "" in
  findService s r = Some (svc_create, "")
  /\ is_list_request r = false
  /\ snd (getNamespaceAndRepo_model "") = ""
  /\ ServeHTTP getNamespaceAndRepo_model subCommand_model http_parseBasicAuth
       env_ok s r (initial_world fs_example [])
     = (Returned,
        mkWorld fs_example [] (mkResponseWriter [] (Some 400) "" None)
          [ mkLog "info" "request" (Method r ++ " " ++ Host r ++ URL_String (Url r));
            mkLog "error" "auth" "no repo name provided" ]
          NoGroup "" [] []).
Proof.
  cbv zeta. split; [reflexivity|]. split; [reflexivity|]. split; [reflexivity|].
  apply (empty_name_400 getNamespaceAndRepo_model subCommand_model
           http_parseBasicAuth env_ok (server_example true false (Some allow_all))
           (post_repo "") svc_create "");
    reflexivity.
Defined.

Lemma no_backend_401_witness :
  let s := server_bare true false in
  let r := get_info_refs "/team/app.git" basic_header in
  let p := "/team/app.git" in
  findService s r = Some (svc_info_refs, p)
  /\ name_derived getNamespaceAndRepo_model r p = true
  /\ Auth (config s) = true
  /\ AuthFunc s = None
  /\ ServeHTTP getNamespaceAndRepo_model subCommand_model http_parseBasicAuth
       env_ok s r (initial_world fs_example [])
     = (Returned,
        mkWorld fs_example [] (mkResponseWriter [] (Some 401) "" None)
          [ mkLog "info" "request" (Method r ++ " " ++ Host r ++ URL_String (Url r));
            mkLog "error" "auth" "no auth backend provided" ]
          NoGroup "" [] []).
Proof.
  cbv zeta. split; [reflexivity|]. split; [reflexivity|].
  split; [reflexivity|]. split; [reflexivity|].
  apply (no_backend_401 getNamespaceAndRepo_model subCommand_model
           http_parseBasicAuth env_ok (server_bare true false)
           (get_info_refs "/team/app.git" basic_header) svc_info_refs
           "/team/app.git");
    reflexivity.
Defined.

Lemma existing_repository_dispatch_witness :
  let s := server_example false true None in
  let r := get_info_refs "/team/app.git" [] in
  let p := "/team/app.git" in
  let req := request_context getNamespaceAndRepo_model s r p in
  findService s r = Some (svc_info_refs, p)
  /\ name_derived getNamespaceAndRepo_model r p = true
  /\ auth_passes http_parseBasicAuth s r req
  /\ is_lifecycle_request r = false
  /\ stat_ok fs_example [] (Join [RepoPath req; "objects"]) = true
  /\ ServeHTTP getNamespaceAndRepo_model subCommand_model http_parseBasicAuth
       env_ok s r (initial_world fs_example [])
     = invoke subCommand_model env_ok s svc_info_refs req
         (mkWorld fs_example [] rw_empty
            [mkLog "info" "request" (Method r ++ " " ++ Host r ++ URL_String (Url r))]
            NoGroup ""
            [EvRepoExists (RepoPath req) true; EvRepoExists (RepoPath req) true] []).
Proof.
  cbv zeta. split; [reflexivity|]. split; [reflexivity|].
  split; [left; reflexivity|]. split; [reflexivity|].
  split; [vm_compute; reflexivity|].
  apply (existing_repository_dispatch getNamespaceAndRepo_model subCommand_model
           http_parseBasicAuth env_ok (server_example false true None)
           (get_info_refs "/team/app.git" []) svc_info_refs "/team/app.git"
           fs_example []);
    [reflexivity | reflexivity | left; reflexivity | reflexivity
    | vm_compute; reflexivity].
Defined.

Lemma missing_repository_404_witness :
  let s := server_example false false None in
  let r := get_info_refs "/team/new.git" [] in
  let p := "/team/new.git" in
  let req := request_context getNamespaceAndRepo_model s r p in
  findService s r = Some (svc_info_refs, p)
  /\ name_derived getNamespaceAndRepo_model r p = true
  /\ auth_passes http_parseBasicAuth s r req
  /\ is_lifecycle_request r = false
  /\ AutoCreate (config s) = false
  /\ stat_ok fs_example [] (Join [RepoPath req; "objects"]) = false
  /\ ServeHTTP getNamespaceAndRepo_model subCommand_model http_parseBasicAuth
       env_ok s r (initial_world fs_example [])
     = (Returned,
        mkWorld fs_example []
          (mkResponseWriter
             [("Content-Type", ["text/plain; charset=utf-8"]);
              ("X-Content-Type-Options", ["nosniff"])]
             (Some 404) ("404 page not found" ++ nl) None)
          [ mkLog "info" "request" (Method r ++ " " ++ Host r ++ URL_String (Url r));
            mkLog "error" "repo-init" (RepoPath req ++ " does not exist") ]
          NoGroup ""
          [EvRepoExists (RepoPath req) false; EvRepoExists (RepoPath req) false] []).
Proof.
  cbv zeta. split; [reflexivity|]. split; [reflexivity|].
  split; [left; reflexivity|]. split; [reflexivity|]. split; [reflexivity|].
  split; [vm_compute; reflexivity|].
  apply (missing_repository_404 getNamespaceAndRepo_model subCommand_model
           http_parseBasicAuth env_ok (server_example false false None)
           (get_info_refs "/team/new.git" []) svc_info_refs "/team/new.git"
           fs_example []);
    [reflexivity | reflexivity | left; reflexivity | reflexivity | reflexivity
    | vm_compute; reflexivity].
Defined.

Lemma auto_create_then_delete_witness :
  let s := server_example false true None in
  let r := delete_repo "/team/new.git" in
  let p := "/team/new.git" in
  let req := request_context getNamespaceAndRepo_model s r p in
  let fs1 := git_init_bare fs_example [] (RepoPath req) in
  findService s r = Some (svc_delete, p)
  /\ stat_ok fs_example [] (Join [RepoPath req; "objects"]) = false
  /\ ServeHTTP getNamespaceAndRepo_model subCommand_model http_parseBasicAuth
       env_ok s r (initial_world fs_example [])
     = (Next tt,
        mkWorld (remove_all fs1 [] (RepoPath req)) []
          (mkResponseWriter [("Content-Type", ["application/json"])] (Some 202) ""
             (Some (mkKitResponse 202 (KitRepoResponse (RepoName req)))))
          (mkLog "info" "request" (Method r ++ " " ++ Host r ++ URL_String (Url r))
           :: match (match AutoHooks (config s), Hooks (config s) with
                     | true, Some _ => hooks_err env_ok
                     | _, _ => None
                     end) with
              | Some e => [mkLog "error" "repo-init" e]
              | None => []
              end)
          NoGroup ""
          [ EvRepoExists (RepoPath req) false;
            EvInitRepo (RepoName req);
            EvExecRun [GitPath (config s); "init"; "--bare"; RepoPath req] None;
            EvRepoExists (RepoPath req) true;
            EvHandler h_deleteRepo (rpc svc_delete) req;
            EvHandlerReturn h_deleteRepo ] [])
  /\ stat_ok (remove_all fs1 [] (RepoPath req)) []
       (Join [RepoPath req; "objects"]) = false.
Proof.
  cbv zeta. split; [reflexivity|]. split; [vm_compute; reflexivity|].
  apply (auto_create_then_delete getNamespaceAndRepo_model subCommand_model
           http_parseBasicAuth env_ok (server_example false true None)
           (delete_repo "/team/new.git") svc_delete "/team/new.git"
           fs_example []);
    [ reflexivity | reflexivity | reflexivity | vm_compute; discriminate
    | vm_compute; reflexivity | left; reflexivity | reflexivity
    | vm_compute; reflexivity | reflexivity | reflexivity ].
Defined.

Lemma request_context_coherent_witness :
  let s := server_example false false None in
  let r := get_info_refs "/team/app.git" [] in
  let p := "/team/app.git" in
  HasPrefix (if String.eqb (fst (getNamespaceAndRepo_model p)) ""
             then snd (getNamespaceAndRepo_model p)
             else fst (getNamespaceAndRepo_model p)) "/" = false
  /\ RepoPath (request_context getNamespaceAndRepo_model s r p)
     = Join [Dir (config s);
             RepoName (request_context getNamespaceAndRepo_model s r p)].
Proof.
  cbv zeta. split; [vm_compute; reflexivity|].
  apply (request_context_coherent getNamespaceAndRepo_model
           (server_example false false None)
           (get_info_refs "/team/app.git" []) "/team/app.git").
  vm_compute; reflexivity.
Defined.

(** *** The lifecycle handlers *)

Lemma deleteRepo_refuses_witness :
  let s := server_example false false None in
  let req := context_of (delete_repo "/team/gone.git") "team/gone.git" in
  let w' := snd (call h_deleteRepo (deleteRepo env_ok s "" req)
                   (initial_world fs_example [])) in
  stat_ok fs_example [] (Join [Dir (config s); RepoName req]) = false
  /\ fs w' = fs_example
  /\ rw_status (resp w')
     = Some (if String.eqb (RepoName req) "" then 400 else 500)
  /\ rw_envelope (resp w')
     = (if String.eqb (RepoName req) ""
        then Some (mkKitResponse 400 (KitRepoResponse (RepoName req)))
        else None)
  /\ events w' = [EvHandlerReturn h_deleteRepo].
Proof.
  cbv zeta. split; [vm_compute; reflexivity|].
  apply (deleteRepo_refuses env_ok (server_example false false None) ""
           (context_of (delete_repo "/team/gone.git") "team/gone.git")
           fs_example []).
  right. vm_compute; reflexivity.
Defined.

Lemma deleteRepo_removes_witness :
  let s := server_example false false None in
  let req := context_of (delete_repo "/team/app.git") "team/app.git" in
  let target := Join [Dir (config s); RepoName req] in
  let w' := snd (call h_deleteRepo (deleteRepo env_ok s "" req)
                   (initial_world fs_example [])) in
  stat_ok fs_example [] target = true
  /\ rw_status (resp w') = Some 202
  /\ rw_envelope (resp w')
     = Some (mkKitResponse 202 (KitRepoResponse (RepoName req)))
  /\ stat_ok (fs w') (cwd w') (Join [target; "objects"]) = false
  /\ forall p q q',
       resolve [] target = Some q -> resolve [] p = Some q' ->
       is_prefix q q' = false ->
       stat_ok (fs w') (cwd w') p = stat_ok fs_example [] p.
Proof.
  cbv zeta. split; [vm_compute; reflexivity|].
  apply (deleteRepo_removes env_ok (server_example false false None) ""
           (context_of (delete_repo "/team/app.git") "team/app.git")
           fs_example []);
    [discriminate | vm_compute; reflexivity | reflexivity].
Defined.

Lemma deleteRepo_twice_witness :
  let s := server_example false false None in
  let req := context_of (delete_repo "/team/app.git") "team/app.git" in
  let w1 := snd (call h_deleteRepo (deleteRepo env_ok s "" req)
                   (initial_world fs_example [])) in
  let w2 := snd (call h_deleteRepo (deleteRepo env_ok s "" req)
                   (initial_world (fs w1) (cwd w1))) in
  resolve [] (Join [Dir (config s); RepoName req]) <> Some []
  /\ rw_status (resp w1) = Some 202
  /\ rw_status (resp w2) = Some 500
  /\ fs w2 = fs w1.
Proof.
  cbv zeta. split; [vm_compute; discriminate|].
  apply (deleteRepo_twice env_ok (server_example false false None) ""
           (context_of (delete_repo "/team/app.git") "team/app.git")
           fs_example []);
    [ discriminate | vm_compute; reflexivity | reflexivity
    | vm_compute; discriminate ].
Defined.

Lemma createRepo_twice_witness :
  let s := server_example false false None in
  let req := context_of (post_repo "/team/new.git") "team/new.git" in
  let w1 := snd (call h_createRepo (createRepo env_ok s "" req)
                   (initial_world fs_example [])) in
  let w2 := snd (call h_createRepo (createRepo env_ok s "" req)
                   (initial_world (fs w1) (cwd w1))) in
  RepoPath req = Join [Dir (config s); RepoName req]
  /\ rw_status (resp w2) = Some 409
  /\ fs w2 = fs w1
  /\ events w2 = [EvRepoExists (RepoPath req) true; EvHandlerReturn h_createRepo].
Proof.
  cbv zeta. split; [vm_compute; reflexivity|].
  apply (createRepo_twice env_ok (server_example false false None) ""
           (context_of (post_repo "/team/new.git") "team/new.git")
           fs_example []);
    [discriminate | vm_compute; reflexivity | reflexivity].
Defined.

Lemma create_delete_create_witness :
  let s := server_example false false None in
  let req := context_of (post_repo "/team/new.git") "team/new.git" in
  let w1 := snd (call h_createRepo (createRepo env_ok s "" req)
                   (initial_world fs_example [])) in
  let w2 := snd (call h_deleteRepo (deleteRepo env_ok s "" req)
                   (initial_world (fs w1) (cwd w1))) in
  let w3 := snd (call h_createRepo (createRepo env_ok s "" req)
                   (initial_world (fs w2) (cwd w2))) in
  stat_ok fs_example [] (Join [RepoPath req; "objects"]) = false
  /\ rw_status (resp w2) = Some 202
  /\ stat_ok (fs w2) (cwd w2) (Join [RepoPath req; "objects"]) = false
  /\ (rw_status (resp w3) = Some 201 \/ rw_status (resp w3) = Some 500)
  /\ stat_ok (fs w3) (cwd w3) (Join [RepoPath req; "objects"]) = true.
Proof.
  cbv zeta. split; [vm_compute; reflexivity|].
  apply (create_delete_create env_ok (server_example false false None) ""
           (context_of (post_repo "/team/new.git") "team/new.git")
           fs_example []);
    [ discriminate | vm_compute; reflexivity | vm_compute; reflexivity
    | reflexivity | reflexivity ].
Defined.

(** *** Listing *)

Lemma listRepo_answers_witness :
  let s := server_example false false None in
  let r := context_of (request_example "GET" "/repos" "/repos" [] []) "" in
  let filter := fun (repos : list string) (_ : Request) => repos in
  let out := call h_listRepo (listRepo s "" r)
               (initial_world fs_example ["srv"; "git"]) in
  FilterRepoFunc s = Some filter
  /\ fst out = Next tt
  /\ fs (snd out) = fs_example
  /\ ((rw_status (resp (snd out)) = Some 500
       /\ rw_envelope (resp (snd out)) = None)
      \/ exists dirs repos,
           read_dir fs_example ["srv"; "git"] (Dir (config s)) = inl dirs
           /\ Forall (listing_entry fs_example ["srv"; "git"] dirs) repos
           /\ rw_status (resp (snd out)) = Some 200
           /\ rw_envelope (resp (snd out))
              = Some (mkKitResponse 200 (KitListRepoResponse (filter repos r)))).
Proof.
  cbv zeta. split; [reflexivity|].
  apply (listRepo_answers (server_example false false None) ""
           (context_of (request_example "GET" "/repos" "/repos" [] []) "")
           (fun repos _ => repos) fs_example ["srv"; "git"]).
  reflexivity.
Defined.

Lemma listRepo_without_filter_witness :
  let s := server_bare false false in
  let r := context_of (request_example "GET" "/repos" "/repos" [] []) "" in
  let out := call h_listRepo (listRepo s "" r)
               (initial_world fs_example ["srv"; "git"]) in
  FilterRepoFunc s = None
  /\ rw_envelope (resp (snd out)) = None
  /\ ((fst out = Next tt /\ rw_status (resp (snd out)) = Some 500)
      \/ (exists msg, fst out = Panicked msg)
         /\ rw_status (resp (snd out)) = None
         /\ exists dirs, read_dir fs_example ["srv"; "git"] (Dir (config s))
                         = inl dirs).
Proof.
  cbv zeta. split; [reflexivity|].
  apply (listRepo_without_filter (server_bare false false) ""
           (context_of (request_example "GET" "/repos" "/repos" [] []) "")
           fs_example ["srv"; "git"]).
  reflexivity.
Defined.

Lemma fs_example_wf : fs_wf fs_example.
Proof.
  unfold fs_wf, fs_example.
  repeat (apply Forall_cons || apply Forall_nil);
    cbn [fst]; repeat (apply Forall_cons || apply Forall_nil);
    (split; [repeat split; discriminate | reflexivity]).
Defined.

Lemma listRepo_in_root_witness :
  let s := server_example false false None in
  let r := context_of (request_example "GET" "/repos" "/repos" [] []) "" in
  let filter := fun (repos : list string) (_ : Request) => repos in
  fs_wf fs_example
  /\ resolve ["srv"; "git"] (Dir (config s)) = Some ["srv"; "git"]
  /\ listed (snd (call h_listRepo (listRepo s "" r)
                    (initial_world fs_example ["srv"; "git"])))
     = option_map (fun repos => filter repos r)
         (list_under_root fs_example ["srv"; "git"] (Dir (config s))).
Proof.
  cbv zeta. split; [exact fs_example_wf|]. split; [vm_compute; reflexivity|].
  apply (listRepo_in_root (server_example false false None) ""
           (context_of (request_example "GET" "/repos" "/repos" [] []) "")
           (fun repos _ => repos) fs_example ["srv"; "git"]);
    [exact fs_example_wf | vm_compute; reflexivity | reflexivity].
Defined.

